(** * Verification of the budget engine of tgbot-daily-budget

    A shallow embedding of [budget/Wallet.go] and of the realized-transaction
    query of the Redis storage, with the properties of the reconciliation and
    prorated-balance engine proved over it.

    Conventions of the embedding:
    - Go's [int] is the 64-bit two's complement integer of the amd64 port: a
      [Z] kept in range by [wrap64] after every addition and subtraction.
    - [float32] and [float64] are the IEEE 754 binary32 and binary64 formats
      of the Standard Library's [SpecFloat] (round to nearest, ties to even).
    - [time.Time] is an absolute instant (Unix seconds and nanoseconds) with
      the location its calendar fields are read in; a location is the zone
      lookup of Go's [time] package, and [time.Local] is a parameter of the
      functions that use it.
    - a Go function returning [(T, error)] returns a pair; a [panic] is the
      [Panic] outcome, which every caller propagates. *)

From Stdlib Require Import ZArith Lia Bool List Ascii String.
From Stdlib Require Import Floats.SpecFloat.
From stdpp Require Import gmap strings list fin_maps.

Local Open Scope Z_scope.

(** ** Machine integers *)

Module Int64.

Definition modulus : Z := 2 ^ 64.
Definition min_int : Z := - 2 ^ 63.
Definition max_int : Z := 2 ^ 63 - 1.

(** Two's complement wrap-around of a mathematical integer. *)
Definition wrap64 (z : Z) : Z := (z + 2 ^ 63) mod 2 ^ 64 - 2 ^ 63.

Definition in_range (z : Z) : Prop := min_int <= z <= max_int.

Definition add (a b : Z) : Z := wrap64 (a + b).
Definition sub (a b : Z) : Z := wrap64 (a - b).

End Int64.

(** ** IEEE 754 arithmetic of Go's float32 and float64 *)

Module F32.

Definition prec : Z := 24.
Definition emax : Z := 128.

(** [float32(i)] for an integer [i]. *)
Definition of_int (i : Z) : spec_float := binary_normalize prec emax i 0 false.
Definition div (x y : spec_float) : spec_float := SFdiv prec emax x y.
Definition mul (x y : spec_float) : spec_float := SFmul prec emax x y.

Definition is_finite (x : spec_float) : bool :=
  match x with
  | S754_zero _ | S754_finite _ _ _ => true
  | S754_infinity _ | S754_nan => false
  end.

(** Truncation toward zero of a finite value, as a mathematical integer. *)
Definition trunc (x : spec_float) : option Z :=
  match x with
  | S754_zero _ => Some 0
  | S754_finite s m e =>
      let a := if 0 <=? e then Z.shiftl (Z.pos m) e else Z.shiftr (Z.pos m) (- e) in
      Some (if s then - a else a)
  | S754_infinity _ | S754_nan => None
  end.

(** [int(x)]: truncation toward zero; where the value does not fit (or is
    not a number) amd64's CVTTSS2SI yields the integer indefinite value. *)
Definition to_int (x : spec_float) : Z :=
  match trunc x with
  | Some z => if (Int64.min_int <=? z) && (z <=? Int64.max_int) then z else Int64.min_int
  | None => Int64.min_int
  end.

End F32.

Module F64.

Definition prec : Z := 53.
Definition emax : Z := 1024.

(** [float64(i)] for an integer [i]. *)
Definition of_int (i : Z) : spec_float := binary_normalize prec emax i 0 false.

(** [math.Abs]. *)
Definition Abs (x : spec_float) : spec_float := SFabs x.

(** The comparison [x > y]. *)
Definition gtb (x y : spec_float) : bool := SFltb y x.

End F64.

(** ** Go's [time] package: instants and the proleptic Gregorian calendar *)

Module Time.

(** A [*time.Location] as its [lookup] reports it: for a Unix time, the
    offset (seconds east of UTC) of the zone in effect at that time, and the
    Unix times at which that zone starts and ends. *)
Record Location : Type := mkLocation { lookup : Z -> Z * Z * Z }.

Definition alpha : Z := - 2 ^ 63.
Definition omega : Z := 2 ^ 63 - 1.

(** [time.FixedZone(name, offset)]: one zone for all time; [time.UTC] is
    the zone of offset 0. *)
Definition FixedZone (offset : Z) : Location :=
  mkLocation (fun _ => (offset, alpha, omega)).
Definition UTC : Location := FixedZone 0.

Definition offsetAt (l : Location) (unix : Z) : Z := fst (fst (lookup l unix)).

(** A [time.Time]: the instant, as seconds since the Unix epoch and
    nanoseconds within the second, and the location its calendar fields are
    read in. *)
Record t : Type := mk { sec : Z; nsec : Z; loc : Location }.

Definition January : Z := 1.
Definition February : Z := 2.
Definition March : Z := 3.
Definition April : Z := 4.
Definition May : Z := 5.
Definition June : Z := 6.
Definition July : Z := 7.
Definition August : Z := 8.
Definition September : Z := 9.
Definition October : Z := 10.
Definition November : Z := 11.
Definition December : Z := 12.

Definition secondsPerDay : Z := 86400.

(** Days from 1970-01-01 to the civil date [y]-[m]-[d]; linear in [d], so a
    day outside the month overflows into the neighbouring months as in Go. *)
Definition days_from_civil (y m d : Z) : Z :=
  let y0 := if m <=? 2 then y - 1 else y in
  let era := y0 / 400 in
  let yoe := y0 - era * 400 in
  let mp := if 2 <? m then m - 3 else m + 9 in
  let doy := (153 * mp + 2) / 5 + d - 1 in
  let doe := yoe * 365 + yoe / 4 - yoe / 100 + doy in
  era * 146097 + doe - 719468.

(** The civil date (year, month, day) of a day number. *)
Definition civil_from_days (z : Z) : Z * Z * Z :=
  let z0 := z + 719468 in
  let era := z0 / 146097 in
  let doe := z0 - era * 146097 in
  let yoe := (doe - doe / 1460 + doe / 36524 - doe / 146096) / 365 in
  let y := yoe + era * 400 in
  let doy := doe - (365 * yoe + yoe / 4 - yoe / 100) in
  let mp := (5 * doy + 2) / 153 in
  let d := doy - (153 * mp + 2) / 5 + 1 in
  let m := if mp <? 10 then mp + 3 else mp - 9 in
  (if m <=? 2 then y + 1 else y, m, d).

(** [time.Date(year, month, day, hour, min, sec, nsec, loc)]: the month is
    normalised into the year, everything else adds up linearly to the
    seconds of that wall clock at offset zero; these are then moved by the
    offset of the zone [loc] has there, looked up a second time when the
    first guess falls outside the zone it found. *)
Definition Date (year month day hour min sec nsec : Z) (loc : Location) : t :=
  let m0 := month - 1 in
  let year' := year + m0 / 12 in
  let month' := m0 mod 12 + 1 in
  let unix := days_from_civil year' month' day * secondsPerDay
              + hour * 3600 + min * 60 + sec + nsec / 1000000000 in
  let '(offset, start, end_) := lookup loc unix in
  let unix :=
    if offset =? 0 then unix
    else
      let utc := unix - offset in
      let offset :=
        if (utc <? start) || (end_ <=? utc) then offsetAt loc utc else offset in
      unix - offset in
  mk unix (nsec mod 1000000000) loc.

(** [time.Unix(sec, nsec)]: the instant, held in [time.Local]. *)
Definition Unix (Local : Location) (s ns : Z) : t :=
  mk (s + ns / 1000000000) (ns mod 1000000000) Local.

(** The seconds of the wall clock the instant shows in its location. *)
Definition abs (x : t) : Z := sec x + offsetAt (loc x) (sec x).

Definition civil (x : t) : Z * Z * Z := civil_from_days (abs x / secondsPerDay).

Definition Year (x : t) : Z := fst (fst (civil x)).
Definition Month (x : t) : Z := snd (fst (civil x)).
Definition Day (x : t) : Z := snd (civil x).

Definition Hour (x : t) : Z := (abs x mod secondsPerDay) / 3600.
Definition Minute (x : t) : Z := (abs x mod 3600) / 60.
Definition Second (x : t) : Z := abs x mod 60.

(** [t.AddDate(years, months, days)], in the location of [t]. *)
Definition AddDate (x : t) (years months days : Z) : t :=
  Date (Year x + years) (Month x + months) (Day x + days)
       (Hour x) (Minute x) (Second x) (nsec x) (loc x).

Definition Before (x u : t) : bool :=
  (sec x <? sec u) || ((sec x =? sec u) && (nsec x <? nsec u)).

Definition After (x u : t) : bool :=
  (sec u <? sec x) || ((sec x =? sec u) && (nsec u <? nsec x)).

End Time.

(** ** Errors, panics and effects *)

(** Go's [error]: [None] is [nil], [Some msg] an error value. *)
Definition error : Type := option string.
Definition errors_New (msg : string) : error := Some msg.

(** A call either returns or panics; a panic unwinds through every caller,
    none of them recovers. *)
Inductive outcome (A : Type) : Type :=
  | Ret (a : A)
  | Panic (msg : string).
Arguments Ret {A} a.
Arguments Panic {A} msg.

Definition outcome_bind {A B : Type} (x : outcome A) (f : A -> outcome B) : outcome B :=
  match x with
  | Ret a => f a
  | Panic msg => Panic msg
  end.

(** A computation over the state [S] of the storage collaborator. *)
Definition M (S A : Type) : Type := S -> outcome A * S.

Definition ret {S A : Type} (a : A) : M S A := fun s => (Ret a, s).

Definition bind {S A B : Type} (m : M S A) (f : A -> M S B) : M S B :=
  fun s =>
    match m s with
    | (Ret a, s') => f a s'
    | (Panic msg, s') => (Panic msg, s')
    end.

(** A computation that does not touch the storage. *)
Definition lift {S A : Type} (x : outcome A) : M S A := fun s => (x, s).

Declare Scope go_scope.
Delimit Scope go_scope with go.
Notation "x <- m ;; k" := (bind m (fun x => k))
  (at level 20, m at level 99, k at level 200, only parsing) : go_scope.
Notation "x <-! m ;; k" := (outcome_bind m (fun x => k))
  (at level 20, m at level 99, k at level 200, only parsing) : go_scope.
Local Open Scope go_scope.

(** ** Data model *)

Definition WalletId : Type := string.

Module RegularTransaction.
(** Modelled from the spec: the struct declaration of [RegularTransaction]
    is not among the sources; its fields are the ones [Wallet.go] reads
    ([Value], [Date], [Label]), each a Go [int] or [string]. *)
Record t : Type := mk { Value : Z; Date : Z; Label : string }.

#[global] Instance eq_dec : EqDecision t.
Proof. solve_decision. Defined.

(** [NewRegularTransaction(value, date, label)]. *)
Definition New (value date : Z) (label : string) : t := mk value date label.
End RegularTransaction.

Module ActualTransaction.
(** Modelled from the spec: the struct declaration of [ActualTransaction]
    is not among the sources; its fields are the ones the storage writes and
    [Wallet.go] reads ([Value], [Time], [Label], [RawText]). *)
Record t : Type := mk { Value : Z; Time : Time.t; Label : string; RawText : string }.

(** [NewActualTransaction(value, t, label, raw)]. *)
Definition New (value : Z) (time : Time.t) (label raw : string) : t :=
  mk value time label raw.
End ActualTransaction.

Module Storage.
(** Modelled from the spec: the [Storage] interface declaration is not among
    the sources; these are the methods [Wallet.go] calls on it, each acting
    on the state [S] of the store. *)
Record t (S : Type) : Type := mk {
  AddActualTransaction : WalletId -> ActualTransaction.t -> M S error;
  AddRegularTransaction : WalletId -> RegularTransaction.t -> M S error;
  RemoveRegularTransaction : WalletId -> RegularTransaction.t -> M S error;
  GetRegularTransactions : WalletId -> M S (list RegularTransaction.t * error);
  GetActualTransactions :
    WalletId -> Time.t -> Time.t -> M S (list ActualTransaction.t * error);
  SetWalletInfo : WalletId -> Z -> M S error
}.
Arguments AddActualTransaction {S}.
Arguments AddRegularTransaction {S}.
Arguments RemoveRegularTransaction {S}.
Arguments GetRegularTransactions {S}.
Arguments GetActualTransactions {S}.
Arguments SetWalletInfo {S}.
End Storage.

(** The fixed day table of the storage file; February has 28 days in every
    year. *)
Definition daysInMonth : gmap Z Z :=
  list_to_map
    [ (Time.January, 31); (Time.February, 28); (Time.March, 31);
      (Time.April, 30); (Time.May, 31); (Time.June, 30); (Time.July, 31);
      (Time.August, 31); (Time.September, 30); (Time.October, 31);
      (Time.November, 30); (Time.December, 31) ].

(** [daysInMonth[month]]: a month that is not a key reads as Go's zero
    value. *)
Definition daysIn (month : Z) : Z := default 0 (daysInMonth !! month).

(** ** [budget/Wallet.go] *)

Module Wallet.

Section WithStorage.

Context {S : Type}.

(** [time.Local], the time zone of the process. *)
Variable Local : Time.Location.

Record t : Type := mk { ID : WalletId; MonthStart : Z; storage : Storage.t S }.

Definition NewWalletFromStorage (id : string) (monthStart : Z)
    (storageconn : Storage.t S) : t :=
  mk id monthStart storageconn.

Definition AddTransaction (w : t) (tx : ActualTransaction.t) : M S error :=
  Storage.AddActualTransaction (storage w) (ID w) tx.

Fixpoint checkRegularTransactionLabelExist
    (transactions : list RegularTransaction.t) (label : string) : bool :=
  match transactions with
  | [] => false
  | tx :: rest =>
      if String.eqb (RegularTransaction.Label tx) label then true
      else checkRegularTransactionLabelExist rest label
  end.

Definition errDateRange : string :=
  "Only dates between 1 and 28 are allowed for regular income/outcome setting".

Definition errLabelExists (label : string) : string :=
  "Label '" +:+ label +:+ "' already exists".

Definition AddRegularTransaction (w : t) (tx : RegularTransaction.t) : M S error :=
  let date := RegularTransaction.Date tx in
  if (date <? 1) || (28 <? date) then
    ret (errors_New errDateRange)
  else
    r <- Storage.GetRegularTransactions (storage w) (ID w) ;;
    let '(transactions, err) := r in
    match err with
    | Some _ => ret err
    | None =>
        let exists_ :=
          checkRegularTransactionLabelExist transactions (RegularTransaction.Label tx) in
        if exists_ then
          ret (errors_New (errLabelExists (RegularTransaction.Label tx)))
        else
          Storage.AddRegularTransaction (storage w) (ID w) tx
    end.

Definition GetPlannedMonthlyIncome (w : t) : M S (Z * error) :=
  r <- Storage.GetRegularTransactions (storage w) (ID w) ;;
  let '(transactions, err) := r in
  match err with
  | Some _ => ret (0, err)
  | None =>
      let totalIncome :=
        fold_left (fun total change => Int64.add total (RegularTransaction.Value change))
                  transactions 0 in
      ret (totalIncome, None)
  end.

Fixpoint checkRegularTransactionExactMatchExist
    (transactions : list RegularTransaction.t) (t_checked : RegularTransaction.t) : bool :=
  match transactions with
  | [] => false
  | tx :: rest =>
      if bool_decide (tx = t_checked) then true
      else checkRegularTransactionExactMatchExist rest t_checked
  end.

Definition RemoveRegularTransaction (w : t) (tx : RegularTransaction.t) : M S error :=
  r <- Storage.GetRegularTransactions (storage w) (ID w) ;;
  let '(transactions, err) := r in
  match err with
  | Some _ => ret err
  | None =>
      let exists_ := checkRegularTransactionExactMatchExist transactions tx in
      if negb exists_ then
        ret (errors_New (errLabelExists (RegularTransaction.Label tx)))
      else
        Storage.RemoveRegularTransaction (storage w) (ID w) tx
  end.

Definition calcCurMonthBorders (walletMonthStartDay : Z) (now : Time.t)
    : outcome (Time.t * Time.t) :=
  if (walletMonthStartDay <? 1) || (28 <? walletMonthStartDay) then
    Panic "Date must be between 1 and 28"
  else
    let monthStart :=
      Time.Date (Time.Year now) (Time.Month now) walletMonthStartDay 0 0 0 0 Local in
    let monthStart :=
      if Time.Day now <? walletMonthStartDay then Time.AddDate monthStart 0 (-1) 0
      else monthStart in
    let monthEnd := Time.AddDate monthStart 0 1 0 in
    Ret (monthStart, monthEnd).

Definition getRegularTransactions (w : t) : M S (list RegularTransaction.t * error) :=
  r <- Storage.GetRegularTransactions (storage w) (ID w) ;;
  let '(transactions, err) := r in
  match err with
  | Some _ => ret ([], err)
  | None => ret (transactions, None)
  end.

Definition getActualTransactionsForCurrentMonthTillDate (w : t) (now : Time.t)
    : M S (list ActualTransaction.t * error) :=
  r <- lift (calcCurMonthBorders (MonthStart w) now) ;;
  let '(t1, _) := r in
  r <- Storage.GetActualTransactions (storage w) (ID w) t1 now ;;
  let '(transactions, err) := r in
  match err with
  | Some _ => ret ([], err)
  | None => ret (transactions, None)
  end.

(** The first loop of [accumulateMatchedTransactions]: the set of planned
    labels, panicking on an empty one. *)
Fixpoint labelRegulars (regular_txs : list RegularTransaction.t)
    (regularTransactionsLabeled : gmap string bool) : outcome (gmap string bool) :=
  match regular_txs with
  | [] => Ret regularTransactionsLabeled
  | regularElem :: rest =>
      if String.eqb (RegularTransaction.Label regularElem) "" then
        Panic "Label for regular transaction is empty"
      else
        labelRegulars rest
          (<[RegularTransaction.Label regularElem := true]> regularTransactionsLabeled)
  end.

(** The second loop: [matched[label] += actual.Value] for every realized
    transaction whose label names a planned one. *)
Fixpoint accumulateActuals (regularTransactionsLabeled : gmap string bool)
    (actual_txs : list ActualTransaction.t) (matched : gmap string Z) : gmap string Z :=
  match actual_txs with
  | [] => matched
  | actual :: rest =>
      let label := ActualTransaction.Label actual in
      if String.eqb label "" then
        accumulateActuals regularTransactionsLabeled rest matched
      else
        match regularTransactionsLabeled !! label with
        | None => accumulateActuals regularTransactionsLabeled rest matched
        | Some _ =>
            accumulateActuals regularTransactionsLabeled rest
              (<[label := Int64.add (default 0 (matched !! label))
                                    (ActualTransaction.Value actual)]> matched)
        end
  end.

Definition accumulateMatchedTransactions (regular_txs : list RegularTransaction.t)
    (actual_txs : list ActualTransaction.t) : outcome (gmap string Z) :=
  regularTransactionsLabeled <-! labelRegulars regular_txs ∅ ;;
  Ret (accumulateActuals regularTransactionsLabeled actual_txs ∅).

(** One iteration of the loop of [calcMonthlyIncomeTillDate] over the planned
    transactions: the running total after [tx], or the panic. *)
Definition monthlyIncomeStep (matched_actual_txs : gmap string Z)
    (totalMonthlyIncome : Z) (tx : RegularTransaction.t) : outcome Z :=
  let value := RegularTransaction.Value tx in
  match matched_actual_txs !! RegularTransaction.Label tx with
  | Some matched_amount =>
      if ((0 <? value) && (matched_amount <? 0)) || ((value <? 0) && (0 <? matched_amount))
      then Panic "Mismatched signs for regular and its matched actual counterpart"
      else if 0 <? value then
        Ret (Int64.add totalMonthlyIncome matched_amount)
      else if F64.gtb (F64.Abs (F64.of_int value)) (F64.Abs (F64.of_int matched_amount))
      then Ret (Int64.add totalMonthlyIncome value)
      else Ret (Int64.add totalMonthlyIncome matched_amount)
  | None => Ret (Int64.add totalMonthlyIncome value)
  end.

Fixpoint totalMonthlyIncomeFrom (matched_actual_txs : gmap string Z)
    (totalMonthlyIncome : Z) (regular_txs : list RegularTransaction.t) : outcome Z :=
  match regular_txs with
  | [] => Ret totalMonthlyIncome
  | tx :: rest =>
      total <-! monthlyIncomeStep matched_actual_txs totalMonthlyIncome tx ;;
      totalMonthlyIncomeFrom matched_actual_txs total rest
  end.

(** The month before [month], December before January. *)
Definition prevMonthOf (month : Z) : Z :=
  if negb (month =? Time.January) then month - 1 else Time.December.

(** The divisor of the branch taken when the reference day lies before the
    month start. *)
Definition wrappedDays (monthStart curDay prevMonth : Z) : Z :=
  Int64.sub (Int64.sub 31 (Int64.sub monthStart curDay))
            (Int64.sub 31 (daysIn prevMonth)).

(** The share of [totalMonthlyIncome] granted till the instant [now], as the
    float32 value the code computes before the final conversion to [int]. *)
Definition prorate (monthStart totalMonthlyIncome : Z) (now : Time.t) : spec_float :=
  let curDay := Time.Day now in
  if monthStart <=? curDay then
    let daysInCurMonth := daysIn (Time.Month now) in
    F32.mul (F32.div (F32.of_int totalMonthlyIncome) (F32.of_int daysInCurMonth))
            (F32.of_int (Int64.add (Int64.sub curDay monthStart) 1))
  else
    let prevMonth := prevMonthOf (Time.Month now) in
    F32.div (F32.of_int totalMonthlyIncome)
            (F32.of_int (wrappedDays monthStart curDay prevMonth)).

Definition calcMonthlyIncomeTillDate (w : t) (regular_txs : list RegularTransaction.t)
    (matched_actual_txs : gmap string Z) (now : Time.t) : outcome Z :=
  totalMonthlyIncome <-! totalMonthlyIncomeFrom matched_actual_txs 0 regular_txs ;;
  let result := prorate (MonthStart w) totalMonthlyIncome now in
  Ret (F32.to_int result).

Definition calcUnmatchedTransactionsSum (w : t) (actual_txs : list ActualTransaction.t)
    (matched_actual_txs : gmap string Z) : Z :=
  fold_left
    (fun sum tx =>
       match matched_actual_txs !! ActualTransaction.Label tx with
       | Some _ => sum
       | None => Int64.add sum (ActualTransaction.Value tx)
       end)
    actual_txs 0.

Definition GetBalance (w : t) (now : Time.t) : M S (Z * error) :=
  r <- getRegularTransactions w ;;
  let '(regular_txs, err) := r in
  match err with
  | Some _ => ret (0, err)
  | None =>
      r <- getActualTransactionsForCurrentMonthTillDate w now ;;
      let '(actual_txs, err) := r in
      match err with
      | Some _ => ret (0, err)
      | None =>
          matched_actual_txs <- lift (accumulateMatchedTransactions regular_txs actual_txs) ;;
          curAvailIncome <-
            lift (calcMonthlyIncomeTillDate w regular_txs matched_actual_txs now) ;;
          let unmatchedTrxSum :=
            calcUnmatchedTransactionsSum w actual_txs matched_actual_txs in
          let availMoney := Int64.add curAvailIncome unmatchedTrxSum in
          ret (availMoney, None)
      end
  end.

(** [SetMonthStart] mutates the wallet it is called on, so the wallet is
    part of the state next to the store: the field is assigned first, the
    store is called with the assigned value, and a failure of the store
    assigns the old value back. *)
Definition SetMonthStart (date : Z) : M (t * S) error :=
  fun '(w, st) =>
    if (date <? 1) || (28 <? date) then
      (Panic "Date is out of range", (w, st))
    else
      let oldDate := MonthStart w in
      let w := mk (ID w) date (storage w) in
      match Storage.SetWalletInfo (storage w) (ID w) (MonthStart w) st with
      | (Ret err, st') =>
          match err with
          | Some _ => (Ret err, (mk (ID w) oldDate (storage w), st'))
          | None => (Ret err, (w, st'))
          end
      | (Panic msg, st') => (Panic msg, (w, st'))
      end.

End WithStorage.

Arguments t : clear implicits.

End Wallet.

(** ** The realized-transaction query of the Redis storage *)

Module Strings.

(** [strings.Split(s, sep)] for a separator of one character. *)
Fixpoint Split (s : string) (sep : ascii) : list string :=
  match s with
  | EmptyString => [EmptyString]
  | String c rest =>
      if Ascii.eqb c sep then EmptyString :: Split rest sep
      else
        match Split rest sep with
        | part :: parts => String c part :: parts
        | [] => [String c EmptyString]
        end
  end.

Definition digit (c : ascii) : option Z :=
  let n := Z.of_N (Ascii.N_of_ascii c) in
  if (48 <=? n) && (n <=? 57) then Some (n - 48) else None.

Fixpoint digits (s : string) (acc : Z) : option Z :=
  match s with
  | EmptyString => Some acc
  | String c rest =>
      match digit c with
      | Some d => digits rest (acc * 10 + d)
      | None => None
      end
  end.

Definition errSyntax : error := Some "invalid syntax".
Definition errRange : error := Some "value out of range".

(** [strconv.ParseInt(s, 10, 64)]: an optional sign and decimal digits; on a
    syntax error the value is 0, on a range error the nearest bound. *)
Definition ParseInt (s : string) : Z * error :=
  let '(neg, body) :=
    match s with
    | String "-"%char rest => (true, rest)
    | String "+"%char rest => (false, rest)
    | _ => (false, s)
    end in
  match body with
  | EmptyString => (0, errSyntax)
  | _ =>
      match digits body 0 with
      | None => (0, errSyntax)
      | Some un =>
          if neg then
            if un <=? 2 ^ 63 then (- un, None) else (Int64.min_int, errRange)
          else
            if un <=? Int64.max_int then (un, None) else (Int64.max_int, errRange)
      end
  end.

(** [strconv.Atoi(s)] with a 64-bit [int]. *)
Definition Atoi (s : string) : Z * error := ParseInt s.

End Strings.

Module RedisStorage.

(** The go-redis client, an external collaborator: of it the query uses
    [Scan(cursor, match, count).Result()] and [HGetAll(key).Result()], here
    two functions of a store that does not change while the query runs. *)
Record Client : Type := mkClient {
  Scan : Z -> string -> Z -> list string * Z * error;
  HGetAll : string -> gmap string string * error
}.

Fixpoint uniqueStringSliceFrom (s : list string) (result : list string)
    (seen : gmap string bool) : list string :=
  match s with
  | [] => result
  | elem :: rest =>
      match seen !! elem with
      | Some _ => uniqueStringSliceFrom rest result seen
      | None => uniqueStringSliceFrom rest (result ++ [elem]) (<[elem := true]> seen)
      end
  end.

Definition uniqueStringSlice (s : list string) : list string :=
  uniqueStringSliceFrom s [] ∅.

Section WithClient.

Variable client : Client.

(** [time.Local], the time zone of the process. *)
Variable Local : Time.Location.

(** The scan loop of [getAllKeys]; it ends when the server hands back the
    cursor 0. [None]: the loop is still running when the fuel is used up. *)
Fixpoint getAllKeysFrom (fuel : nat) (matchPattern : string) (cursor : Z)
    (result : list string) : option (list string * error) :=
  match fuel with
  | O => None
  | Datatypes.S fuel' =>
      let '(keys, newcursor, err) := Scan client cursor matchPattern 10 in
      match err with
      | Some _ => Some ([], err)
      | None =>
          let cursor := newcursor in
          let result := result ++ keys in
          if cursor =? 0 then Some (result, None)
          else getAllKeysFrom fuel' matchPattern cursor result
      end
  end.

Definition getAllKeys (fuel : nat) (matchPattern : string)
    : option (list string * error) :=
  getAllKeysFrom fuel matchPattern 0 [].

(** The loop of [GetActualTransactions] over the keys found. *)
Fixpoint collectTransactions (t1 t2 : Time.t) (allKeys : list string)
    (result : list ActualTransaction.t) : outcome (list ActualTransaction.t * error) :=
  match allKeys with
  | [] => Ret (result, None)
  | k :: rest =>
      match Strings.Split k ":"%char !! 3%nat with
      | None => Panic "index out of range"
      | Some part =>
          let '(tUnix, _) := Strings.ParseInt part in
          let t := Time.Unix Local tUnix 0 in
          if Time.After t t1 && Time.Before t t2 then
            let '(fields, err) := HGetAll client k in
            match err with
            | Some _ => collectTransactions t1 t2 rest result
            | None =>
                let valueStr := default "" (fields !! "value") in
                let '(value, err) := Strings.Atoi valueStr in
                match err with
                | Some _ => Ret ([], err)
                | None =>
                    collectTransactions t1 t2 rest
                      (result ++
                       [ActualTransaction.New value t (default "" (fields !! "label")) ""])
                end
            end
          else collectTransactions t1 t2 rest result
      end
  end.

Definition GetActualTransactions (fuel : nat) (w : WalletId) (t1 t2 : Time.t)
    : option (outcome (list ActualTransaction.t * error)) :=
  if Time.Before t2 t1 then Some (Panic "Time borders misaligned")
  else
    let matchIn := "wallet:" +:+ w +:+ ":in:*" in
    let matchOut := "wallet:" +:+ w +:+ ":out:*" in
    match getAllKeys fuel matchIn with
    | None => None
    | Some (_, Some e) => Some (Ret ([], Some e))
    | Some (keysIn, None) =>
        match getAllKeys fuel matchOut with
        | None => None
        | Some (_, Some e) => Some (Ret ([], Some e))
        | Some (keysOut, None) =>
            let allKeys := keysIn ++ keysOut in
            let allKeys := uniqueStringSlice allKeys in
            Some (collectTransactions t1 t2 allKeys [])
        end
    end.

(** [scannerRegularTransactions] builds the scan pattern of the planned
    transactions of a wallet; it is not among the sources, and the query
    below only hands its result to [Scan]. *)
Variable scannerRegularTransactions : WalletId -> string.

(** The loop of [GetRegularTransactions] over one batch of keys. [inl]: the
    loop has run through, with the records and the guard it leaves; [inr]:
    the method returns from inside the loop with this error. *)
Fixpoint readRegularTransactions (keys : list string) (result : list RegularTransaction.t)
    (repeatedKeysGuard : gmap string bool)
    : outcome (list RegularTransaction.t * gmap string bool + error) :=
  match keys with
  | [] => Ret (inl (result, repeatedKeysGuard))
  | k :: rest =>
      match repeatedKeysGuard !! k with
      | Some _ => readRegularTransactions rest result repeatedKeysGuard
      | None =>
          let '(fields, err) := HGetAll client k in
          match err with
          | Some _ => readRegularTransactions rest result repeatedKeysGuard
          | None =>
              let valueStr := default "" (fields !! "value") in
              let '(value, err) := Strings.Atoi valueStr in
              match err with
              | Some _ => Ret (inr err)
              | None =>
                  let keyParts := Strings.Split k ":"%char in
                  match keyParts !! 4%nat with
                  | None => Panic "index out of range"
                  | Some dateStr =>
                      let '(date, err) := Strings.Atoi dateStr in
                      match err with
                      | Some _ => Ret (inr err)
                      | None =>
                          readRegularTransactions rest
                            (result ++ [RegularTransaction.New value date
                                          (default "" (fields !! "label"))])
                            (<[k := true]> repeatedKeysGuard)
                      end
                  end
              end
          end
      end
  end.

(** The scan loop of [GetRegularTransactions]. [None]: the loop is still
    running when the fuel is used up. *)
Fixpoint GetRegularTransactionsFrom (fuel : nat) (scanMatch : string) (cursor : Z)
    (result : list RegularTransaction.t) (repeatedKeysGuard : gmap string bool)
    : option (outcome (list RegularTransaction.t * error)) :=
  match fuel with
  | O => None
  | Datatypes.S fuel' =>
      let '(keys, newcursor, err) := Scan client cursor scanMatch 10 in
      let cursor := newcursor in
      match err with
      | Some _ => Some (Ret ([], err))
      | None =>
          match readRegularTransactions keys result repeatedKeysGuard with
          | Panic msg => Some (Panic msg)
          | Ret (inr err) => Some (Ret ([], err))
          | Ret (inl (result, repeatedKeysGuard)) =>
              if cursor =? 0 then Some (Ret (result, None))
              else GetRegularTransactionsFrom fuel' scanMatch cursor result
                     repeatedKeysGuard
          end
      end
  end.

Definition GetRegularTransactions (fuel : nat) (w : WalletId)
    : option (outcome (list RegularTransaction.t * error)) :=
  let scanMatch := scannerRegularTransactions w in
  GetRegularTransactionsFrom fuel scanMatch 0 [] ∅.

End WithClient.

End RedisStorage.

(** ** An in-memory store

    A store of one wallet that keeps its records in lists; it answers the
    realized-transaction query with the window test of the Redis storage.
    While [online] is false every call fails and changes nothing. *)

Module MemStorage.

Record state : Type := mkState {
  regulars : list RegularTransaction.t;
  actuals : list ActualTransaction.t;
  walletInfo : option Z;
  online : bool
}.

Definition errOffline : error := Some "connection refused".

Definition inWindow (t1 t2 : Time.t) (tx : ActualTransaction.t) : bool :=
  Time.After (ActualTransaction.Time tx) t1 && Time.Before (ActualTransaction.Time tx) t2.

Definition AddActualTransaction (_ : WalletId) (tx : ActualTransaction.t) : M state error :=
  fun st =>
    if online st then
      (Ret None, mkState (regulars st) (actuals st ++ [tx]) (walletInfo st) true)
    else (Ret errOffline, st).

Definition AddRegularTransaction (_ : WalletId) (tx : RegularTransaction.t) : M state error :=
  fun st =>
    if online st then
      (Ret None, mkState (regulars st ++ [tx]) (actuals st) (walletInfo st) true)
    else (Ret errOffline, st).

Definition RemoveRegularTransaction (_ : WalletId) (tx : RegularTransaction.t)
    : M state error :=
  fun st =>
    if online st then
      (Ret None,
       mkState (filter (fun r => r ≠ tx) (regulars st)) (actuals st) (walletInfo st) true)
    else (Ret errOffline, st).

Definition GetRegularTransactions (_ : WalletId)
    : M state (list RegularTransaction.t * error) :=
  fun st => if online st then (Ret (regulars st, None), st) else (Ret ([], errOffline), st).

Definition GetActualTransactions (_ : WalletId) (t1 t2 : Time.t)
    : M state (list ActualTransaction.t * error) :=
  fun st =>
    if Time.Before t2 t1 then (Panic "Time borders misaligned", st)
    else if online st then
      (Ret (List.filter (inWindow t1 t2) (actuals st), None), st)
    else (Ret ([], errOffline), st).

Definition SetWalletInfo (_ : WalletId) (monthStart : Z) : M state error :=
  fun st =>
    if online st then
      (Ret None, mkState (regulars st) (actuals st) (Some monthStart) true)
    else (Ret errOffline, st).

Definition store : Storage.t state :=
  Storage.mk state AddActualTransaction AddRegularTransaction RemoveRegularTransaction
             GetRegularTransactions GetActualTransactions SetWalletInfo.

End MemStorage.

(** ** Predicates of the statements *)

(** A planned value and a matched realized sum of opposite strict signs. *)
Definition signMismatch (value m : Z) : Prop :=
  (0 < value /\ m < 0) \/ (value < 0 /\ 0 < m).

(** The location has one offset at all times: it has no transition, to
    daylight-saving time or otherwise. *)
Definition fixedOffset (l : Time.Location) (offset : Z) : Prop :=
  forall unix, Time.offsetAt l unix = offset.

(** The instant [x] is midnight at the start of the civil day [y]-[m]-[d],
    on the wall clock of the location [x] is held in. *)
Definition isMidnightOf (x : Time.t) (y m d : Z) : Prop :=
  Time.Year x = y /\ Time.Month x = m /\ Time.Day x = d
  /\ Time.Hour x = 0 /\ Time.Minute x = 0 /\ Time.Second x = 0 /\ Time.nsec x = 0.

(** The calendar month before and after the month [m] of the year [y]. *)
Definition prevCalendarMonth (y m : Z) : Z * Z :=
  if m =? Time.January then (y - 1, Time.December) else (y, m - 1).


(** The values of a matched set, and of a list of realized transactions,
    added up with Go's addition. *)
Definition sumMatched (matched : gmap string Z) : Z :=
  map_fold (fun _ value sum => Int64.add sum value) 0 matched.

Definition sumActuals (actual_txs : list ActualTransaction.t) : Z :=
  fold_left (fun sum tx => Int64.add sum (ActualTransaction.Value tx)) actual_txs 0.

(** The test of the matcher: a realized transaction is matched when its
    label is not empty and names a planned transaction. *)
Definition isMatched (labeled : gmap string bool) (tx : ActualTransaction.t) : bool :=
  negb (String.eqb (ActualTransaction.Label tx) "")
  && bool_decide (is_Some (labeled !! ActualTransaction.Label tx)).

(** The exact sum of the values of the realized transactions that pass a
    test. *)
Fixpoint valueOf (p : ActualTransaction.t -> bool) (actual_txs : list ActualTransaction.t)
    : Z :=
  match actual_txs with
  | [] => 0
  | tx :: rest =>
      (if p tx then ActualTransaction.Value tx else 0) + valueOf p rest
  end.

(** The realized transaction the Redis storage reads from the key [k]: the
    instant is the fourth part of the key, value and label are fields of the
    hash stored under the key. [None]: the key has no fourth part, the hash
    cannot be read, or its value is not an integer. *)
Definition storedTransaction (client : RedisStorage.Client) (Local : Time.Location)
    (k : string) : option ActualTransaction.t :=
  match Strings.Split k ":"%char !! 3%nat with
  | None => None
  | Some part =>
      let t := Time.Unix Local (fst (Strings.ParseInt part)) 0 in
      match RedisStorage.HGetAll client k with
      | (_, Some _) => None
      | (fields, None) =>
          match Strings.Atoi (default "" (fields !! "value")) with
          | (_, Some _) => None
          | (value, None) =>
              Some (ActualTransaction.New value t (default "" (fields !! "label")) "")
          end
      end
  end.

(** The window test of the query: strictly after [t1], strictly before [t2]. *)
Definition strictlyInside (t1 t2 : Time.t) (tx : ActualTransaction.t) : bool :=
  Time.After (ActualTransaction.Time tx) t1 && Time.Before (ActualTransaction.Time tx) t2.

(** A store with the single expense "wallet:w1:out:86400", which a scan for
    the outgoing keys of the wallet hands back in one batch. *)
Definition oneExpenseClient : RedisStorage.Client :=
  RedisStorage.mkClient
    (fun _ matchPattern _ =>
       if String.eqb matchPattern "wallet:w1:out:*"
       then (["wallet:w1:out:86400"], 0, None)
       else ([], 0, None))
    (fun k =>
       if String.eqb k "wallet:w1:out:86400"
       then (<["value" := "-5"]> (<["label" := "food"]> (<["raw" := "lunch"]> ∅)), None)
       else (∅, None)).

(** ** Sample data *)

Module Sample.

Definition rentPlan : RegularTransaction.t := RegularTransaction.mk (-800) 1 "rent".
Definition salaryPlan : RegularTransaction.t := RegularTransaction.mk 100 1 "salary".

(** The rent paid on 2024-03-15 at 09:00, and a coffee without a label. *)
Definition rentPaid : ActualTransaction.t :=
  ActualTransaction.mk (-800) (Time.Date 2024 3 15 9 0 0 0 Time.UTC) "rent" "rent for march".
Definition coffee : ActualTransaction.t :=
  ActualTransaction.mk (-3) (Time.Date 2024 3 10 8 0 0 0 Time.UTC) "" "coffee".

(** A planned expense one unit beyond the integers float64 holds exactly,
    and a matched sum of that size. *)
Definition hugeBills : RegularTransaction.t :=
  RegularTransaction.mk (- (2 ^ 53 + 1)) 1 "bills".
Definition hugeBillsMatched : gmap string Z := {[ "bills" := - 2 ^ 53 ]}.

(** A planned income matched by a negative sum. *)
Definition salaryRefunded : gmap string Z := {[ "salary" := -5 ]}.

Definition noon15 : Time.t := Time.Date 2024 3 15 12 0 0 0 Time.UTC.
Definition noon3 : Time.t := Time.Date 2024 3 3 12 0 0 0 Time.UTC.

Definition emptyStore : MemStorage.state := MemStorage.mkState [] [] None true.
Definition rentStore : MemStorage.state :=
  MemStorage.mkState [rentPlan] [rentPaid] None true.

Definition wallet (monthStart : Z) : Wallet.t MemStorage.state :=
  Wallet.mk "w1" monthStart MemStorage.store.

End Sample.

(** ** Further predicates and sample data *)

(** The mathematical sum of the planned values. *)
Definition planSum (transactions : list RegularTransaction.t) : Z :=
  fold_right (fun tx acc => RegularTransaction.Value tx + acc) 0 transactions.

(** A store without state that answers every load with the same lists and
    errors, and every write with the same error. *)
Module FixedStorage.

Definition store (regular : list RegularTransaction.t * error)
    (actual : list ActualTransaction.t * error) (write : error) : Storage.t unit :=
  Storage.mk unit
    (fun _ _ st => (Ret write, st))
    (fun _ _ st => (Ret write, st))
    (fun _ _ st => (Ret write, st))
    (fun _ st => (Ret regular, st))
    (fun _ _ _ st => (Ret actual, st))
    (fun _ _ st => (Ret write, st)).

End FixedStorage.

Module Sample2.

Definition offlineStore : MemStorage.state := MemStorage.mkState [] [] None false.

(** A second rent, planned for another day of the month. *)
Definition rentPlanDay2 : RegularTransaction.t := RegularTransaction.mk (-800) 2 "rent".

(** A store whose query of the realized transactions times out. *)
Definition timeoutStore : Storage.t unit :=
  FixedStorage.store ([Sample.rentPlan], None) ([], Some "i/o timeout") None.

(** The rent and the salary planned, the rent paid and a coffee bought; and
    the same records listed in another order. *)
Definition fullStore : MemStorage.state :=
  MemStorage.mkState [Sample.rentPlan; Sample.salaryPlan]
                     [Sample.rentPaid; Sample.coffee] None true.
Definition shuffledStore : MemStorage.state :=
  MemStorage.mkState [Sample.salaryPlan; Sample.rentPlan]
                     [Sample.coffee; Sample.rentPaid] None true.

(** A refund booked under the label of the rent. *)
Definition rentRefund : ActualTransaction.t :=
  ActualTransaction.mk 50 (Time.Date 2024 3 12 9 0 0 0 Time.UTC) "rent" "refund".
Definition refundStore : MemStorage.state :=
  MemStorage.mkState [Sample.rentPlan] [rentRefund] None true.

(** Only realized transactions, nothing planned. *)
Definition unplannedStore : MemStorage.state :=
  MemStorage.mkState [] [Sample.rentPaid; Sample.coffee] None true.


(** Noon of 3 March 2024 on a wall clock three hours ahead of UTC. *)
Definition noon3East : Time.t := Time.Date 2024 3 3 12 0 0 0 (Time.FixedZone 10800).


(** A planned transaction of value 0. *)
Definition giftPlan : RegularTransaction.t := RegularTransaction.mk 0 1 "gift".

(** A store whose scan hands back the key of one expense twice and the key
    of a second one whose hash cannot be read. *)
Definition flakyClient : RedisStorage.Client :=
  RedisStorage.mkClient
    (fun _ matchPattern _ =>
       if String.eqb matchPattern "wallet:w1:out:*"
       then (["wallet:w1:out:86400"; "wallet:w1:out:86500"; "wallet:w1:out:86400"], 0, None)
       else ([], 0, None))
    (fun k =>
       if String.eqb k "wallet:w1:out:86400"
       then (<["value" := "-5"]> (<["label" := "food"]> ∅), None)
       else (∅, Some "i/o timeout")).

(** A store with one expense whose value is not a number. *)
Definition garbledClient : RedisStorage.Client :=
  RedisStorage.mkClient
    (fun _ matchPattern _ =>
       if String.eqb matchPattern "wallet:w1:out:*"
       then (["wallet:w1:out:86400"], 0, None)
       else ([], 0, None))
    (fun k => (<["value" := "five"]> ∅, None)).

(** A store with the plan of a rent on day 1, which the scan hands back in
    two batches, the second repeating the key of the first. *)
Definition planClient : RedisStorage.Client :=
  RedisStorage.mkClient
    (fun cursor _ _ =>
       if cursor =? 0 then (["wallet:w1:regular:out:1:1700000000"], 7, None)
       else (["wallet:w1:regular:out:1:1700000000"], 0, None))
    (fun k => (<["value" := "-800"]> (<["label" := "rent"]> ∅), None)).

End Sample2.

(** The planned transaction the Redis storage reads from the key [k]: the
    day of the month is the fifth part of the key, value and label are
    fields of the hash stored under the key. [None]: the hash cannot be
    read, its value is not an integer, or the key has no fifth part that is
    an integer. *)
Definition storedRegular (client : RedisStorage.Client) (k : string)
    : option RegularTransaction.t :=
  match RedisStorage.HGetAll client k with
  | (_, Some _) => None
  | (fields, None) =>
      match Strings.Atoi (default "" (fields !! "value")) with
      | (_, Some _) => None
      | (value, None) =>
          match Strings.Split k ":"%char !! 4%nat with
          | None => None
          | Some dateStr =>
              match Strings.Atoi dateStr with
              | (_, Some _) => None
              | (date, None) =>
                  Some (RegularTransaction.New value date (default "" (fields !! "label")))
              end
          end
      end
  end.

(** The hash under the key [k] can be read. *)
Definition readable (client : RedisStorage.Client) (k : string) : Prop :=
  snd (RedisStorage.HGetAll client k) = None.

(** The key [k] is not in the guard map [seen]. *)
Definition unseen (seen : gmap string bool) (k : string) : bool :=
  negb (bool_decide (is_Some (seen !! k))).

(** What the method returns when the loop over the keys ends the scan. *)
Definition finishRegularTransactions
    (r : outcome (list RegularTransaction.t * gmap string bool + error))
    : outcome (list RegularTransaction.t * error) :=
  match r with
  | Ret (inl (result, _)) => Ret (result, None)
  | Ret (inr err) => Ret ([], err)
  | Panic msg => Panic msg
  end.

(** The test of the label: the realized transaction carries the label [l]. *)
Definition hasLabel (l : string) (tx : ActualTransaction.t) : bool :=
  String.eqb (ActualTransaction.Label tx) l.

(** Some planned transaction carries the label [l]. *)
Definition isPlanned (regular_txs : list RegularTransaction.t) (l : string) : bool :=
  existsb (fun r => String.eqb (RegularTransaction.Label r) l) regular_txs.

(** The start of the billing cycle of the month number [k], months counted
    from January of the year 0: midnight of day [monthStart] of that month in
    the local zone. *)
Definition cycleStart (Local : Time.Location) (monthStart k : Z) : Time.t :=
  Time.Date 0 (k + 1) monthStart 0 0 0 0 Local.

(** The month number of the billing cycle an instant falls into. *)
Definition cycleOf (ms : Z) (now : Time.t) : Z :=
  12 * Time.Year now + Time.Month now - 1
  - (if Time.Day now <? ms then 1 else 0).

(** * Properties *)

(** Linear arithmetic with division and remainder by constants. *)
Ltac div_lia := Z.div_mod_to_equations; lia.

(** ** Machine integers *)

Lemma wrap64_small (z : Z) : Int64.in_range z -> Int64.wrap64 z = z.
Proof.
  unfold Int64.in_range, Int64.min_int, Int64.max_int, Int64.wrap64. intros H.
  rewrite Z.mod_small by lia. lia.
Qed.

Lemma wrap64_in_range (z : Z) : Int64.in_range (Int64.wrap64 z).
Proof.
  unfold Int64.in_range, Int64.min_int, Int64.max_int, Int64.wrap64.
  pose proof (Z.mod_pos_bound (z + 2 ^ 63) (2 ^ 64)). lia.
Qed.

Lemma wrap64_add_l (a b : Z) : Int64.wrap64 (Int64.wrap64 a + b) = Int64.wrap64 (a + b).
Proof.
  unfold Int64.wrap64. f_equal.
  replace ((a + 2 ^ 63) mod 2 ^ 64 - 2 ^ 63 + b + 2 ^ 63)
    with ((a + 2 ^ 63) mod 2 ^ 64 + b) by lia.
  rewrite Zplus_mod_idemp_l. f_equal. lia.
Qed.

Lemma wrap64_add_r (a b : Z) : Int64.wrap64 (a + Int64.wrap64 b) = Int64.wrap64 (a + b).
Proof. rewrite (Z.add_comm a), wrap64_add_l. f_equal. lia. Qed.

Lemma add64_small (a b : Z) : Int64.in_range (a + b) -> Int64.add a b = a + b.
Proof. apply wrap64_small. Qed.

Lemma sub64_small (a b : Z) : Int64.in_range (a - b) -> Int64.sub a b = a - b.
Proof. apply wrap64_small. Qed.

(** ** The regular transaction registry *)

Section Registry.

Context {S : Type}.
Implicit Types (w : Wallet.t S) (tx : RegularTransaction.t) (st : S).

Lemma checkRegularTransactionLabelExist_false
    (transactions : list RegularTransaction.t) (label : string) :
  (forall r, In r transactions -> RegularTransaction.Label r <> label) ->
  Wallet.checkRegularTransactionLabelExist transactions label = false.
Proof.
  induction transactions as [|r rest IH]; intros Hfresh; simpl; [reflexivity|].
  destruct (String.eqb_spec (RegularTransaction.Label r) label) as [Heq|_].
  - exfalso. apply (Hfresh r); [now left | exact Heq].
  - apply IH. intros r' Hin. apply Hfresh. now right.
Qed.

Lemma AddRegularTransaction_rejects w tx st :
  RegularTransaction.Date tx < 1 \/ 28 < RegularTransaction.Date tx ->
  Wallet.AddRegularTransaction w tx st = (Ret (errors_New Wallet.errDateRange), st).
Proof.
  intros Hout. unfold Wallet.AddRegularTransaction.
  assert ((RegularTransaction.Date tx <? 1) || (28 <? RegularTransaction.Date tx) = true)
    as -> by (apply orb_true_iff; rewrite !Z.ltb_lt; exact Hout).
  reflexivity.
Qed.

Lemma AddRegularTransaction_accepts w tx st st1 st2 transactions :
  1 <= RegularTransaction.Date tx <= 28 ->
  Storage.GetRegularTransactions (Wallet.storage w) (Wallet.ID w) st
    = (Ret (transactions, None), st1) ->
  (forall r, In r transactions ->
             RegularTransaction.Label r <> RegularTransaction.Label tx) ->
  Storage.AddRegularTransaction (Wallet.storage w) (Wallet.ID w) tx st1 = (Ret None, st2) ->
  Wallet.AddRegularTransaction w tx st = (Ret None, st2).
Proof.
  intros Hin Hget Hfresh Hadd. unfold Wallet.AddRegularTransaction.
  assert ((RegularTransaction.Date tx <? 1) || (28 <? RegularTransaction.Date tx) = false)
    as -> by (apply orb_false_iff; rewrite !Z.ltb_ge; lia).
  unfold bind. rewrite Hget.
  rewrite (checkRegularTransactionLabelExist_false _ _ Hfresh). exact Hadd.
Qed.

(** C9. A planned transaction whose date is below 1 or above 28 is refused
    with the range error and the store is left exactly as it was, whatever
    the store is: no call reaches it. For the dates 1 and 28 the range check
    passes, and the add succeeds as soon as the wallet has no planned
    transaction with the same label and the store accepts the record. *)
Theorem AddRegularTransaction_date_range w tx st :
  (RegularTransaction.Date tx < 1 \/ 28 < RegularTransaction.Date tx ->
   Wallet.AddRegularTransaction w tx st = (Ret (errors_New Wallet.errDateRange), st))
  /\
  (RegularTransaction.Date tx = 1 \/ RegularTransaction.Date tx = 28 ->
   forall st1 st2 transactions,
     Storage.GetRegularTransactions (Wallet.storage w) (Wallet.ID w) st
       = (Ret (transactions, None), st1) ->
     (forall r, In r transactions ->
                RegularTransaction.Label r <> RegularTransaction.Label tx) ->
     Storage.AddRegularTransaction (Wallet.storage w) (Wallet.ID w) tx st1
       = (Ret None, st2) ->
     Wallet.AddRegularTransaction w tx st = (Ret None, st2)).
Proof.
  split.
  - apply AddRegularTransaction_rejects.
  - intros Hdate st1 st2 transactions. apply AddRegularTransaction_accepts. lia.
Qed.

End Registry.

Lemma AddRegularTransaction_date_range_witness :
  Wallet.AddRegularTransaction (Sample.wallet 1) (RegularTransaction.mk 50 0 "gift")
      Sample.emptyStore
    = (Ret (errors_New Wallet.errDateRange), Sample.emptyStore)
  /\ Wallet.AddRegularTransaction (Sample.wallet 1) (RegularTransaction.mk 50 28 "gift")
        Sample.emptyStore
      = (Ret None,
         MemStorage.mkState [RegularTransaction.mk 50 28 "gift"] [] None true).
Proof.
  split.
  - apply (proj1 (AddRegularTransaction_date_range (Sample.wallet 1)
                    (RegularTransaction.mk 50 0 "gift") Sample.emptyStore)).
    left. simpl. lia.
  - apply (proj2 (AddRegularTransaction_date_range (Sample.wallet 1)
                    (RegularTransaction.mk 50 28 "gift") Sample.emptyStore)
             (or_intror eq_refl) Sample.emptyStore _ []).
    + reflexivity.
    + intros r [].
    + reflexivity.
Defined.

(** ** The month-start setter *)

Section MonthStart.

Context {S : Type}.

(** C8. For a day in [1,28] the setter hands the new day to the store (in
    the state the store had on entry) and only the answer of the store
    settles the field of the wallet: after an error the wallet holds its
    previous month start again, after a success it holds the new day. The
    error of the store is returned unchanged, the identity and the store of
    the wallet are untouched. *)
Theorem SetMonthStart_persists_then_commits (w : Wallet.t S) (date : Z) (st st' : S)
    (err : error) :
  1 <= date <= 28 ->
  Storage.SetWalletInfo (Wallet.storage w) (Wallet.ID w) date st = (Ret err, st') ->
  exists w',
    Wallet.SetMonthStart date (w, st) = (Ret err, (w', st'))
    /\ Wallet.ID w' = Wallet.ID w
    /\ Wallet.storage w' = Wallet.storage w
    /\ Wallet.MonthStart w' = match err with
                              | Some _ => Wallet.MonthStart w
                              | None => date
                              end.
Proof.
  intros Hrange Hset. unfold Wallet.SetMonthStart.
  assert ((date <? 1) || (28 <? date) = false) as ->
    by (apply orb_false_iff; rewrite !Z.ltb_ge; lia).
  cbn [Wallet.ID Wallet.storage Wallet.MonthStart]. rewrite Hset.
  destruct err as [msg|]; eexists; repeat split; reflexivity.
Qed.

End MonthStart.

Lemma SetMonthStart_persists_then_commits_witness :
  1 <= 5 <= 28
  /\ exists w',
       Wallet.SetMonthStart 5 (Sample.wallet 1, Sample.emptyStore)
         = (Ret None, (w', MemStorage.mkState [] [] (Some 5) true))
       /\ Wallet.ID w' = "w1"
       /\ Wallet.storage w' = MemStorage.store
       /\ Wallet.MonthStart w' = 5.
Proof.
  split; [lia|].
  apply (SetMonthStart_persists_then_commits (Sample.wallet 1) 5 Sample.emptyStore
           (MemStorage.mkState [] [] (Some 5) true) None); [lia | reflexivity].
Defined.

(** ** The contribution rules of the prorated income calculator *)

Section Contributions.

Implicit Types (matched : gmap string Z) (tx : RegularTransaction.t) (total m : Z).

Lemma signMismatch_test (value m : Z) :
  ((0 <? value) && (m <? 0)) || ((value <? 0) && (0 <? m)) = true <-> signMismatch value m.
Proof.
  unfold signMismatch. rewrite orb_true_iff, !andb_true_iff, !Z.ltb_lt. reflexivity.
Qed.

Lemma monthlyIncomeStep_panics matched total tx :
  (exists msg, Wallet.monthlyIncomeStep matched total tx = Panic msg) <->
  (exists m, matched !! RegularTransaction.Label tx = Some m
             /\ signMismatch (RegularTransaction.Value tx) m).
Proof.
  unfold Wallet.monthlyIncomeStep.
  destruct (matched !! RegularTransaction.Label tx) as [m|].
  - destruct (((0 <? RegularTransaction.Value tx) && (m <? 0))
              || ((RegularTransaction.Value tx <? 0) && (0 <? m))) eqn:Htest.
    + apply signMismatch_test in Htest. split; eauto.
    + assert (~ signMismatch (RegularTransaction.Value tx) m) as Hno
        by (rewrite <- signMismatch_test, Htest; discriminate).
      split.
      * intros [msg Hp].
        destruct (0 <? RegularTransaction.Value tx); [discriminate|].
        destruct (F64.gtb _ _); discriminate.
      * intros (m' & Hm' & Hmis). congruence.
  - split; [intros [msg Hp]; discriminate | intros (m & Hm & _); discriminate].
Qed.

Lemma totalMonthlyIncomeFrom_panics matched total (regular_txs : list RegularTransaction.t) :
  (exists msg, Wallet.totalMonthlyIncomeFrom matched total regular_txs = Panic msg) <->
  Exists (fun tx => exists m, matched !! RegularTransaction.Label tx = Some m
                              /\ signMismatch (RegularTransaction.Value tx) m)
         regular_txs.
Proof.
  revert total. induction regular_txs as [|tx rest IH]; intros total; simpl.
  - rewrite Exists_nil. split; [intros [msg H]; discriminate | tauto].
  - rewrite Exists_cons, <- (monthlyIncomeStep_panics matched total tx).
    destruct (Wallet.monthlyIncomeStep matched total tx) as [total'|msg] eqn:Hstep; simpl.
    + rewrite IH. split; [tauto|]. intros [[msg H]|H]; [discriminate | exact H].
    + split; eauto.
Qed.

(** C4. The prorated-income calculation panics exactly when some planned
    transaction has a matched realized sum of the opposite strict sign
    (planned income with a negative sum, or planned expense with a positive
    sum); a matched sum of zero or of the same sign never takes that path. *)
Theorem calcMonthlyIncomeTillDate_panics_iff {S : Type} (w : Wallet.t S)
    (regular_txs : list RegularTransaction.t) matched (now : Time.t) :
  (exists msg, Wallet.calcMonthlyIncomeTillDate w regular_txs matched now = Panic msg) <->
  Exists (fun tx => exists m, matched !! RegularTransaction.Label tx = Some m
                              /\ signMismatch (RegularTransaction.Value tx) m)
         regular_txs.
Proof.
  rewrite <- (totalMonthlyIncomeFrom_panics matched 0 regular_txs).
  unfold Wallet.calcMonthlyIncomeTillDate.
  destruct (Wallet.totalMonthlyIncomeFrom matched 0 regular_txs) as [total|msg]; simpl.
  - split; intros [msg H]; discriminate.
  - split; eauto.
Qed.

Lemma monthlyIncomeStep_unmatched matched total tx :
  matched !! RegularTransaction.Label tx = None ->
  Wallet.monthlyIncomeStep matched total tx
    = Ret (Int64.add total (RegularTransaction.Value tx)).
Proof. intros Hnone. unfold Wallet.monthlyIncomeStep. now rewrite Hnone. Qed.

Lemma monthlyIncomeStep_income matched total tx m :
  matched !! RegularTransaction.Label tx = Some m ->
  0 < RegularTransaction.Value tx -> 0 <= m ->
  Wallet.monthlyIncomeStep matched total tx = Ret (Int64.add total m).
Proof.
  intros Hm Hpos Hnonneg. unfold Wallet.monthlyIncomeStep. rewrite Hm.
  assert ((m <? 0) = false) as -> by (apply Z.ltb_ge; lia).
  assert ((RegularTransaction.Value tx <? 0) = false) as -> by (apply Z.ltb_ge; lia).
  assert ((0 <? RegularTransaction.Value tx) = true) as -> by (apply Z.ltb_lt; lia).
  reflexivity.
Qed.

(** C3, as the code has it. A planned transaction whose label has no entry
    in the matched set adds exactly its planned value to the running total;
    a planned income whose label has a matched sum [m] that is not negative
    adds exactly [m], whatever the size of [m] against the planned value.
    (A negative [m] is the sign mismatch, which panics.) *)
Theorem monthlyIncomeStep_unmatched_and_income matched total tx :
  (matched !! RegularTransaction.Label tx = None ->
   Wallet.monthlyIncomeStep matched total tx
     = Ret (Int64.add total (RegularTransaction.Value tx)))
  /\
  (forall m, matched !! RegularTransaction.Label tx = Some m ->
             0 < RegularTransaction.Value tx -> 0 <= m ->
             Wallet.monthlyIncomeStep matched total tx = Ret (Int64.add total m)).
Proof.
  split.
  - apply monthlyIncomeStep_unmatched.
  - intros m. apply monthlyIncomeStep_income.
Qed.

(** C3 as stated fails: a planned income of 100 whose label has the matched
    sum -5 contributes nothing, the step panics. *)
Lemma monthlyIncomeStep_income_negative_sum_panics :
  Sample.salaryRefunded !! RegularTransaction.Label Sample.salaryPlan = Some (-5)
  /\ 0 < RegularTransaction.Value Sample.salaryPlan
  /\ Wallet.monthlyIncomeStep Sample.salaryRefunded 0 Sample.salaryPlan
      = Panic "Mismatched signs for regular and its matched actual counterpart"
  /\ Wallet.monthlyIncomeStep Sample.salaryRefunded 0 Sample.salaryPlan
      <> Ret (Int64.add 0 (-5)).
Proof.
  split; [reflexivity|]. split; [reflexivity|].
  split; [reflexivity | discriminate].
Qed.

(** C2 at the failing input: the planned expense -(2^53+1) with the matched
    sum -2^53 of the same sign. The planned value has the larger magnitude,
    but both convert to the same float64, the test [>] fails and the step
    adds the matched sum. *)
Theorem monthlyIncomeStep_expense_float64_tie :
  Int64.in_range (RegularTransaction.Value Sample.hugeBills)
  /\ Sample.hugeBillsMatched !! RegularTransaction.Label Sample.hugeBills = Some (- 2 ^ 53)
  /\ Z.abs (- 2 ^ 53) < Z.abs (RegularTransaction.Value Sample.hugeBills)
  /\ F64.of_int (RegularTransaction.Value Sample.hugeBills) = F64.of_int (- 2 ^ 53)
  /\ Wallet.monthlyIncomeStep Sample.hugeBillsMatched 0 Sample.hugeBills
     = Ret (- 2 ^ 53).
Proof.
  split; [|split; [|split; [|split]]].
  - unfold Int64.in_range. vm_compute. split; discriminate.
  - reflexivity.
  - vm_compute. reflexivity.
  - vm_compute. reflexivity.
  - vm_compute. reflexivity.
Qed.

(** The examples of the expense rule: planned -800 against the matched sums
    -500 and -900. *)
Example monthlyIncomeStep_expense_800_500 :
  Wallet.monthlyIncomeStep {[ "bills" := -500 ]} 0 (RegularTransaction.mk (-800) 1 "bills")
    = Ret (-800).
Proof. vm_compute. reflexivity. Qed.

Example monthlyIncomeStep_expense_800_900 :
  Wallet.monthlyIncomeStep {[ "bills" := -900 ]} 0 (RegularTransaction.mk (-800) 1 "bills")
    = Ret (-900).
Proof. vm_compute. reflexivity. Qed.

End Contributions.

Lemma monthlyIncomeStep_unmatched_and_income_witness :
  Wallet.monthlyIncomeStep ∅ 7 Sample.salaryPlan = Ret (Int64.add 7 100)
  /\ Wallet.monthlyIncomeStep {[ "salary" := 90 ]} 7 Sample.salaryPlan
      = Ret (Int64.add 7 90).
Proof.
  split.
  - apply (proj1 (monthlyIncomeStep_unmatched_and_income ∅ 7 Sample.salaryPlan)).
    reflexivity.
  - apply (proj2 (monthlyIncomeStep_unmatched_and_income {[ "salary" := 90 ]} 7
                    Sample.salaryPlan) 90); [reflexivity | simpl; lia | lia].
Defined.

(** ** Conservation of the realized value *)

Section Conservation.

Implicit Types (matched : gmap string Z) (labeled : gmap string bool).
Implicit Types (actual_txs : list ActualTransaction.t).

Lemma wrap64_idem (z : Z) : Int64.wrap64 (Int64.wrap64 z) = Int64.wrap64 z.
Proof. apply wrap64_small, wrap64_in_range. Qed.

Lemma add64_swap (y a b : Z) :
  Int64.add (Int64.add y a) b = Int64.add (Int64.add y b) a.
Proof. unfold Int64.add. rewrite !wrap64_add_l. f_equal. lia. Qed.

Lemma sumMatched_wrapped matched : Int64.wrap64 (sumMatched matched) = sumMatched matched.
Proof.
  unfold sumMatched.
  apply (map_fold_weak_ind (fun r _ => Int64.wrap64 r = r)).
  - reflexivity.
  - intros l x m r _ _. apply wrap64_idem.
Qed.

Lemma sumMatched_insert_fresh matched (l : string) (x : Z) :
  matched !! l = None ->
  sumMatched (<[l := x]> matched) = Int64.add (sumMatched matched) x.
Proof.
  intros Hfresh. unfold sumMatched.
  rewrite map_fold_insert_L; [reflexivity | | exact Hfresh].
  intros j1 j2 z1 z2 y _ _ _. apply add64_swap.
Qed.

Lemma sumMatched_delete matched (l : string) (x : Z) :
  matched !! l = Some x ->
  sumMatched matched = Int64.add (sumMatched (delete l matched)) x.
Proof.
  intros Hl. unfold sumMatched.
  rewrite (map_fold_delete_L _ _ l x matched); [reflexivity | | exact Hl].
  intros j1 j2 z1 z2 y _ _ _. apply add64_swap.
Qed.

(** [matched[label] += value] moves the sum of the set by [value]. *)
Lemma sumMatched_accumulate matched (l : string) (value : Z) :
  sumMatched (<[l := Int64.add (default 0 (matched !! l)) value]> matched)
    = Int64.wrap64 (sumMatched matched + value).
Proof.
  destruct (matched !! l) as [x|] eqn:Hl; simpl.
  - rewrite <- (insert_delete_eq matched l).
    rewrite sumMatched_insert_fresh by apply lookup_delete_eq.
    rewrite (sumMatched_delete matched l x Hl).
    unfold Int64.add. rewrite wrap64_add_r, wrap64_add_l. f_equal. lia.
  - rewrite sumMatched_insert_fresh by exact Hl.
    unfold Int64.add. rewrite wrap64_add_r. f_equal.
Qed.

Lemma isMatched_true labeled (tx : ActualTransaction.t) :
  isMatched labeled tx = true <->
  ActualTransaction.Label tx <> "" /\ is_Some (labeled !! ActualTransaction.Label tx).
Proof.
  unfold isMatched. rewrite andb_true_iff, negb_true_iff, bool_decide_eq_true.
  destruct (String.eqb_spec (ActualTransaction.Label tx) ""); intuition congruence.
Qed.

Lemma accumulateActuals_sum labeled actual_txs matched :
  sumMatched (Wallet.accumulateActuals labeled actual_txs matched)
    = Int64.wrap64 (sumMatched matched + valueOf (isMatched labeled) actual_txs).
Proof.
  revert matched. induction actual_txs as [|tx rest IH]; intros matched; simpl.
  - rewrite Z.add_0_r. symmetry. apply sumMatched_wrapped.
  - unfold isMatched at 1.
    destruct (String.eqb (ActualTransaction.Label tx) "") eqn:Hempty; simpl.
    + rewrite IH. reflexivity.
    + destruct (labeled !! ActualTransaction.Label tx) as [b|] eqn:Hl.
      * rewrite bool_decide_eq_true_2 by eauto.
        rewrite IH, sumMatched_accumulate, wrap64_add_l. f_equal. lia.
      * rewrite bool_decide_eq_false_2 by (intros [? ?]; discriminate).
        rewrite IH. reflexivity.
Qed.

(** The keys of the matched set are the labels of the matched realized
    transactions. *)
Lemma accumulateActuals_keys labeled actual_txs matched (l : string) :
  is_Some (Wallet.accumulateActuals labeled actual_txs matched !! l) <->
  is_Some (matched !! l)
  \/ exists tx, In tx actual_txs /\ ActualTransaction.Label tx = l
                /\ isMatched labeled tx = true.
Proof.
  revert matched. induction actual_txs as [|tx rest IH]; intros matched; simpl.
  - split; [tauto | intros [H | (tx & [] & _)]; exact H].
  - assert (Hskip : isMatched labeled tx = false ->
              is_Some (Wallet.accumulateActuals labeled rest matched !! l) <->
              is_Some (matched !! l)
              \/ exists tx', (tx = tx' \/ In tx' rest) /\ ActualTransaction.Label tx' = l
                             /\ isMatched labeled tx' = true).
    { intros Hno. rewrite IH. split.
      - intros [H | (tx' & Hin & Hl & Hm)]; [now left | right; eauto].
      - intros [H | (tx' & [<- | Hin] & Hl & Hm)]; [now left | congruence | right; eauto]. }
    destruct (String.eqb (ActualTransaction.Label tx) "") eqn:Hempty.
    { apply Hskip. unfold isMatched. now rewrite Hempty. }
    destruct (labeled !! ActualTransaction.Label tx) as [b|] eqn:Hlab.
    + assert (Hyes : isMatched labeled tx = true).
      { apply isMatched_true. split; [|rewrite Hlab; eauto].
        intros Heq. rewrite Heq in Hempty. discriminate. }
      rewrite IH. rewrite lookup_insert. split.
      * intros [H | (tx' & Hin & Hl & Hm)]; [|right; eauto].
        case_decide as Heq; [right; exists tx; auto | now left].
      * intros [H | (tx' & [<- | Hin] & Hl & Hm)].
        -- left. case_decide; [eauto | exact H].
        -- left. rewrite decide_True by exact Hl. eauto.
        -- right. eauto.
    + apply Hskip. apply not_true_is_false. rewrite isMatched_true, Hlab.
      intros [_ [? ?]]; discriminate.
Qed.

Lemma accumulateActuals_lookup labeled actual_txs (tx : ActualTransaction.t) :
  In tx actual_txs ->
  is_Some (Wallet.accumulateActuals labeled actual_txs ∅ !! ActualTransaction.Label tx)
  <-> isMatched labeled tx = true.
Proof.
  intros Hin. rewrite accumulateActuals_keys, lookup_empty. split.
  - intros [[? H] | (tx' & _ & Hl & Hm)]; [discriminate|].
    apply isMatched_true in Hm. apply isMatched_true. now rewrite <- Hl.
  - intros Hm. right. eauto.
Qed.

Lemma valueOf_ext (p q : ActualTransaction.t -> bool) actual_txs :
  (forall tx, In tx actual_txs -> p tx = q tx) ->
  valueOf p actual_txs = valueOf q actual_txs.
Proof.
  induction actual_txs as [|tx rest IH]; intros Hpq; simpl; [reflexivity|].
  rewrite (Hpq tx) by now left. rewrite IH; [reflexivity|].
  intros tx' Hin. apply Hpq. now right.
Qed.

Lemma valueOf_split (p : ActualTransaction.t -> bool) actual_txs :
  valueOf p actual_txs + valueOf (fun tx => negb (p tx)) actual_txs
    = valueOf (fun _ => true) actual_txs.
Proof.
  induction actual_txs as [|tx rest IH]; simpl; [reflexivity|].
  destruct (p tx); simpl; lia.
Qed.

Lemma calcUnmatchedTransactionsSum_fold matched actual_txs (sum : Z) :
  Int64.wrap64 sum = sum ->
  fold_left
    (fun sum tx =>
       match matched !! ActualTransaction.Label tx with
       | Some _ => sum
       | None => Int64.add sum (ActualTransaction.Value tx)
       end)
    actual_txs sum
  = Int64.wrap64
      (sum + valueOf (fun tx => negb (bool_decide
                                        (is_Some (matched !! ActualTransaction.Label tx))))
                     actual_txs).
Proof.
  revert sum. induction actual_txs as [|tx rest IH]; intros sum Hsum; simpl.
  - rewrite Z.add_0_r. symmetry. exact Hsum.
  - destruct (matched !! ActualTransaction.Label tx) as [x|]; simpl.
    + rewrite IH by exact Hsum. reflexivity.
    + rewrite IH by apply wrap64_idem. unfold Int64.add.
      rewrite wrap64_add_l. f_equal. lia.
Qed.

Lemma sumActuals_fold actual_txs (sum : Z) :
  Int64.wrap64 sum = sum ->
  fold_left (fun sum tx => Int64.add sum (ActualTransaction.Value tx)) actual_txs sum
  = Int64.wrap64 (sum + valueOf (fun _ => true) actual_txs).
Proof.
  revert sum. induction actual_txs as [|tx rest IH]; intros sum Hsum; simpl.
  - rewrite Z.add_0_r. symmetry. exact Hsum.
  - rewrite IH by apply wrap64_idem. unfold Int64.add.
    rewrite wrap64_add_l. f_equal. lia.
Qed.

Lemma labelRegulars_returns (regular_txs : list RegularTransaction.t) labeled :
  Forall (fun r => RegularTransaction.Label r <> "") regular_txs ->
  exists labeled', Wallet.labelRegulars regular_txs labeled = Ret labeled'.
Proof.
  intros Hlabels. revert labeled.
  induction Hlabels as [|r rest Hr _ IH]; intros labeled; simpl; [eauto|].
  destruct (String.eqb_spec (RegularTransaction.Label r) ""); [contradiction|]. apply IH.
Qed.

(** C10. When every planned transaction carries a label, the matcher returns
    a matched set, and the values of that set plus the unmatched sum over
    the same realized transactions make up the sum of all realized values
    (in Go's arithmetic): each realized transaction is counted once. The
    empty label is never a key of the matched set, so a realized transaction
    without a label is always part of the unmatched sum. *)
Theorem realized_value_conserved {S : Type} (w : Wallet.t S)
    (regular_txs : list RegularTransaction.t) actual_txs :
  Forall (fun r => RegularTransaction.Label r <> "") regular_txs ->
  exists matched,
    Wallet.accumulateMatchedTransactions regular_txs actual_txs = Ret matched
    /\ matched !! "" = None
    /\ Int64.add (sumMatched matched)
                 (Wallet.calcUnmatchedTransactionsSum w actual_txs matched)
       = sumActuals actual_txs.
Proof.
  intros Hlabels. unfold Wallet.accumulateMatchedTransactions.
  destruct (labelRegulars_returns regular_txs ∅ Hlabels) as [labeled ->]. simpl.
  eexists. split; [reflexivity|]. split.
  - apply eq_None_not_Some. rewrite accumulateActuals_keys, lookup_empty.
    intros [[? H] | (tx & _ & Hl & Hm)]; [discriminate|].
    apply isMatched_true in Hm. tauto.
  - unfold Wallet.calcUnmatchedTransactionsSum, sumActuals.
    rewrite calcUnmatchedTransactionsSum_fold, sumActuals_fold by reflexivity.
    rewrite accumulateActuals_sum. unfold sumMatched at 1. rewrite map_fold_empty.
    rewrite !Z.add_0_l. unfold Int64.add. rewrite wrap64_add_l, wrap64_add_r. f_equal.
    rewrite <- (valueOf_split (isMatched labeled)). f_equal.
    apply valueOf_ext. intros tx Hin. f_equal.
    pose proof (accumulateActuals_lookup labeled actual_txs tx Hin) as Hkey.
    destruct (isMatched labeled tx).
    + apply bool_decide_eq_true_2, Hkey. reflexivity.
    + apply bool_decide_eq_false_2. intros Hsome. apply Hkey in Hsome. discriminate.
Qed.

End Conservation.

Lemma realized_value_conserved_witness :
  exists matched,
    Wallet.accumulateMatchedTransactions [Sample.rentPlan] [Sample.rentPaid; Sample.coffee]
      = Ret matched
    /\ matched !! "" = None
    /\ Int64.add (sumMatched matched)
         (Wallet.calcUnmatchedTransactionsSum (Sample.wallet 1)
            [Sample.rentPaid; Sample.coffee] matched)
       = sumActuals [Sample.rentPaid; Sample.coffee].
Proof.
  apply (realized_value_conserved (Sample.wallet 1) [Sample.rentPlan]
           [Sample.rentPaid; Sample.coffee]).
  constructor; [simpl; discriminate | constructor].
Defined.

(** ** The calendar of [time.Time] *)

Section Calendar.

Variable Local : Time.Location.

Lemma civil_from_days_range (z : Z) :
  1 <= snd (fst (Time.civil_from_days z)) <= 12
  /\ 1 <= snd (Time.civil_from_days z) <= 31.
Proof.
  unfold Time.civil_from_days.
  set (doe := z + 719468 - (z + 719468) / 146097 * 146097).
  assert (Hdoe : 0 <= doe < 146097) by (unfold doe; div_lia).
  clearbody doe. cbv zeta. cbn [fst snd].
  set (yoe := (doe - doe / 1460 + doe / 36524 - doe / 146096) / 365).
  set (doy := doe - (365 * yoe + yoe / 4 - yoe / 100)).
  assert (Hdoy : 0 <= doy <= 365) by (unfold doy, yoe; div_lia).
  clearbody doy. clear yoe Hdoe.
  set (mp := (5 * doy + 2) / 153).
  assert (Hmp : 0 <= mp <= 11) by (unfold mp; div_lia).
  assert (Hd : 1 <= doy - (153 * mp + 2) / 5 + 1 <= 31) by (unfold mp; div_lia).
  split; [|exact Hd].
  destruct (Z.ltb_spec mp 10); lia.
Qed.

Lemma Month_range (x : Time.t) : 1 <= Time.Month x <= 12.
Proof. apply civil_from_days_range. Qed.

Lemma Day_range (x : Time.t) : 1 <= Time.Day x <= 31.
Proof. apply civil_from_days_range. Qed.

(** A day of the month up to 28 exists in every month: the day number of a
    civil date leads back to that date. *)
Lemma civil_from_days_from_civil (y m d : Z) :
  1 <= m <= 12 -> 1 <= d <= 28 ->
  Time.civil_from_days (Time.days_from_civil y m d) = (y, m, d).
Proof.
  intros Hm Hd. unfold Time.days_from_civil.
  set (y0 := if m <=? 2 then y - 1 else y).
  set (mp := if 2 <? m then m - 3 else m + 9).
  assert (Hmp : 0 <= mp <= 11) by (unfold mp; destruct (Z.ltb_spec 2 m); lia).
  assert (Hm' : (if mp <? 10 then mp + 3 else mp - 9) = m).
  { unfold mp. destruct (Z.ltb_spec 2 m) as [H|H];
      [destruct (Z.ltb_spec (m - 3) 10) | destruct (Z.ltb_spec (m + 9) 10)]; lia. }
  assert (Hy : (if m <=? 2 then y0 + 1 else y0) = y)
    by (unfold y0; destruct (Z.leb_spec m 2); lia).
  clearbody mp y0. cbv zeta.
  set (era := y0 / 400). set (yoe := y0 - era * 400).
  assert (Hyoe : 0 <= yoe <= 399) by (unfold yoe, era; div_lia).
  assert (Hera : y0 = yoe + era * 400) by (unfold yoe; lia).
  clearbody yoe era.
  set (doy := (153 * mp + 2) / 5 + d - 1).
  assert (Hdoy : 0 <= doy <= 364) by (unfold doy; div_lia).
  assert (Hmp' : (5 * doy + 2) / 153 = mp) by (unfold doy; div_lia).
  assert (Hd' : doy - (153 * mp + 2) / 5 + 1 = d) by (unfold doy; lia).
  clearbody doy.
  set (doe := yoe * 365 + yoe / 4 - yoe / 100 + doy).
  assert (Hdoe : 0 <= doe < 146097) by (unfold doe; div_lia).
  assert (Hyoe' : (doe - doe / 1460 + doe / 36524 - doe / 146096) / 365 = yoe)
    by (unfold doe; div_lia).
  assert (Hdoy' : doe - (365 * yoe + yoe / 4 - yoe / 100) = doy) by (unfold doe; lia).
  clearbody doe.
  unfold Time.civil_from_days.
  replace (era * 146097 + doe - 719468 + 719468) with (doe + era * 146097) by lia.
  rewrite Z.div_add, (Z.div_small doe), Z.add_0_l by lia.
  replace (doe + era * 146097 - era * 146097) with doe by lia.
  cbv zeta. rewrite Hyoe', Hdoy', Hmp', Hd', Hm'.
  rewrite <- Hera, Hy. reflexivity.
Qed.

Lemma Date_loc (year month day hour min sec nsec : Z) (l : Time.Location) :
  Time.loc (Time.Date year month day hour min sec nsec l) = l.
Proof. unfold Time.Date. destruct (Time.lookup l _) as [[offset start] end_]. reflexivity. Qed.

(** In a location of one offset the wall clock is moved by that offset. *)
Lemma Date_fixedOffset (year month day hour min sec nsec offset : Z) (l : Time.Location) :
  fixedOffset l offset ->
  Time.Date year month day hour min sec nsec l
  = Time.mk (Time.days_from_civil (year + (month - 1) / 12) ((month - 1) mod 12 + 1) day
               * Time.secondsPerDay
             + hour * 3600 + min * 60 + sec + nsec / 1000000000 - offset)
            (nsec mod 1000000000) l.
Proof.
  intros Hfixed. unfold Time.Date.
  set (unix := Time.days_from_civil (year + (month - 1) / 12) ((month - 1) mod 12 + 1) day
               * Time.secondsPerDay + hour * 3600 + min * 60 + sec + nsec / 1000000000).
  pose proof (Hfixed unix) as Hhere. pose proof (Hfixed (unix - offset)) as Hthere.
  unfold Time.offsetAt in Hhere.
  destruct (Time.lookup l unix) as [[offset' start] end_]. cbn [fst] in Hhere.
  subst offset'. destruct (Z.eqb_spec offset 0) as [->|Hne].
  - rewrite Z.sub_0_r. reflexivity.
  - rewrite Hthere. destruct ((unix - offset <? start) || (end_ <=? unix - offset));
      reflexivity.
Qed.

(** The calendar fields of [Date(year, month, day, 0, 0, 0, 0, loc)] for a
    day up to 28, in a location of one offset: the month is brought into
    1..12, carrying into the year. *)
Lemma Date_midnight (year month day offset : Z) (l : Time.Location) :
  fixedOffset l offset ->
  1 <= day <= 28 ->
  isMidnightOf (Time.Date year month day 0 0 0 0 l)
               (year + (month - 1) / 12) ((month - 1) mod 12 + 1) day.
Proof.
  intros Hfixed Hday. rewrite (Date_fixedOffset _ _ _ _ _ _ _ offset l Hfixed).
  unfold isMidnightOf.
  set (y' := year + (month - 1) / 12). set (m' := (month - 1) mod 12 + 1).
  assert (Hm' : 1 <= m' <= 12) by (unfold m'; div_lia).
  pose proof (civil_from_days_from_civil y' m' day Hm' Hday) as Hcivil.
  clearbody y' m'.
  unfold Time.Year, Time.Month, Time.Day, Time.civil, Time.Hour, Time.Minute, Time.Second,
    Time.abs.
  cbn [Time.sec Time.nsec Time.loc]. rewrite Hfixed. unfold Time.secondsPerDay.
  replace (Time.days_from_civil y' m' day * 86400 + 0 * 3600 + 0 * 60 + 0
           + 0 / 1000000000 - offset + offset)
    with (Time.days_from_civil y' m' day * 86400)
    by (change (0 / 1000000000) with 0; lia).
  rewrite Z.div_mul by lia. rewrite Hcivil. cbn [fst snd].
  repeat split; try reflexivity.
  - rewrite Z.mod_mul by lia. reflexivity.
  - div_lia.
  - div_lia.
Qed.





End Calendar.


(** ** The window of the realized-transaction query *)

Section QueryWindow.

Variable client : RedisStorage.Client.
Variable Local : Time.Location.

Lemma uniqueStringSliceFrom_elem (s result : list string) (seen : gmap string bool)
    (k : string) :
  (forall k', is_Some (seen !! k') <-> In k' result) ->
  In k (RedisStorage.uniqueStringSliceFrom s result seen) <-> In k result \/ In k s.
Proof.
  revert result seen. induction s as [|elem rest IH]; intros result seen Hseen; simpl.
  - tauto.
  - destruct (seen !! elem) as [b|] eqn:Hlookup.
    + rewrite (IH result seen Hseen).
      assert (In elem result) by (apply Hseen; eauto).
      split; [tauto | intros [?|[<-|?]]; tauto].
    + rewrite IH.
      * rewrite in_app_iff. simpl. tauto.
      * intros k'. rewrite lookup_insert, in_app_iff. simpl.
        case_decide as Heq; [subst; split; eauto|].
        rewrite Hseen. split; [tauto | intros [?|[?|[]]]; [assumption | contradiction]].
Qed.

Lemma uniqueStringSlice_elem (s : list string) (k : string) :
  In k (RedisStorage.uniqueStringSlice s) <-> In k s.
Proof.
  unfold RedisStorage.uniqueStringSlice. rewrite uniqueStringSliceFrom_elem.
  - simpl. tauto.
  - intros k'. rewrite lookup_empty. simpl. split; [intros [? ?]; discriminate | tauto].
Qed.

(** A scan that has completed completes to the same keys with more fuel. *)
Lemma getAllKeysFrom_more_fuel (fuel fuel' : nat) (matchPattern : string) (cursor : Z)
    (result : list string) (r : list string * error) :
  (fuel <= fuel')%nat ->
  RedisStorage.getAllKeysFrom client fuel matchPattern cursor result = Some r ->
  RedisStorage.getAllKeysFrom client fuel' matchPattern cursor result = Some r.
Proof.
  revert fuel' cursor result. induction fuel as [|fuel IH]; intros fuel' cursor result Hle;
    simpl; [discriminate|].
  destruct fuel' as [|fuel']; [lia|]. simpl.
  destruct (RedisStorage.Scan client cursor matchPattern 10) as [[keys newcursor] [e|]];
    [tauto|].
  destruct (newcursor =? 0); [tauto|]. apply IH. lia.
Qed.

(** Over keys that hold readable records the loop appends, in order, the
    record of every key whose instant passes the window test. *)
Lemma collectTransactions_filter (t1 t2 : Time.t) (allKeys : list string)
    (result : list ActualTransaction.t) :
  (forall k, In k allKeys -> is_Some (storedTransaction client Local k)) ->
  RedisStorage.collectTransactions client Local t1 t2 allKeys result
    = Ret (result ++ List.filter (strictlyInside t1 t2)
                       (omap (storedTransaction client Local) allKeys), None).
Proof.
  revert result. induction allKeys as [|k rest IH]; intros result Hstored; simpl.
  - rewrite app_nil_r. reflexivity.
  - assert (Hrest : forall k', In k' rest -> is_Some (storedTransaction client Local k'))
      by (intros k' Hin; apply Hstored; now right).
    destruct (Hstored k (or_introl eq_refl)) as [tx Htx].
    rewrite Htx. unfold storedTransaction in Htx.
    destruct (Strings.Split k ":" !! 3%nat) as [part|]; [|discriminate].
    destruct (Strings.ParseInt part) as [tUnix perr]. cbn [fst] in Htx.
    destruct (RedisStorage.HGetAll client k) as [fields [herr|]]; [discriminate|].
    destruct (Strings.Atoi (default "" (fields !! "value"))) as [value [aerr|]];
      [discriminate|].
    injection Htx as <-. simpl. unfold strictlyInside at 1. cbn [ActualTransaction.Time
      ActualTransaction.New].
    destruct (Time.After (Time.Unix Local tUnix 0) t1 && Time.Before (Time.Unix Local tUnix 0) t2).
    + rewrite IH by exact Hrest. rewrite <- app_assoc. reflexivity.
    + apply IH. exact Hrest.
Qed.

Lemma uniqueStringSliceFrom_NoDup (s result : list string) (seen : gmap string bool) :
  (forall k', is_Some (seen !! k') <-> In k' result) ->
  NoDup result ->
  NoDup (RedisStorage.uniqueStringSliceFrom s result seen).
Proof.
  revert result seen. induction s as [|elem rest IH]; intros result seen Hseen Hnodup; simpl.
  - exact Hnodup.
  - destruct (seen !! elem) as [b|] eqn:Hlookup.
    + apply IH; assumption.
    + apply IH.
      * intros k'. rewrite lookup_insert, in_app_iff. simpl.
        case_decide as Heq; [subst; split; eauto|].
        rewrite Hseen. split; [tauto | intros [?|[?|[]]]; [assumption | contradiction]].
      * apply NoDup_app. split; [exact Hnodup|]. split; [|apply NoDup_singleton].
        intros k Hk Hin. apply list_elem_of_singleton in Hin as ->.
        apply list_elem_of_In, Hseen in Hk. destruct Hk as [? Hk]. congruence.
Qed.

(** Every key found is kept once. *)
Lemma uniqueStringSlice_NoDup (s : list string) : NoDup (RedisStorage.uniqueStringSlice s).
Proof.
  apply uniqueStringSliceFrom_NoDup; [|apply NoDup_nil_2].
  intros k'. rewrite lookup_empty. simpl. split; [intros [? ?]; discriminate | tauto].
Qed.

(** C7, as the code has it. When the query window is not reversed, both
    scans complete and every key found holds a readable record, the query
    returns, once for each key found, exactly the records whose instant lies
    strictly inside the window: strictly after [t1] and strictly before
    [t2]. A record whose instant equals [t1] or [t2] is left out. *)
Theorem GetActualTransactions_open_window (fuel : nat) (w : WalletId) (t1 t2 : Time.t)
    (keysIn keysOut : list string) :
  Time.Before t2 t1 = false ->
  RedisStorage.getAllKeys client fuel ("wallet:" +:+ w +:+ ":in:*") = Some (keysIn, None) ->
  RedisStorage.getAllKeys client fuel ("wallet:" +:+ w +:+ ":out:*") = Some (keysOut, None) ->
  (forall k, In k (keysIn ++ keysOut) -> is_Some (storedTransaction client Local k)) ->
  exists txs,
    RedisStorage.GetActualTransactions client Local fuel w t1 t2 = Some (Ret (txs, None))
    /\ txs = List.filter (strictlyInside t1 t2)
               (omap (storedTransaction client Local)
                     (RedisStorage.uniqueStringSlice (keysIn ++ keysOut)))
    /\ forall tx,
         In tx txs <->
         exists k, In k (keysIn ++ keysOut)
                   /\ storedTransaction client Local k = Some tx
                   /\ Time.After (ActualTransaction.Time tx) t1 = true
                   /\ Time.Before (ActualTransaction.Time tx) t2 = true.
Proof.
  intros Horder Hin Hout Hstored. unfold RedisStorage.GetActualTransactions.
  rewrite Horder, Hin, Hout.
  rewrite collectTransactions_filter
    by (intros k Hk; apply Hstored, uniqueStringSlice_elem, Hk).
  eexists. split; [reflexivity|]. split; [reflexivity|]. intros tx. simpl.
  rewrite filter_In. unfold strictlyInside. rewrite andb_true_iff.
  rewrite <- list_elem_of_In, list_elem_of_omap. split.
  - intros [(k & Hk & Htx) Hwindow]. exists k.
    rewrite list_elem_of_In, uniqueStringSlice_elem in Hk. tauto.
  - intros (k & Hk & Htx & Hwindow). split; [|exact Hwindow].
    exists k. split; [|exact Htx]. rewrite list_elem_of_In, uniqueStringSlice_elem.
    exact Hk.
Qed.

End QueryWindow.

Lemma GetActualTransactions_open_window_witness :
  exists txs,
    RedisStorage.GetActualTransactions oneExpenseClient Time.UTC 1 "w1"
        (Time.Unix Time.UTC 0 0) (Time.Unix Time.UTC 90000 0)
      = Some (Ret (txs, None))
    /\ txs = List.filter (strictlyInside (Time.Unix Time.UTC 0 0) (Time.Unix Time.UTC 90000 0))
               (omap (storedTransaction oneExpenseClient Time.UTC)
                     (RedisStorage.uniqueStringSlice ([] ++ ["wallet:w1:out:86400"])))
    /\ forall tx,
         In tx txs <->
         exists k, In k ([] ++ ["wallet:w1:out:86400"])
                   /\ storedTransaction oneExpenseClient Time.UTC k = Some tx
                   /\ Time.After (ActualTransaction.Time tx) (Time.Unix Time.UTC 0 0) = true
                   /\ Time.Before (ActualTransaction.Time tx) (Time.Unix Time.UTC 90000 0) = true.
Proof.
  apply (GetActualTransactions_open_window oneExpenseClient Time.UTC 1 "w1"
           (Time.Unix Time.UTC 0 0) (Time.Unix Time.UTC 90000 0) [] ["wallet:w1:out:86400"]).
  - vm_compute. reflexivity.
  - vm_compute. reflexivity.
  - vm_compute. reflexivity.
  - intros k [<- | []]. vm_compute. eauto.
Defined.

(** C7 as stated fails: the expense stored at the very instant the window
    opens is not returned. *)
Lemma GetActualTransactions_excludes_window_start :
  Time.Before (Time.Unix Time.UTC 90000 0) (Time.Unix Time.UTC 86400 0) = false
  /\ RedisStorage.getAllKeys oneExpenseClient 1 "wallet:w1:out:*"
     = Some (["wallet:w1:out:86400"], None)
  /\ storedTransaction oneExpenseClient Time.UTC "wallet:w1:out:86400"
     = Some (ActualTransaction.mk (-5) (Time.Unix Time.UTC 86400 0) "food" "")
  /\ RedisStorage.GetActualTransactions oneExpenseClient Time.UTC 1 "w1"
       (Time.Unix Time.UTC 86400 0) (Time.Unix Time.UTC 90000 0)
     = Some (Ret ([], None)).
Proof. repeat split; vm_compute; reflexivity. Qed.

(** ** The balance of the rent scenario *)

Section RentScenario.

Context {S : Type}.

Variable Local : Time.Location.

Variable sto : Storage.t S.
Variable id : WalletId.

(** The planned rent, recurring on the day [date], and the realized rent
    paid at the instant [paidAt]. *)
Let planned (date : Z) : RegularTransaction.t := RegularTransaction.mk (-800) date "rent".
Let realized (paidAt : Time.t) (raw : string) : ActualTransaction.t :=
  ActualTransaction.mk (-800) paidAt "rent" raw.

Lemma rent_prorated (now : Time.t) :
  Time.Day now = 15 -> daysIn (Time.Month now) = 31 ->
  F32.to_int (Wallet.prorate 1 (-800) now) = Z.quot (-800 * 15) 31.
Proof.
  intros Hday Hdays. unfold Wallet.prorate. rewrite Hday, Hdays.
  vm_compute. reflexivity.
Qed.

(** C1. The wallet starts its month on day 1 and holds the planned rent of
    -800 and one realized rent of -800; the reference instant lies on day 15
    of a month of 31 days. Whether or not the payment falls inside the
    queried window (the store returns it or returns nothing), the total of
    the month is -800, 15 days have passed, the prorated share is -800 * 15 /
    31 truncated toward zero, that is -387, nothing is unmatched, and the
    balance is -387. *)
Theorem GetBalance_rent_scenario (now paidAt : Time.t) (date : Z) (raw : string)
    (st st1 st2 : S) (actual_txs : list ActualTransaction.t) :
  Time.Day now = 15 ->
  daysIn (Time.Month now) = 31 ->
  Storage.GetRegularTransactions sto id st = (Ret ([planned date], None), st1) ->
  Storage.GetActualTransactions sto id
      (Time.Date (Time.Year now) (Time.Month now) 1 0 0 0 0 Local) now st1
    = (Ret (actual_txs, None), st2) ->
  actual_txs = [realized paidAt raw] \/ actual_txs = [] ->
  exists matched,
    Wallet.accumulateMatchedTransactions [planned date] actual_txs = Ret matched
    /\ Wallet.totalMonthlyIncomeFrom matched 0 [planned date] = Ret (-800)
    /\ Int64.add (Int64.sub (Time.Day now) 1) 1 = 15
    /\ F32.to_int (Wallet.prorate 1 (-800) now) = Z.quot (-800 * 15) 31
    /\ Z.quot (-800 * 15) 31 = -387
    /\ Wallet.calcUnmatchedTransactionsSum (Wallet.mk id 1 sto) actual_txs matched = 0
    /\ Wallet.GetBalance Local (Wallet.mk id 1 sto) now st = (Ret (-387, None), st2).
Proof.
  intros Hday Hdays Hregular Hactual Hstored.
  assert (Hmatched : exists matched,
            Wallet.accumulateMatchedTransactions [planned date] actual_txs = Ret matched
            /\ Wallet.totalMonthlyIncomeFrom matched 0 [planned date] = Ret (-800)
            /\ Wallet.calcUnmatchedTransactionsSum (Wallet.mk id 1 sto) actual_txs matched
               = 0).
  { destruct Hstored as [-> | ->].
    - exists {[ "rent" := -800 ]}. repeat split; reflexivity.
    - exists ∅. repeat split; reflexivity. }
  destruct Hmatched as (matched & Hacc & Htotal & Hunmatched).
  exists matched.
  split; [exact Hacc|]. split; [exact Htotal|].
  split; [rewrite Hday; reflexivity|].
  split; [apply (rent_prorated now Hday Hdays)|].
  split; [reflexivity|]. split; [exact Hunmatched|].
  unfold Wallet.GetBalance, Wallet.getRegularTransactions,
    Wallet.getActualTransactionsForCurrentMonthTillDate, bind, ret, lift.
  cbn [Wallet.ID Wallet.storage Wallet.MonthStart]. rewrite Hregular.
  unfold Wallet.calcCurMonthBorders. rewrite Hday.
  change ((1 <? 1) || (28 <? 1)) with false. change (15 <? 1) with false. cbv iota.
  cbv beta. rewrite Hactual, Hacc.
  unfold Wallet.calcMonthlyIncomeTillDate. cbn [Wallet.MonthStart].
  rewrite Htotal. cbn [outcome_bind]. rewrite (rent_prorated now Hday Hdays), Hunmatched.
  reflexivity.
Qed.

End RentScenario.

Lemma GetBalance_rent_scenario_witness :
  Time.Day Sample.noon15 = 15
  /\ daysIn (Time.Month Sample.noon15) = 31
  /\ Wallet.GetBalance Time.UTC (Sample.wallet 1) Sample.noon15 Sample.rentStore
     = (Ret (-387, None), Sample.rentStore).
Proof.
  split; [vm_compute; reflexivity|]. split; [vm_compute; reflexivity|].
  destruct (GetBalance_rent_scenario Time.UTC MemStorage.store "w1" Sample.noon15
              (Time.Date 2024 3 15 9 0 0 0 Time.UTC) 1 "rent for march"
              Sample.rentStore Sample.rentStore Sample.rentStore [Sample.rentPaid])
    as (matched & _ & _ & _ & _ & _ & _ & Hbalance).
  - vm_compute. reflexivity.
  - vm_compute. reflexivity.
  - reflexivity.
  - vm_compute. reflexivity.
  - left. reflexivity.
  - exact Hbalance.
Defined.

(** ** Rounding in [SpecFloat]: bounds on mantissa and exponent *)

Section FloatBounds.

Lemma digits2_pos_bounds (p : positive) :
  2 ^ (Z.pos (digits2_pos p) - 1) <= Z.pos p < 2 ^ Z.pos (digits2_pos p).
Proof.
  induction p as [p IH|p IH|]; simpl digits2_pos.
  - rewrite Pos2Z.inj_succ. replace (Z.succ (Z.pos (digits2_pos p)) - 1)
      with (Z.succ (Z.pos (digits2_pos p) - 1)) by lia.
    rewrite !Z.pow_succ_r by lia. lia.
  - rewrite Pos2Z.inj_succ. replace (Z.succ (Z.pos (digits2_pos p)) - 1)
      with (Z.succ (Z.pos (digits2_pos p) - 1)) by lia.
    rewrite !Z.pow_succ_r by lia. lia.
  - simpl. lia.
Qed.

Lemma Zdigits2_nonneg (m : Z) : 0 <= Zdigits2 m.
Proof. destruct m; simpl; lia. Qed.

Lemma Zdigits2_upper (m : Z) : 0 <= m -> m < 2 ^ Zdigits2 m.
Proof.
  destruct m as [|p|p]; simpl; intros H; [lia | apply digits2_pos_bounds | lia].
Qed.

Lemma Zdigits2_lower (m : Z) : 0 < m -> 2 ^ (Zdigits2 m - 1) <= m.
Proof.
  destruct m as [|p|p]; simpl; intros H; [lia | apply digits2_pos_bounds | lia].
Qed.

(** A bound on a number bounds its number of digits. *)
Lemma Zdigits2_le (m k : Z) : 0 <= m < 2 ^ k -> 0 <= k -> Zdigits2 m <= k.
Proof.
  intros [Hm Hlt] Hk. destruct m as [|p|p]; simpl; [lia | | lia].
  pose proof (digits2_pos_bounds p) as [Hlow _].
  destruct (Z.le_gt_cases (Z.pos (digits2_pos p)) k) as [|Hgt]; [assumption|].
  assert (2 ^ k <= 2 ^ (Z.pos (digits2_pos p) - 1)) by (apply Z.pow_le_mono_r; lia). lia.
Qed.

Lemma shr_1_m (mrs : shr_record) :
  0 <= shr_m mrs -> shr_m (shr_1 mrs) = shr_m mrs / 2.
Proof.
  destruct mrs as [m r s]. simpl. intros Hm.
  destruct m as [|[p|p|]|p]; simpl; try reflexivity; try lia.
  - rewrite Pos2Z.inj_xI. div_lia.
  - rewrite Pos2Z.inj_xO. div_lia.
Qed.

Lemma iter_pos_shr_1_m (n : positive) (mrs : shr_record) :
  0 <= shr_m mrs -> shr_m (SpecFloat.iter_pos shr_1 n mrs) = shr_m mrs / 2 ^ Z.pos n.
Proof.
  revert mrs. induction n as [n IH|n IH|]; intros mrs Hm; simpl SpecFloat.iter_pos.
  - assert (H1 : 0 <= shr_m (shr_1 mrs)) by (rewrite shr_1_m by lia; div_lia).
    assert (H2 : 0 <= shr_m (SpecFloat.iter_pos shr_1 n (shr_1 mrs)))
      by (rewrite IH by lia; apply Z.div_pos; lia).
    rewrite IH, IH, shr_1_m by assumption.
    rewrite !Z.div_div by lia. f_equal.
    replace (Z.pos n~1) with (1 + Z.pos n + Z.pos n) by lia.
    rewrite !Z.pow_add_r by lia. change (2 ^ 1) with 2. ring.
  - assert (H2 : 0 <= shr_m (SpecFloat.iter_pos shr_1 n mrs))
      by (rewrite IH by lia; apply Z.div_pos; lia).
    rewrite IH, IH by assumption.
    rewrite !Z.div_div by lia. f_equal.
    replace (Z.pos n~0) with (Z.pos n + Z.pos n) by lia.
    rewrite !Z.pow_add_r by lia. reflexivity.
  - rewrite shr_1_m by assumption. reflexivity.
Qed.

(** A right shift by [n] of a number below [2^d]. *)
Lemma shifted_below (m d n p : Z) :
  0 <= m < 2 ^ d -> 0 <= n -> 0 <= p -> d - n <= p -> 0 <= m / 2 ^ n < 2 ^ p.
Proof.
  intros [Hm Hlt] Hn Hp Hd.
  assert (0 < 2 ^ n) by (apply Z.pow_pos_nonneg; lia).
  split; [apply Z.div_pos; lia|].
  apply Z.div_lt_upper_bound; [lia|].
  rewrite <- Z.pow_add_r by lia.
  destruct (Z.le_gt_cases 0 d).
  - assert (2 ^ d <= 2 ^ (n + p)) by (apply Z.pow_le_mono_r; lia). lia.
  - rewrite Z.pow_neg_r in Hlt by lia. lia.
Qed.

Variables prec emax : Z.

(** [shr_fexp] on a number that is not negative: what is left of the
    mantissa has at most [prec] digits unless the exponent is pinned. *)
Lemma shr_fexp_bounds (m e : Z) (l : location) :
  0 <= m -> 0 < prec ->
  0 <= shr_m (fst (shr_fexp prec emax m e l))
  /\ snd (shr_fexp prec emax m e l) = Z.max e (fexp prec emax (Zdigits2 m + e))
  /\ shr_m (fst (shr_fexp prec emax m e l))
     < 2 ^ Z.max (Zdigits2 m + e - snd (shr_fexp prec emax m e l)) 0.
Proof.
  intros Hm Hprec. unfold shr_fexp, shr.
  pose proof (Zdigits2_upper m Hm) as Hup. pose proof (Zdigits2_nonneg m) as Hd.
  set (f := fexp prec emax (Zdigits2 m + e)) in *.
  assert (Hshape : shr_m (shr_record_of_loc m l) = m) by (destruct l as [|[]]; reflexivity).
  destruct (f - e) as [|n|n] eqn:Hn; cbn [fst snd].
  - rewrite Hshape. replace (Z.max e f) with e by lia.
    replace (Zdigits2 m + e - e) with (Zdigits2 m) by lia.
    rewrite Z.max_l by lia. lia.
  - rewrite iter_pos_shr_1_m by (rewrite Hshape; lia). rewrite Hshape.
    replace (Z.max e f) with (e + Z.pos n) by lia.
    pose proof (shifted_below m (Zdigits2 m) (Z.pos n)
                  (Z.max (Zdigits2 m + e - (e + Z.pos n)) 0)) as Hs.
    lia.
  - rewrite Hshape. replace (Z.max e f) with e by lia.
    replace (Zdigits2 m + e - e) with (Zdigits2 m) by lia.
    rewrite Z.max_l by lia. lia.
Qed.

Lemma round_nearest_even_bounds (m : Z) (l : location) :
  m <= round_nearest_even m l <= m + 1.
Proof. destruct l as [|[]]; simpl; try lia. destruct (Z.even m); lia. Qed.

Lemma pow2_le_mono (a b : Z) : a <= b -> 0 <= b -> 2 ^ a <= 2 ^ b.
Proof.
  intros Hab Hb. destruct (Z.le_gt_cases 0 a).
  - apply Z.pow_le_mono_r; lia.
  - rewrite Z.pow_neg_r by lia. apply Z.pow_nonneg. lia.
Qed.

(** Rounding a number that is not negative gives a zero or a finite number
    of the same sign, unless the exponent it ends with exceeds the format;
    the hypothesis bounds that exponent from the exponent and the number of
    digits of the input. *)
Lemma binary_round_aux_finite (sx : bool) (mx ex : Z) (lx : location) :
  0 <= mx -> 0 < prec ->
  let e1 := Z.max ex (fexp prec emax (Zdigits2 mx + ex)) in
  let e2 := Z.max e1 (fexp prec emax (prec + 1 + e1)) in
  e2 <= emax - prec ->
  binary_round_aux prec emax sx mx ex lx = S754_zero sx
  \/ exists m e, binary_round_aux prec emax sx mx ex lx = S754_finite sx m e
                 /\ Z.pos m < 2 ^ prec /\ e <= e2.
Proof.
  intros Hmx Hprec e1 e2 He2. unfold binary_round_aux.
  pose proof (shr_fexp_bounds mx ex lx Hmx Hprec) as (Hm1 & He1 & Hlt1).
  destruct (shr_fexp prec emax mx ex lx) as [mrs1 e1']. cbn [fst snd] in *.
  fold e1 in He1. subst e1'.
  set (m1 := shr_m mrs1) in *.
  assert (Hm1' : m1 < 2 ^ prec).
  { eapply Z.lt_le_trans; [exact Hlt1|]. apply pow2_le_mono; [|lia].
    unfold e1, fexp. lia. }
  pose proof (round_nearest_even_bounds m1 (loc_of_shr_record mrs1)) as Hround.
  set (m1r := round_nearest_even m1 (loc_of_shr_record mrs1)) in *.
  assert (Hd : Zdigits2 m1r <= prec + 1).
  { apply Zdigits2_le; [|lia]. rewrite Z.pow_add_r, Z.pow_1_r by lia. lia. }
  assert (Hm1r : 0 <= m1r) by lia.
  pose proof (shr_fexp_bounds m1r e1 loc_Exact Hm1r Hprec) as (Hm2 & He2' & Hlt2).
  destruct (shr_fexp prec emax m1r e1 loc_Exact) as [mrs2 e2']. cbn [fst snd] in *.
  set (m2 := shr_m mrs2) in *.
  assert (He2le : e2' <= e2) by (rewrite He2'; unfold e2, fexp; lia).
  assert (Hm2' : m2 < 2 ^ prec).
  { eapply Z.lt_le_trans; [exact Hlt2|]. apply pow2_le_mono; [|lia].
    rewrite He2'. unfold fexp. lia. }
  destruct m2 as [|p|p] eqn:Hp; [now left | | lia].
  right. exists p, e2'.
  assert ((e2' <=? emax - prec) = true) as -> by (apply Z.leb_le; lia).
  auto.
Qed.

End FloatBounds.

Section Float32.

Lemma iter_xO_pow2 (m d : positive) : Z.pos (Pos.iter xO m d) = Z.pos m * 2 ^ Z.pos d.
Proof.
  induction d as [|d IH] using Pos.peano_ind.
  - simpl. lia.
  - rewrite Pos.iter_succ, Pos2Z.inj_xO, IH, Pos2Z.inj_succ, Z.pow_succ_r by lia. ring.
Qed.

(** [float32(i)] of a 64-bit integer is a zero or a finite number with the
    sign of [i], a mantissa below [2^24] and an exponent of at most 41. *)
Lemma F32_of_int_shape (i : Z) :
  - 2 ^ 64 < i < 2 ^ 64 ->
  (exists s, F32.of_int i = S754_zero s)
  \/ exists m e, F32.of_int i = S754_finite (i <? 0) m e
                 /\ Z.pos m < 2 ^ 24 /\ e <= 41.
Proof.
  intros Hi. unfold F32.of_int, binary_normalize.
  assert (Hround : forall (s : bool) (p : positive), Z.pos p < 2 ^ 64 ->
            binary_round F32.prec F32.emax s p 0 = S754_zero s
            \/ exists m e, binary_round F32.prec F32.emax s p 0 = S754_finite s m e
                           /\ Z.pos m < 2 ^ 24 /\ e <= 41).
  { clear i Hi. intros s p Hp. unfold binary_round.
    assert (Hd : Zdigits2 (Z.pos p) <= 64) by (apply Zdigits2_le; lia).
    cbn [Zdigits2] in Hd.
    set (e' := fexp F32.prec F32.emax (Z.pos (digits2_pos p) + 0)). clearbody e'.
    assert (Hshape : exists mz ez, shl_align p 0 e' = (mz, ez) /\ ez <= 0
                     /\ Zdigits2 (Z.pos mz) + ez <= 64).
    { unfold shl_align. destruct (e' - 0) as [|n|n] eqn:Hn.
      - exists p, 0. cbn [Zdigits2]. split; [reflexivity | split; lia].
      - exists p, 0. cbn [Zdigits2]. split; [reflexivity | split; lia].
      - exists (Pos.iter xO p n), e'. split; [reflexivity|]. split; [lia|].
        assert (Zdigits2 (Z.pos (Pos.iter xO p n)) <= Z.pos (digits2_pos p) + Z.pos n);
          [|lia].
        apply Zdigits2_le; [|lia]. rewrite iter_xO_pow2, Z.pow_add_r by lia.
        pose proof (digits2_pos_bounds p). 
        assert (0 < 2 ^ Z.pos n) by (apply Z.pow_pos_nonneg; lia). nia. }
    destruct Hshape as (mz & ez & -> & Hez & Hdz).
    pose proof (Zdigits2_nonneg (Z.pos mz)) as Hnn.
    destruct (binary_round_aux_finite F32.prec F32.emax s (Z.pos mz) ez loc_Exact)
      as [Hz | (m & e & Hf & Hm & He)].
    - lia.
    - reflexivity.
    - unfold fexp, emin, F32.prec, F32.emax. lia.
    - now left.
    - right. exists m, e. split; [exact Hf|]. split; [exact Hm|].
      revert He. unfold fexp, emin, F32.prec, F32.emax. lia. }
  destruct i as [|p|p].
  - left. eauto.
  - destruct (Hround false p) as [Hz|Hf]; [lia | left; eauto | right; exact Hf].
  - destruct (Hround true p) as [Hz|Hf]; [lia | left; eauto | right; exact Hf].
Qed.

(** The float32 of a day count from 1 to 31 is a positive normal number. *)
Lemma F32_of_int_days (d : Z) :
  1 <= d <= 31 ->
  exists m e, F32.of_int d = S754_finite false m e /\ 2 ^ 23 <= Z.pos m < 2 ^ 24
              /\ -23 <= e <= -19.
Proof.
  intros Hd.
  assert (Hcases : In d (seqZ 1 31)) by (apply list_elem_of_In, elem_of_seqZ; lia).
  cbv in Hcases.
  repeat (destruct Hcases as [<- | Hcases];
          [eexists _, _; split; [reflexivity | vm_compute; intuition discriminate]|]).
  contradiction.
Qed.

(** A 64-bit integer divided by a day count is a finite float32. *)
Lemma F32_div_days_finite (total days : Z) :
  - 2 ^ 64 < total < 2 ^ 64 -> 1 <= days <= 31 ->
  F32.is_finite (F32.div (F32.of_int total) (F32.of_int days)) = true.
Proof.
  intros Htotal Hdays.
  destruct (F32_of_int_days days Hdays) as (my & ey & -> & Hmy & Hey).
  destruct (F32_of_int_shape total Htotal) as [[s ->] | (mx & ex & -> & Hmx & Hex)];
    [reflexivity|].
  clear Htotal Hdays. unfold F32.div, SFdiv, SFdiv_core_binary.
  set (sx := total <? 0). clearbody sx. clear total.
  pose proof (Zdigits2_nonneg (Z.pos mx)) as Hd1nn.
  assert (Hd1 : Zdigits2 (Z.pos mx) <= 24) by (apply Zdigits2_le; lia).
  assert (Hd2 : Zdigits2 (Z.pos my) = 24).
  { apply Z.le_antisymm; [apply Zdigits2_le; lia|].
    pose proof (Zdigits2_upper (Z.pos my) ltac:(lia)) as Hup.
    destruct (Z.le_gt_cases 24 (Zdigits2 (Z.pos my))) as [|Hlt]; [assumption|].
    assert (2 ^ Zdigits2 (Z.pos my) <= 2 ^ 23)
      by (apply Z.pow_le_mono_r; [lia | pose proof (Zdigits2_nonneg (Z.pos my)); lia]).
    lia. }
  set (d1 := Zdigits2 (Z.pos mx)) in *. rewrite Hd2.
  set (e' := Z.min (fexp F32.prec F32.emax (d1 + ex - (24 + ey))) (ex - ey)).
  assert (He' : e' <= ex - ey) by (unfold e'; lia).
  assert (Hs : 24 - d1 + 24 <= ex - ey - e' \/ e' <= -149 + 0).
  { unfold e', fexp, emin, F32.prec, F32.emax. lia. }
  set (sh := ex - ey - e') in *.
  set (m' := match sh with Z.pos _ => Z.shiftl (Z.pos mx) sh | 0 => Z.pos mx | Z.neg _ => 0 end).
  assert (Hm' : 0 <= m' < 2 ^ (d1 + sh)).
  { unfold m'. pose proof (Zdigits2_upper (Z.pos mx) ltac:(lia)) as Hup. fold d1 in Hup.
    destruct sh as [|n|n] eqn:Hsh; [rewrite Z.add_0_r; lia | | lia].
    rewrite Z.shiftl_mul_pow2, Z.pow_add_r by lia.
    assert (0 < 2 ^ Z.pos n) by (apply Z.pow_pos_nonneg; lia). nia. }
  clearbody m'.
  assert (Hq : Z.div_eucl m' (Z.pos my) = (m' / Z.pos my, m' mod Z.pos my))
    by (unfold Z.div, Z.modulo; destruct (Z.div_eucl m' (Z.pos my)); reflexivity).
  rewrite Hq.
  set (q := m' / Z.pos my).
  assert (Hq0 : 0 <= q) by (apply Z.div_pos; lia).
  assert (Hqd : Zdigits2 q <= Z.max (d1 + sh - 23) 0).
  { apply Zdigits2_le; [|lia]. split; [exact Hq0|].
    apply Z.div_lt_upper_bound; [lia|].
    eapply Z.lt_le_trans; [apply Hm'|].
    eapply Z.le_trans; [|apply Z.mul_le_mono_nonneg_r; [apply Z.pow_nonneg; lia | apply Hmy]].
    rewrite <- Z.pow_add_r by lia. apply pow2_le_mono; lia. }
  pose proof (Zdigits2_nonneg q) as Hqnn.
  destruct (binary_round_aux_finite F32.prec F32.emax (xorb sx false) q e'
              (new_location (Z.pos my) (m' mod Z.pos my)))
    as [-> | (m & e & -> & _)]; try reflexivity; try lia.
  unfold fexp, emin, F32.prec, F32.emax. lia.
Qed.

End Float32.

(** ** The magnitude test of the expense rule in float64 *)

Section Float64.

Lemma digits2_pos_iter_xO (p k : positive) :
  digits2_pos (Pos.iter xO p k) = (digits2_pos p + k)%positive.
Proof.
  induction k as [|k IH] using Pos.peano_ind.
  - simpl. lia.
  - rewrite Pos.iter_succ. simpl. rewrite IH. lia.
Qed.

(** A mantissa of exactly [prec] digits with an exponent inside the format
    is left as it is by the rounding. *)
Lemma binary_round_aux_canonical (prec emax : Z) (s : bool) (m : positive) (e : Z) :
  Z.pos (digits2_pos m) = prec -> 3 - emax - prec <= e <= emax - prec ->
  binary_round_aux prec emax s (Z.pos m) e loc_Exact = S754_finite s m e.
Proof.
  intros Hd He.
  assert (Hfexp : fexp prec emax (Zdigits2 (Z.pos m) + e) - e = 0).
  { cbn [Zdigits2]. unfold fexp, emin. lia. }
  unfold binary_round_aux, shr_fexp. rewrite Hfexp. cbn [shr shr_record_of_loc].
  cbn [loc_of_shr_record shr_m round_nearest_even]. rewrite Hfexp. cbn [shr shr_m].
  assert ((e <=? emax - prec) = true) as -> by (apply Z.leb_le; lia).
  reflexivity.
Qed.

(** [float64] holds an integer of magnitude below [2^53] exactly: the
    mantissa is the magnitude shifted to 53 digits. *)
Lemma F64_binary_round_exact (s : bool) (p : positive) :
  Z.pos p < 2 ^ 53 ->
  binary_round F64.prec F64.emax s p 0
    = S754_finite s (Z.to_pos (Z.pos p * 2 ^ (53 - Z.pos (digits2_pos p))))
                  (Z.pos (digits2_pos p) - 53).
Proof.
  intros Hp.
  assert (Hd : Z.pos (digits2_pos p) <= 53).
  { change (Z.pos (digits2_pos p)) with (Zdigits2 (Z.pos p)). apply Zdigits2_le; lia. }
  unfold binary_round.
  assert (Hfexp : fexp F64.prec F64.emax (Z.pos (digits2_pos p) + 0)
                  = Z.pos (digits2_pos p) - 53)
    by (unfold fexp, emin, F64.prec, F64.emax; lia).
  rewrite Hfexp. unfold shl_align.
  destruct (Z.pos (digits2_pos p) - 53 - 0) as [|k|k] eqn:Hk; [|lia|].
  - replace (53 - Z.pos (digits2_pos p)) with 0 by lia.
    replace (Z.pos (digits2_pos p) - 53) with 0 by lia.
    rewrite Z.pow_0_r, Z.mul_1_r. cbn [Z.to_pos].
    apply binary_round_aux_canonical; unfold F64.prec, F64.emax; lia.
  - replace (53 - Z.pos (digits2_pos p)) with (Z.pos k) by lia.
    rewrite <- iter_xO_pow2. cbn [Z.to_pos].
    apply binary_round_aux_canonical.
    + rewrite digits2_pos_iter_xO. unfold F64.prec. lia.
    + unfold F64.prec, F64.emax. lia.
Qed.

(** The three shapes of [math.Abs(float64(z))] for a magnitude up to [2^53]. *)
Lemma F64_abs_of_int_cases (z : Z) :
  Z.abs z <= 2 ^ 53 ->
  (z = 0 /\ F64.Abs (F64.of_int z) = S754_zero false)
  \/ (exists p, Z.abs z = Z.pos p /\ Z.pos p < 2 ^ 53
                /\ F64.Abs (F64.of_int z)
                   = S754_finite false
                       (Z.to_pos (Z.pos p * 2 ^ (53 - Z.pos (digits2_pos p))))
                       (Z.pos (digits2_pos p) - 53))
  \/ (Z.abs z = 2 ^ 53
      /\ F64.Abs (F64.of_int z) = S754_finite false (Z.to_pos (2 ^ 52)) 1).
Proof.
  intros Hz. destruct (Z.eq_dec (Z.abs z) (2 ^ 53)) as [Hmax|Hlt].
  - right. right. split; [exact Hmax|].
    destruct z as [|p|p]; [discriminate | |]; cbn [Z.abs] in Hmax; injection Hmax as ->;
      reflexivity.
  - destruct z as [|p|p].
    + left. split; reflexivity.
    + right. left. exists p. cbn [Z.abs] in *. split; [reflexivity|]. split; [lia|].
      unfold F64.of_int, binary_normalize. rewrite F64_binary_round_exact by lia.
      reflexivity.
    + right. left. exists p. cbn [Z.abs] in *. split; [reflexivity|]. split; [lia|].
      unfold F64.of_int, binary_normalize. rewrite F64_binary_round_exact by lia.
      reflexivity.
Qed.

Lemma scaled_mantissa (p : positive) :
  Z.pos p < 2 ^ 53 ->
  Z.pos (Z.to_pos (Z.pos p * 2 ^ (53 - Z.pos (digits2_pos p))))
    = Z.pos p * 2 ^ (53 - Z.pos (digits2_pos p)).
Proof.
  intros Hp. apply Z2Pos.id.
  assert (Z.pos (digits2_pos p) <= 53)
    by (change (Z.pos (digits2_pos p)) with (Zdigits2 (Z.pos p)); apply Zdigits2_le; lia).
  assert (0 < 2 ^ (53 - Z.pos (digits2_pos p))) by (apply Z.pow_pos_nonneg; lia).
  lia.
Qed.

(** On magnitudes up to [2^53] the float64 comparison is the comparison of
    the integers. *)
Lemma F64_abs_gtb_exact (v m : Z) :
  Z.abs v <= 2 ^ 53 -> Z.abs m <= 2 ^ 53 ->
  F64.gtb (F64.Abs (F64.of_int v)) (F64.Abs (F64.of_int m)) = (Z.abs m <? Z.abs v).
Proof.
  intros Hv Hm. unfold F64.gtb, SFltb.
  destruct (F64_abs_of_int_cases v Hv)
    as [[-> ->] | [(p & Hpv & Hp & ->) | [Hpv ->]]];
  destruct (F64_abs_of_int_cases m Hm)
    as [[-> ->] | [(q & Hqm & Hq & ->) | [Hqm ->]]];
  try rewrite Hpv; try rewrite Hqm; cbn [Z.abs SFcompare]; try reflexivity.
  - (* both below 2^53 *)
    pose proof (digits2_pos_bounds p) as Hdp. pose proof (digits2_pos_bounds q) as Hdq.
    destruct (Z.compare_spec (Z.pos (digits2_pos q) - 53) (Z.pos (digits2_pos p) - 53))
      as [Heq|Hlt|Hgt].
    + assert (Hd : Z.pos (digits2_pos q) = Z.pos (digits2_pos p)) by lia.
      change (Pos.compare_cont Eq ?a ?b) with (Z.pos a ?= Z.pos b).
      rewrite !scaled_mantissa by assumption. rewrite Hd.
      assert (0 < 2 ^ (53 - Z.pos (digits2_pos p))).
      { apply Z.pow_pos_nonneg; [lia|].
        assert (Z.pos (digits2_pos p) <= 53); [|lia].
        change (Z.pos (digits2_pos p)) with (Zdigits2 (Z.pos p)).
        apply Zdigits2_le; lia. }
      set (k := 2 ^ (53 - Z.pos (digits2_pos p))) in *. unfold Z.ltb.
      destruct (Z.compare_spec (Z.pos q * k) (Z.pos p * k));
        destruct (Z.compare_spec (Z.pos q) (Z.pos p)); try reflexivity; nia.
    + assert (2 ^ Z.pos (digits2_pos q) <= 2 ^ (Z.pos (digits2_pos p) - 1))
        by (apply Z.pow_le_mono_r; lia).
      symmetry. apply Z.ltb_lt. lia.
    + assert (2 ^ Z.pos (digits2_pos p) <= 2 ^ (Z.pos (digits2_pos q) - 1))
        by (apply Z.pow_le_mono_r; lia).
      symmetry. apply Z.ltb_ge. lia.
  - (* v below 2^53, m at 2^53 *)
    assert (Hd : Z.pos (digits2_pos p) <= 53)
      by (change (Z.pos (digits2_pos p)) with (Zdigits2 (Z.pos p)); apply Zdigits2_le; lia).
    destruct (Z.compare_spec 1 (Z.pos (digits2_pos p) - 53)); lia.
  - (* v at 2^53, m below *)
    assert (Hd : Z.pos (digits2_pos q) <= 53)
      by (change (Z.pos (digits2_pos q)) with (Zdigits2 (Z.pos q)); apply Zdigits2_le; lia).
    destruct (Z.compare_spec (Z.pos (digits2_pos q) - 53) 1); lia.
Qed.

End Float64.

Section ExpenseRule.

(** On the integers float64 holds exactly (magnitudes up to [2^53]) the
    expense rule is the one of the comment in the code: a planned expense
    whose matched sum is not positive contributes whichever of the two has
    the larger magnitude. *)
Lemma monthlyIncomeStep_expense_exact (matched : gmap string Z) (total m : Z)
    (tx : RegularTransaction.t) :
  matched !! RegularTransaction.Label tx = Some m ->
  RegularTransaction.Value tx < 0 -> m <= 0 ->
  Z.abs (RegularTransaction.Value tx) <= 2 ^ 53 -> Z.abs m <= 2 ^ 53 ->
  Wallet.monthlyIncomeStep matched total tx
    = Ret (Int64.add total
             (if Z.abs m <? Z.abs (RegularTransaction.Value tx)
              then RegularTransaction.Value tx else m)).
Proof.
  intros Hm Hneg Hsign Hv Hmb. unfold Wallet.monthlyIncomeStep. rewrite Hm.
  assert ((0 <? RegularTransaction.Value tx) = false) as -> by (apply Z.ltb_ge; lia).
  assert ((0 <? m) = false) as -> by (apply Z.ltb_ge; lia).
  rewrite andb_false_r. cbn [andb orb].
  rewrite F64_abs_gtb_exact by assumption.
  destruct (Z.abs m <? Z.abs (RegularTransaction.Value tx)); reflexivity.
Qed.

End ExpenseRule.

(** ** Proration across the month boundary *)

Section WrappedProration.

Lemma daysInMonth_prev_range (month : Z) :
  1 <= month <= 12 -> 28 <= daysIn (Wallet.prevMonthOf month) <= 31.
Proof.
  intros Hmonth.
  assert (Hcases : In month (seqZ 1 12)) by (apply list_elem_of_In, elem_of_seqZ; lia).
  cbv in Hcases.
  repeat (destruct Hcases as [<- | Hcases]; [vm_compute; intuition discriminate|]).
  contradiction.
Qed.

Lemma wrappedDays_exact (monthStart curDay prevMonth : Z) :
  1 <= monthStart <= 28 -> 1 <= curDay <= 31 -> 28 <= daysIn prevMonth <= 31 ->
  Wallet.wrappedDays monthStart curDay prevMonth
    = 31 - (monthStart - curDay) - (31 - daysIn prevMonth).
Proof.
  intros Hms Hday Hprev. unfold Wallet.wrappedDays, Int64.sub.
  rewrite (wrap64_small (monthStart - curDay))
    by (unfold Int64.in_range, Int64.min_int, Int64.max_int; lia).
  rewrite (wrap64_small (31 - daysIn prevMonth))
    by (unfold Int64.in_range, Int64.min_int, Int64.max_int; lia).
  rewrite (wrap64_small (31 - (monthStart - curDay)))
    by (unfold Int64.in_range, Int64.min_int, Int64.max_int; lia).
  apply wrap64_small. unfold Int64.in_range, Int64.min_int, Int64.max_int. lia.
Qed.

Lemma monthlyIncomeStep_in_range (matched : gmap string Z) (total total' : Z)
    (tx : RegularTransaction.t) :
  Wallet.monthlyIncomeStep matched total tx = Ret total' -> Int64.in_range total'.
Proof.
  unfold Wallet.monthlyIncomeStep.
  destruct (matched !! RegularTransaction.Label tx) as [m|].
  - destruct (_ || _); [discriminate|].
    destruct (0 <? _); [|destruct (F64.gtb _ _)];
      intros [= <-]; apply wrap64_in_range.
  - intros [= <-]. apply wrap64_in_range.
Qed.

Lemma totalMonthlyIncomeFrom_in_range (matched : gmap string Z) (total total' : Z)
    (regular_txs : list RegularTransaction.t) :
  Int64.in_range total ->
  Wallet.totalMonthlyIncomeFrom matched total regular_txs = Ret total' ->
  Int64.in_range total'.
Proof.
  revert total. induction regular_txs as [|tx rest IH]; intros total Hrange; simpl.
  - intros [= <-]. exact Hrange.
  - destruct (Wallet.monthlyIncomeStep matched total tx) as [next|msg] eqn:Hstep; simpl;
      [|discriminate].
    apply IH. apply (monthlyIncomeStep_in_range _ _ _ _ Hstep).
Qed.

Lemma prorate_wrapped (monthStart total : Z) (now : Time.t) :
  1 <= monthStart <= 28 -> Time.Day now < monthStart ->
  Wallet.prorate monthStart total now
    = F32.div (F32.of_int total)
        (F32.of_int (31 - (monthStart - Time.Day now)
                     - (31 - daysIn (Wallet.prevMonthOf (Time.Month now))))).
Proof.
  intros Hms Hday. unfold Wallet.prorate.
  assert ((monthStart <=? Time.Day now) = false) as -> by (apply Z.leb_gt; lia).
  rewrite wrappedDays_exact;
    [reflexivity | lia | apply Day_range | apply daysInMonth_prev_range, Month_range].
Qed.

(** C5. With a month start in [1,28] and a reference day before it, the
    divisor [31 - (monthStart - curDay) - (31 - daysInPrevMonth)], with
    [daysInPrevMonth] read from the fixed table (28 for February) at the
    calendar month before the month of the reference instant (December
    before January), is at least 1; the float32 quotient of the monthly
    total by it is a finite number, and the calculation returns that
    quotient converted to [int]. *)
Theorem wrapped_proration_well_defined {S : Type} (w : Wallet.t S)
    (regular_txs : list RegularTransaction.t) (matched : gmap string Z)
    (now : Time.t) (total : Z) :
  1 <= Wallet.MonthStart w <= 28 ->
  Time.Day now < Wallet.MonthStart w ->
  Wallet.totalMonthlyIncomeFrom matched 0 regular_txs = Ret total ->
  let daysInPrevMonth :=
    daysIn (snd (prevCalendarMonth (Time.Year now) (Time.Month now))) in
  let days := 31 - (Wallet.MonthStart w - Time.Day now) - (31 - daysInPrevMonth) in
  daysIn Time.February = 28
  /\ (Time.Month now = Time.January -> daysInPrevMonth = daysIn Time.December)
  /\ 28 <= daysInPrevMonth <= 31
  /\ 1 <= days
  /\ F32.is_finite (F32.div (F32.of_int total) (F32.of_int days)) = true
  /\ Wallet.calcMonthlyIncomeTillDate w regular_txs matched now
     = Ret (F32.to_int (F32.div (F32.of_int total) (F32.of_int days))).
Proof.
  intros Hms Hday Htotal daysInPrevMonth days.
  assert (Hmonth : snd (prevCalendarMonth (Time.Year now) (Time.Month now))
                   = Wallet.prevMonthOf (Time.Month now)).
  { unfold prevCalendarMonth, Wallet.prevMonthOf.
    destruct (Time.Month now =? Time.January); reflexivity. }
  pose proof (daysInMonth_prev_range _ (Month_range now)) as Hprev.
  rewrite <- Hmonth in Hprev. fold daysInPrevMonth in Hprev.
  pose proof (Day_range now) as Hcur.
  assert (Hdays : 1 <= days <= 31) by (unfold days; lia).
  split; [reflexivity|]. split.
  { intros Hjan. unfold daysInPrevMonth, prevCalendarMonth. rewrite Hjan. reflexivity. }
  split; [exact Hprev|]. split; [lia|]. split.
  - apply F32_div_days_finite; [|exact Hdays].
    assert (Hrange : Int64.in_range total).
    { apply (totalMonthlyIncomeFrom_in_range matched 0 total regular_txs); [|exact Htotal].
      unfold Int64.in_range, Int64.min_int, Int64.max_int. lia. }
    unfold Int64.in_range, Int64.min_int, Int64.max_int in Hrange. lia.
  - unfold Wallet.calcMonthlyIncomeTillDate. rewrite Htotal. cbn [outcome_bind].
    rewrite prorate_wrapped by assumption. rewrite <- Hmonth. reflexivity.
Qed.

End WrappedProration.

Lemma wrapped_proration_well_defined_witness :
  1 <= Wallet.MonthStart (Sample.wallet 5) <= 28
  /\ Time.Day Sample.noon3 < Wallet.MonthStart (Sample.wallet 5)
  /\ F32.is_finite (F32.div (F32.of_int (-800)) (F32.of_int 26)) = true
  /\ Wallet.calcMonthlyIncomeTillDate (Sample.wallet 5) [Sample.rentPlan] ∅ Sample.noon3
     = Ret (F32.to_int (F32.div (F32.of_int (-800)) (F32.of_int 26))).
Proof.
  assert (H1 : 1 <= Wallet.MonthStart (Sample.wallet 5) <= 28) by (simpl; lia).
  assert (H2 : Time.Day Sample.noon3 < Wallet.MonthStart (Sample.wallet 5))
    by (vm_compute; reflexivity).
  split; [exact H1|]. split; [exact H2|].
  exact (proj2 (proj2 (proj2 (proj2
           (wrapped_proration_well_defined (Sample.wallet 5) [Sample.rentPlan] ∅
              Sample.noon3 (-800) H1 H2 eq_refl))))).
Defined.

(** ** The registry beyond the date check *)

Section RegistryRules.

Context {S : Type}.
Variable Local : Time.Location.
Implicit Types (w : Wallet.t S) (tx : RegularTransaction.t) (st : S).

Lemma checkRegularTransactionLabelExist_true
    (transactions : list RegularTransaction.t) (label : string) :
  Wallet.checkRegularTransactionLabelExist transactions label = true <->
  exists r, In r transactions /\ RegularTransaction.Label r = label.
Proof.
  induction transactions as [|r rest IH]; simpl.
  - split; [discriminate | intros (r & [] & _)].
  - destruct (String.eqb_spec (RegularTransaction.Label r) label) as [Heq|Hne].
    + split; [eauto | reflexivity].
    + rewrite IH. split.
      * intros (r' & Hin & Hl). eauto.
      * intros (r' & [<- | Hin] & Hl); [contradiction | eauto].
Qed.

Lemma checkRegularTransactionExactMatchExist_true
    (transactions : list RegularTransaction.t) tx :
  Wallet.checkRegularTransactionExactMatchExist transactions tx = true <-> In tx transactions.
Proof.
  induction transactions as [|r rest IH]; simpl.
  - split; [discriminate | tauto].
  - case_bool_decide as Heq.
    + split; [auto | reflexivity].
    + rewrite IH. split; [auto | intros [? | ?]; [contradiction | assumption]].
Qed.

(** X1. A planned transaction with a date in [1,28] whose label is already
    carried by a planned transaction of the wallet is refused with the
    "already exists" error; the store is left as the load left it, so the
    record is not written. *)
Theorem AddRegularTransaction_label_taken w tx st st1
    (transactions : list RegularTransaction.t) :
  1 <= RegularTransaction.Date tx <= 28 ->
  Storage.GetRegularTransactions (Wallet.storage w) (Wallet.ID w) st
    = (Ret (transactions, None), st1) ->
  (exists r, In r transactions
             /\ RegularTransaction.Label r = RegularTransaction.Label tx) ->
  Wallet.AddRegularTransaction w tx st
    = (Ret (errors_New (Wallet.errLabelExists (RegularTransaction.Label tx))), st1).
Proof.
  intros Hdate Hload Htaken. unfold Wallet.AddRegularTransaction.
  assert ((RegularTransaction.Date tx <? 1) || (28 <? RegularTransaction.Date tx) = false)
    as -> by (apply orb_false_iff; rewrite !Z.ltb_ge; lia).
  unfold bind. rewrite Hload.
  apply checkRegularTransactionLabelExist_true in Htaken. rewrite Htaken. reflexivity.
Qed.

(** X2. Removal needs an exact match. When the wallet holds a planned
    transaction equal to the given one in value, date and label, the call is
    the store's removal of it; when it holds none (a transaction with the
    same label but another value or date is no match), the call returns the
    error the code builds (its text is the "already exists" one) and the
    store is left as the load left it. *)
Theorem RemoveRegularTransaction_exact_match w tx st st1
    (transactions : list RegularTransaction.t) :
  Storage.GetRegularTransactions (Wallet.storage w) (Wallet.ID w) st
    = (Ret (transactions, None), st1) ->
  (In tx transactions ->
   Wallet.RemoveRegularTransaction w tx st
     = Storage.RemoveRegularTransaction (Wallet.storage w) (Wallet.ID w) tx st1)
  /\ (~ In tx transactions ->
      Wallet.RemoveRegularTransaction w tx st
        = (Ret (errors_New (Wallet.errLabelExists (RegularTransaction.Label tx))), st1)).
Proof.
  intros Hload. unfold Wallet.RemoveRegularTransaction, bind. rewrite Hload.
  pose proof (checkRegularTransactionExactMatchExist_true transactions tx) as Hmatch.
  destruct (Wallet.checkRegularTransactionExactMatchExist transactions tx).
  - split; [reflexivity|]. intros Hno. exfalso. apply Hno, Hmatch. reflexivity.
  - split; [|reflexivity]. intros Hin. apply Hmatch in Hin. discriminate.
Qed.

Lemma planSum_fold (transactions : list RegularTransaction.t) (total : Z) :
  Int64.wrap64 total = total ->
  fold_left (fun total change => Int64.add total (RegularTransaction.Value change))
            transactions total
  = Int64.wrap64 (total + planSum transactions).
Proof.
  revert total. induction transactions as [|r rest IH]; intros total Htotal; simpl.
  - rewrite Z.add_0_r. symmetry. exact Htotal.
  - rewrite IH by apply wrap64_idem. unfold Int64.add.
    rewrite wrap64_add_l. f_equal. lia.
Qed.

Lemma planSum_Permutation (transactions transactions' : list RegularTransaction.t) :
  Permutation transactions transactions' -> planSum transactions' = planSum transactions.
Proof. induction 1; simpl; lia. Qed.

(** X3. The planned monthly income is the sum of the planned values in Go's
    arithmetic: the mathematical sum whenever that fits an [int], and the
    same amount in whatever order the store lists the transactions. *)
Theorem GetPlannedMonthlyIncome_sum w st st1 (transactions : list RegularTransaction.t) :
  Storage.GetRegularTransactions (Wallet.storage w) (Wallet.ID w) st
    = (Ret (transactions, None), st1) ->
  Wallet.GetPlannedMonthlyIncome w st
    = (Ret (Int64.wrap64 (planSum transactions), None), st1)
  /\ (Int64.in_range (planSum transactions) ->
      Int64.wrap64 (planSum transactions) = planSum transactions)
  /\ (forall transactions', Permutation transactions transactions' ->
      Int64.wrap64 (planSum transactions') = Int64.wrap64 (planSum transactions)).
Proof.
  intros Hload. split; [|split].
  - unfold Wallet.GetPlannedMonthlyIncome, bind. rewrite Hload.
    rewrite planSum_fold by reflexivity. reflexivity.
  - apply wrap64_small.
  - intros transactions' Hperm. rewrite (planSum_Permutation _ _ Hperm). reflexivity.
Qed.

(** X4. When the load of the planned transactions fails, every operation of
    the wallet that starts with it hands the error back and goes no further:
    the add (for a date in range), the removal, the planned income (with the
    amount 0) and the balance (with the amount 0). *)
Theorem load_error_is_returned w tx (now : Time.t) st st1
    (transactions : list RegularTransaction.t) (e : string) :
  Storage.GetRegularTransactions (Wallet.storage w) (Wallet.ID w) st
    = (Ret (transactions, Some e), st1) ->
  (1 <= RegularTransaction.Date tx <= 28 ->
   Wallet.AddRegularTransaction w tx st = (Ret (Some e), st1))
  /\ Wallet.RemoveRegularTransaction w tx st = (Ret (Some e), st1)
  /\ Wallet.GetPlannedMonthlyIncome w st = (Ret (0, Some e), st1)
  /\ Wallet.GetBalance Local w now st = (Ret (0, Some e), st1).
Proof.
  intros Hload. repeat split.
  - intros Hdate. unfold Wallet.AddRegularTransaction.
    assert ((RegularTransaction.Date tx <? 1) || (28 <? RegularTransaction.Date tx) = false)
      as -> by (apply orb_false_iff; rewrite !Z.ltb_ge; lia).
    unfold bind. rewrite Hload. reflexivity.
  - unfold Wallet.RemoveRegularTransaction, bind. rewrite Hload. reflexivity.
  - unfold Wallet.GetPlannedMonthlyIncome, bind. rewrite Hload. reflexivity.
  - unfold Wallet.GetBalance, Wallet.getRegularTransactions, bind. rewrite Hload.
    reflexivity.
Qed.

(** X5. A balance cannot be computed for a wallet whose month start lies
    outside [1,28]: once the planned transactions are loaded the call panics
    in the window resolver, before any realized transaction is queried. *)
Theorem GetBalance_month_start_out_of_range (sto : Storage.t S) (id : WalletId)
    (monthStart : Z) (now : Time.t) st st1 (transactions : list RegularTransaction.t) :
  monthStart < 1 \/ 28 < monthStart ->
  Storage.GetRegularTransactions sto id st = (Ret (transactions, None), st1) ->
  Wallet.GetBalance Local (Wallet.mk id monthStart sto) now st
    = (Panic "Date must be between 1 and 28", st1).
Proof.
  intros Hout Hload.
  unfold Wallet.GetBalance, Wallet.getRegularTransactions,
    Wallet.getActualTransactionsForCurrentMonthTillDate, bind, ret, lift.
  cbn [Wallet.ID Wallet.storage Wallet.MonthStart]. rewrite Hload.
  unfold Wallet.calcCurMonthBorders.
  assert ((monthStart <? 1) || (28 <? monthStart) = true) as ->
    by (apply orb_true_iff; rewrite !Z.ltb_lt; exact Hout).
  reflexivity.
Qed.

(** X6. When the planned transactions load and the query of the realized
    ones fails, the balance call returns the amount 0 with that error. *)
Theorem GetBalance_query_error w (now t1 t2 : Time.t) st st1 st2
    (regular_txs : list RegularTransaction.t) (actual_txs : list ActualTransaction.t)
    (e : string) :
  Storage.GetRegularTransactions (Wallet.storage w) (Wallet.ID w) st
    = (Ret (regular_txs, None), st1) ->
  Wallet.calcCurMonthBorders Local (Wallet.MonthStart w) now = Ret (t1, t2) ->
  Storage.GetActualTransactions (Wallet.storage w) (Wallet.ID w) t1 now st1
    = (Ret (actual_txs, Some e), st2) ->
  Wallet.GetBalance Local w now st = (Ret (0, Some e), st2).
Proof.
  intros Hload Hwindow Hquery.
  unfold Wallet.GetBalance, Wallet.getRegularTransactions,
    Wallet.getActualTransactionsForCurrentMonthTillDate, bind, ret, lift.
  rewrite Hload, Hwindow. cbv beta iota. rewrite Hquery. reflexivity.
Qed.

End RegistryRules.

Lemma AddRegularTransaction_label_taken_witness :
  Wallet.AddRegularTransaction (Sample.wallet 1) Sample2.rentPlanDay2 Sample.rentStore
    = (Ret (errors_New (Wallet.errLabelExists "rent")), Sample.rentStore).
Proof.
  apply (AddRegularTransaction_label_taken (Sample.wallet 1) Sample2.rentPlanDay2
           Sample.rentStore Sample.rentStore [Sample.rentPlan]).
  - simpl. lia.
  - reflexivity.
  - exists Sample.rentPlan. split; [now left | reflexivity].
Defined.

Lemma RemoveRegularTransaction_exact_match_witness :
  Wallet.RemoveRegularTransaction (Sample.wallet 1) Sample.rentPlan Sample.rentStore
    = (Ret None, MemStorage.mkState [] [Sample.rentPaid] None true)
  /\ Wallet.RemoveRegularTransaction (Sample.wallet 1) Sample2.rentPlanDay2 Sample.rentStore
      = (Ret (errors_New (Wallet.errLabelExists "rent")), Sample.rentStore).
Proof.
  split.
  - rewrite (proj1 (RemoveRegularTransaction_exact_match (Sample.wallet 1) Sample.rentPlan
                      Sample.rentStore Sample.rentStore [Sample.rentPlan] eq_refl)
               (or_introl eq_refl)).
    vm_compute. reflexivity.
  - apply (proj2 (RemoveRegularTransaction_exact_match (Sample.wallet 1)
                    Sample2.rentPlanDay2 Sample.rentStore Sample.rentStore
                    [Sample.rentPlan] eq_refl)).
    intros [Heq | []]. discriminate.
Defined.

Lemma GetPlannedMonthlyIncome_sum_witness :
  Wallet.GetPlannedMonthlyIncome (Sample.wallet 1) Sample.rentStore
    = (Ret (Int64.wrap64 (planSum [Sample.rentPlan]), None), Sample.rentStore).
Proof.
  apply (GetPlannedMonthlyIncome_sum (Sample.wallet 1) Sample.rentStore Sample.rentStore
           [Sample.rentPlan]).
  reflexivity.
Defined.

Lemma load_error_is_returned_witness :
  Wallet.RemoveRegularTransaction (Sample.wallet 1) Sample.rentPlan Sample2.offlineStore
    = (Ret (Some "connection refused"), Sample2.offlineStore)
  /\ Wallet.GetPlannedMonthlyIncome (Sample.wallet 1) Sample2.offlineStore
      = (Ret (0, Some "connection refused"), Sample2.offlineStore)
  /\ Wallet.GetBalance Time.UTC (Sample.wallet 1) Sample.noon15 Sample2.offlineStore
      = (Ret (0, Some "connection refused"), Sample2.offlineStore).
Proof.
  apply (load_error_is_returned Time.UTC (Sample.wallet 1) Sample.rentPlan Sample.noon15
           Sample2.offlineStore Sample2.offlineStore [] "connection refused").
  reflexivity.
Defined.

Lemma GetBalance_month_start_out_of_range_witness :
  Wallet.GetBalance Time.UTC (Wallet.mk "w1" 0 MemStorage.store) Sample.noon15 Sample.rentStore
    = (Panic "Date must be between 1 and 28", Sample.rentStore).
Proof.
  apply (GetBalance_month_start_out_of_range Time.UTC MemStorage.store "w1" 0 Sample.noon15
           Sample.rentStore Sample.rentStore [Sample.rentPlan]).
  - left. lia.
  - reflexivity.
Defined.

Lemma GetBalance_query_error_witness :
  Wallet.GetBalance Time.UTC (Wallet.mk "w1" 1 Sample2.timeoutStore) Sample.noon15 tt
    = (Ret (0, Some "i/o timeout"), tt).
Proof.
  apply (GetBalance_query_error Time.UTC (Wallet.mk "w1" 1 Sample2.timeoutStore) Sample.noon15
           (Time.Date 2024 3 1 0 0 0 0 Time.UTC) (Time.Date 2024 4 1 0 0 0 0 Time.UTC) tt tt tt
           [Sample.rentPlan] [] "i/o timeout").
  - reflexivity.
  - vm_compute. reflexivity.
  - reflexivity.
Defined.

(** ** Billing cycles on the time line *)

Section BillingCycles.


Lemma days_from_civil_day (y m d d' : Z) :
  Time.days_from_civil y m d' = Time.days_from_civil y m d + (d' - d).
Proof. unfold Time.days_from_civil. lia. Qed.

(** The day number of the civil date of a day number is that day number. *)
Lemma days_from_civil_from_days (z : Z) :
  Time.days_from_civil (fst (fst (Time.civil_from_days z)))
                       (snd (fst (Time.civil_from_days z)))
                       (snd (Time.civil_from_days z)) = z.
Proof.
  unfold Time.civil_from_days.
  set (era := (z + 719468) / 146097).
  set (doe := z + 719468 - era * 146097).
  assert (Hdoe : 0 <= doe < 146097) by (unfold doe, era; div_lia).
  assert (Hz : z = era * 146097 + doe - 719468) by (unfold doe; lia).
  clearbody doe era. subst z. cbv zeta. cbn [fst snd].
  set (yoe := (doe - doe / 1460 + doe / 36524 - doe / 146096) / 365).
  assert (Hyoe : 0 <= yoe <= 399) by (unfold yoe; div_lia).
  set (doy := doe - (365 * yoe + yoe / 4 - yoe / 100)).
  assert (Hdoy : 0 <= doy <= 365) by (unfold doy, yoe; div_lia).
  assert (Hdoe' : doe = yoe * 365 + yoe / 4 - yoe / 100 + doy) by (unfold doy; lia).
  clearbody doy yoe. subst doe.
  set (mp := (5 * doy + 2) / 153).
  assert (Hmp : 0 <= mp <= 11) by (unfold mp; div_lia).
  clearbody mp.
  set (m := if mp <? 10 then mp + 3 else mp - 9).
  assert (Hm : (if m <=? 2 then (if 2 <? m then m - 3 else m + 9) = mp /\ True
                else (if 2 <? m then m - 3 else m + 9) = mp /\ True)).
  { unfold m. destruct (Z.ltb_spec mp 10);
      [destruct (Z.leb_spec (mp + 3) 2); destruct (Z.ltb_spec 2 (mp + 3))
      |destruct (Z.leb_spec (mp - 9) 2); destruct (Z.ltb_spec 2 (mp - 9))]; lia. }
  unfold Time.days_from_civil.
  assert (Hy0 : (if m <=? 2 then (if m <=? 2 then yoe + era * 400 + 1 else yoe + era * 400) - 1
                 else (if m <=? 2 then yoe + era * 400 + 1 else yoe + era * 400))
                = yoe + era * 400)
    by (destruct (m <=? 2); lia).
  rewrite Hy0.
  assert (Hmp' : (if 2 <? m then m - 3 else m + 9) = mp) by (destruct (m <=? 2); tauto).
  rewrite Hmp'.
  replace ((yoe + era * 400) / 400) with era by div_lia.
  cbv zeta. replace (yoe + era * 400 - era * 400) with yoe by lia. lia.
Qed.

(** The day number of 1 March of the year [y0], up to the epoch shift. *)
Lemma days_from_civil_march (y0 mp d : Z) :
  0 <= mp <= 11 ->
  Time.days_from_civil (if mp <? 10 then y0 else y0 + 1)
                       (if mp <? 10 then mp + 3 else mp - 9) d
  = y0 / 400 * 146097 + (y0 - y0 / 400 * 400) * 365 + (y0 - y0 / 400 * 400) / 4
    - (y0 - y0 / 400 * 400) / 100 + (153 * mp + 2) / 5 + d - 1 - 719468.
Proof.
  intros Hmp. unfold Time.days_from_civil.
  destruct (Z.ltb_spec mp 10).
  - assert ((mp + 3 <=? 2) = false) as -> by (apply Z.leb_gt; lia).
    assert ((2 <? mp + 3) = true) as -> by (apply Z.ltb_lt; lia).
    replace (mp + 3 - 3) with mp by lia. lia.
  - assert ((mp - 9 <=? 2) = true) as -> by (apply Z.leb_le; lia).
    assert ((2 <? mp - 9) = false) as -> by (apply Z.ltb_ge; lia).
    replace (mp - 9 + 9) with mp by lia. replace (y0 + 1 - 1) with y0 by lia. lia.
Qed.

Lemma year_length (y0 : Z) :
  365 <= ((y0 + 1) / 400 * 146097 + (y0 + 1 - (y0 + 1) / 400 * 400) * 365
          + (y0 + 1 - (y0 + 1) / 400 * 400) / 4 - (y0 + 1 - (y0 + 1) / 400 * 400) / 100)
         - (y0 / 400 * 146097 + (y0 - y0 / 400 * 400) * 365 + (y0 - y0 / 400 * 400) / 4
            - (y0 - y0 / 400 * 400) / 100) <= 366.
Proof.
  set (era := y0 / 400). set (yoe := y0 - era * 400).
  assert (Hyoe : 0 <= yoe <= 399) by (unfold yoe, era; div_lia).
  destruct (Z.eq_dec yoe 399) as [Hlast|Hnot].
  - assert (Hera : (y0 + 1) / 400 = era + 1) by (unfold yoe, era in *; div_lia).
    rewrite Hera. replace (y0 + 1 - (era + 1) * 400) with 0 by (unfold yoe in *; lia).
    rewrite Hlast. change (0 / 4) with 0. change (0 / 100) with 0.
    change (399 / 4) with 99. change (399 / 100) with 3. lia.
  - assert (Hera : (y0 + 1) / 400 = era) by (unfold yoe, era in *; div_lia).
    rewrite Hera. replace (y0 + 1 - era * 400) with (yoe + 1) by (unfold yoe; lia).
    clearbody yoe. clear Hera. div_lia.
Qed.

(** The day number of the day [d] of the month number [k]. *)
Lemma days_from_civil_index (k d : Z) :
  Time.days_from_civil (k / 12) (k mod 12 + 1) d
  = (k - 2) / 12 / 400 * 146097
    + ((k - 2) / 12 - (k - 2) / 12 / 400 * 400) * 365
    + ((k - 2) / 12 - (k - 2) / 12 / 400 * 400) / 4
    - ((k - 2) / 12 - (k - 2) / 12 / 400 * 400) / 100
    + (153 * ((k - 2) mod 12) + 2) / 5 + d - 1 - 719468.
Proof.
  set (y0 := (k - 2) / 12). set (mp := (k - 2) mod 12).
  assert (Hmp : 0 <= mp <= 11) by (unfold mp; div_lia).
  rewrite <- (days_from_civil_march y0 mp d Hmp). f_equal.
  - destruct (Z.ltb_spec mp 10); unfold y0, mp in *; div_lia.
  - destruct (Z.ltb_spec mp 10); unfold mp in *; div_lia.
Qed.

(** Months have 28 to 31 days. *)
Lemma month_step (k d : Z) :
  28 <= Time.days_from_civil ((k + 1) / 12) ((k + 1) mod 12 + 1) d
        - Time.days_from_civil (k / 12) (k mod 12 + 1) d <= 31.
Proof.
  rewrite !days_from_civil_index. replace (k + 1 - 2) with (k - 2 + 1) by lia.
  set (j := k - 2). clearbody j.
  set (y0 := j / 12). set (mp := j mod 12).
  assert (Hmp : 0 <= mp <= 11) by (unfold mp; div_lia).
  destruct (Z.eq_dec mp 11) as [Hlast|Hnot].
  - assert (Hy : (j + 1) / 12 = y0 + 1) by (unfold y0, mp in *; div_lia).
    assert (Hm : (j + 1) mod 12 = 0) by (unfold mp in *; div_lia).
    rewrite Hy, Hm, Hlast. pose proof (year_length y0) as Hlen.
    change ((153 * 0 + 2) / 5) with 0. change ((153 * 11 + 2) / 5) with 337. lia.
  - assert (Hy : (j + 1) / 12 = y0) by (unfold y0, mp in *; div_lia).
    assert (Hm : (j + 1) mod 12 = mp + 1) by (unfold mp in *; div_lia).
    rewrite Hy, Hm. clearbody mp y0.
    assert (30 <= (153 * (mp + 1) + 2) / 5 - (153 * mp + 2) / 5 <= 31) by div_lia.
    lia.
Qed.

(** The day of the month of a day number fits its month: the day number
    lies before the first day of the next month. *)
Lemma civil_day_fits (z : Z) :
  let k := 12 * fst (fst (Time.civil_from_days z)) + snd (fst (Time.civil_from_days z)) - 1 in
  z < Time.days_from_civil ((k + 1) / 12) ((k + 1) mod 12 + 1) 1.
Proof.
  cbv zeta. rewrite days_from_civil_index.
  unfold Time.civil_from_days.
  set (era := (z + 719468) / 146097).
  set (doe := z + 719468 - era * 146097).
  assert (Hdoe : 0 <= doe < 146097) by (unfold doe, era; div_lia).
  assert (Hz : z = era * 146097 + doe - 719468) by (unfold doe; lia).
  clearbody doe era. subst z. cbv zeta. cbn [fst snd].
  set (yoe := (doe - doe / 1460 + doe / 36524 - doe / 146096) / 365).
  assert (Hyoe : 0 <= yoe <= 399) by (unfold yoe; div_lia).
  set (doy := doe - (365 * yoe + yoe / 4 - yoe / 100)).
  assert (Hdoy : 0 <= doy <= 365) by (unfold doy, yoe; div_lia).
  assert (Hnext : yoe < 399 -> doe < 365 * (yoe + 1) + (yoe + 1) / 4 - (yoe + 1) / 100)
    by (unfold yoe; div_lia).
  assert (Hdoe' : doe = yoe * 365 + yoe / 4 - yoe / 100 + doy) by (unfold doy; lia).
  clearbody doy yoe. subst doe.
  set (mp := (5 * doy + 2) / 153).
  assert (Hmp : 0 <= mp <= 11) by (unfold mp; div_lia).
  assert (Hfit : mp < 11 -> doy < (153 * (mp + 1) + 2) / 5) by (unfold mp; div_lia).
  clearbody mp.
  set (m := if mp <? 10 then mp + 3 else mp - 9).
  set (y0 := yoe + era * 400).
  set (y := if m <=? 2 then y0 + 1 else y0).
  assert (Hindex : 12 * y + m - 1 + 1 - 2 = 12 * y0 + mp + 1).
  { unfold y, m. destruct (Z.ltb_spec mp 10);
      [destruct (Z.leb_spec (mp + 3) 2) | destruct (Z.leb_spec (mp - 9) 2)]; lia. }
  rewrite Hindex. clear Hindex y m.
  destruct (Z.eq_dec mp 11) as [Hlast|Hnot].
  - assert (Hy : (12 * y0 + mp + 1) / 12 = y0 + 1) by div_lia.
    assert (Hm : (12 * y0 + mp + 1) mod 12 = 0) by div_lia.
    rewrite Hy, Hm. change ((153 * 0 + 2) / 5) with 0.
    destruct (Z.eq_dec yoe 399) as [Hend|Hmid].
    + assert (Hera : (y0 + 1) / 400 = era + 1) by (unfold y0; div_lia).
      rewrite Hera. replace (y0 + 1 - (era + 1) * 400) with 0 by (unfold y0; lia).
      change (0 / 4) with 0. change (0 / 100) with 0.
      subst yoe. change (399 / 4) with 99 in *. change (399 / 100) with 3 in *. lia.
    + assert (Hera : (y0 + 1) / 400 = era) by (unfold y0; div_lia).
      rewrite Hera. replace (y0 + 1 - era * 400) with (yoe + 1) by (unfold y0; lia).
      lia.
  - assert (Hy : (12 * y0 + mp + 1) / 12 = y0) by div_lia.
    assert (Hm : (12 * y0 + mp + 1) mod 12 = mp + 1) by div_lia.
    rewrite Hy, Hm.
    assert (Hera : y0 / 400 = era) by (unfold y0; div_lia).
    rewrite Hera. replace (y0 - era * 400) with yoe by (unfold y0; lia).
    lia.
Qed.

(** [Date] normalises the month into the year: only the month number counts. *)
Lemma Date_index (y m d h mi sc n : Z) (l : Time.Location) :
  Time.Date y m d h mi sc n l = Time.Date 0 (12 * y + m) d h mi sc n l.
Proof.
  unfold Time.Date.
  replace (0 + (12 * y + m - 1) / 12) with (y + (m - 1) / 12) by div_lia.
  replace ((12 * y + m - 1) mod 12) with ((m - 1) mod 12) by div_lia.
  reflexivity.
Qed.

Lemma Before_false_sec (t u : Time.t) :
  Time.nsec u = 0 -> 0 <= Time.nsec t ->
  Time.Before t u = false <-> Time.sec u <= Time.sec t.
Proof.
  intros Hu Ht. unfold Time.Before. rewrite Hu.
  rewrite orb_false_iff, andb_false_iff, Z.ltb_ge, Z.eqb_neq, Z.ltb_ge. lia.
Qed.

Lemma Before_true_sec (t u : Time.t) :
  Time.nsec u = 0 -> 0 <= Time.nsec t ->
  Time.Before t u = true <-> Time.sec t < Time.sec u.
Proof.
  intros Hu Ht. unfold Time.Before. rewrite Hu.
  rewrite orb_true_iff, andb_true_iff, Z.ltb_lt, Z.eqb_eq, Z.ltb_lt. lia.
Qed.

(** From here on the local zone has one offset at all times. *)
Variable Local : Time.Location.
Variable offset : Z.
Hypothesis Hfixed : fixedOffset Local offset.

Lemma cycleStart_fixed (ms k : Z) :
  cycleStart Local ms k
  = Time.mk (Time.days_from_civil (k / 12) (k mod 12 + 1) ms * 86400 - offset) 0 Local.
Proof.
  unfold cycleStart. rewrite (Date_fixedOffset _ _ _ _ _ _ _ offset Local Hfixed).
  unfold Time.secondsPerDay. replace (k + 1 - 1) with k by lia.
  change (0 / 1000000000) with 0. change (0 mod 1000000000) with 0.
  rewrite Z.add_0_l. f_equal. lia.
Qed.

Lemma cycleStart_sec (ms k : Z) :
  Time.sec (cycleStart Local ms k)
  = Time.days_from_civil (k / 12) (k mod 12 + 1) ms * 86400 - offset.
Proof. rewrite cycleStart_fixed. reflexivity. Qed.

Lemma cycleStart_nsec (ms k : Z) : Time.nsec (cycleStart Local ms k) = 0.
Proof. rewrite cycleStart_fixed. reflexivity. Qed.

Lemma cycleStart_loc (ms k : Z) : Time.loc (cycleStart Local ms k) = Local.
Proof. apply Date_loc. Qed.

Lemma cycleStart_midnight (ms k : Z) :
  1 <= ms <= 28 ->
  isMidnightOf (cycleStart Local ms k) (k / 12) (k mod 12 + 1) ms.
Proof.
  intros Hms. unfold cycleStart.
  pose proof (Date_midnight 0 (k + 1) ms offset Local Hfixed Hms) as H.
  replace (k + 1 - 1) with k in H by lia. rewrite Z.add_0_l in H. exact H.
Qed.

Lemma cycleStart_AddDate (ms k months : Z) :
  1 <= ms <= 28 ->
  Time.AddDate (cycleStart Local ms k) 0 months 0 = cycleStart Local ms (k + months).
Proof.
  intros Hms.
  destruct (cycleStart_midnight ms k Hms) as (Hy & Hm & Hd & Hh & Hmi & Hs & Hn).
  unfold Time.AddDate. rewrite Hy, Hm, Hd, Hh, Hmi, Hs, Hn, !Z.add_0_r, cycleStart_loc.
  rewrite Date_index. unfold cycleStart. f_equal. div_lia.
Qed.

(** Consecutive cycle starts are 28 to 31 days apart. *)
Lemma cycleStart_step (ms k : Z) :
  28 * 86400 <= Time.sec (cycleStart Local ms (k + 1)) - Time.sec (cycleStart Local ms k)
  <= 31 * 86400.
Proof. rewrite !cycleStart_sec. pose proof (month_step k ms). lia. Qed.

Lemma cycleStart_mono (ms k k' : Z) :
  k <= k' -> Time.sec (cycleStart Local ms k) <= Time.sec (cycleStart Local ms k').
Proof.
  intros Hle. replace k' with (k + Z.of_nat (Z.to_nat (k' - k))) by lia.
  induction (Z.to_nat (k' - k)) as [|n IH].
  - rewrite Z.add_0_r. lia.
  - replace (k + Z.of_nat (S n)) with (k + Z.of_nat n + 1) by lia.
    pose proof (cycleStart_step ms (k + Z.of_nat n)). lia.
Qed.

Lemma calcCurMonthBorders_cycle (ms : Z) (now : Time.t) :
  1 <= ms <= 28 ->
  Wallet.calcCurMonthBorders Local ms now
  = Ret (cycleStart Local ms (cycleOf ms now), cycleStart Local ms (cycleOf ms now + 1)).
Proof.
  intros Hms. unfold Wallet.calcCurMonthBorders, cycleOf.
  replace ((ms <? 1) || (28 <? ms)) with false by (symmetry; apply orb_false_iff; lia).
  rewrite Date_index.
  assert (Hstart : Time.Date 0 (12 * Time.Year now + Time.Month now) ms 0 0 0 0 Local
                   = cycleStart Local ms (12 * Time.Year now + Time.Month now - 1))
    by (unfold cycleStart; f_equal; lia).
  rewrite Hstart. destruct (Time.Day now <? ms).
  - rewrite !cycleStart_AddDate by exact Hms. reflexivity.
  - rewrite !cycleStart_AddDate by exact Hms. rewrite Z.sub_0_r. reflexivity.
Qed.

(** An instant held in the local zone lies in its own billing cycle. *)
Lemma cycleOf_contains (ms : Z) (now : Time.t) :
  1 <= ms <= 28 -> Time.loc now = Local ->
  Time.sec (cycleStart Local ms (cycleOf ms now)) <= Time.sec now
  /\ Time.sec now < Time.sec (cycleStart Local ms (cycleOf ms now + 1)).
Proof.
  intros Hms Hlocal. rewrite !cycleStart_sec. unfold cycleOf.
  unfold Time.Year, Time.Month, Time.Day, Time.civil, Time.abs, Time.secondsPerDay.
  rewrite Hlocal, (Hfixed (Time.sec now)).
  set (z := (Time.sec now + offset) / 86400).
  assert (Hz : z * 86400 <= Time.sec now + offset < (z + 1) * 86400)
    by (unfold z; div_lia).
  pose proof (civil_from_days_range z) as Hrange.
  pose proof (days_from_civil_from_days z) as Hback.
  pose proof (civil_day_fits z) as Hfit.
  clearbody z. cbv zeta in Hback, Hfit.
  destruct (Time.civil_from_days z) as [[y m] d]. cbn [fst snd] in *.
  set (k := 12 * y + m - 1) in *.
  assert (Hk : k / 12 = y /\ k mod 12 + 1 = m) by (unfold k; div_lia).
  destruct Hk as [Hky Hkm].
  assert (Hday : forall d', Time.days_from_civil (k / 12) (k mod 12 + 1) d' = z + (d' - d)).
  { intros d'. rewrite Hky, Hkm, (days_from_civil_day y m d d'). lia. }
  assert (Hnext : forall d', Time.days_from_civil ((k + 1) / 12) ((k + 1) mod 12 + 1) d'
                             = Time.days_from_civil ((k + 1) / 12) ((k + 1) mod 12 + 1) 1
                               + (d' - 1)).
  { intros d'. apply days_from_civil_day. }
  destruct (Z.ltb_spec d ms) as [Hlt|Hge].
  - replace (k - 1 + 1) with k by lia. rewrite (Hday ms).
    pose proof (month_step (k - 1) ms) as Hstep.
    replace (k - 1 + 1) with k in Hstep by lia. rewrite (Hday ms) in Hstep. lia.
  - rewrite Z.sub_0_r, (Hday ms), (Hnext ms). lia.
Qed.

Lemma cycleOf_cycleStart (ms k : Z) :
  1 <= ms <= 28 -> cycleOf ms (cycleStart Local ms k) = k.
Proof.
  intros Hms. unfold cycleOf.
  destruct (cycleStart_midnight ms k Hms) as (Hy & Hm & Hd & _).
  rewrite Hy, Hm, Hd, Z.ltb_irrefl. div_lia.
Qed.

(** An instant held in the local zone between two cycle starts belongs to
    the cycle of the first. *)
Lemma cycleOf_unique (ms k : Z) (t : Time.t) :
  1 <= ms <= 28 -> Time.loc t = Local ->
  Time.sec (cycleStart Local ms k) <= Time.sec t < Time.sec (cycleStart Local ms (k + 1)) ->
  cycleOf ms t = k.
Proof.
  intros Hms Hlocal Hin. pose proof (cycleOf_contains ms t Hms Hlocal) as Hown.
  destruct (Z.lt_trichotomy (cycleOf ms t) k) as [Hlt|[Heq|Hgt]].
  - pose proof (cycleStart_mono ms (cycleOf ms t + 1) k). lia.
  - exact Heq.
  - pose proof (cycleStart_mono ms (k + 1) (cycleOf ms t)). lia.
Qed.

(** X7. For a month start in [1,28], a local zone of one offset and a
    reference instant held in the local zone, the window the resolver
    returns contains the instant it was computed for: [now] is not before
    the window start and is before the window end. The balance query, which
    runs from the window start to [now], then does not have its borders
    reversed. *)
Theorem calcCurMonthBorders_contains_now (walletMonthStartDay : Z) (now : Time.t) :
  1 <= walletMonthStartDay <= 28 -> Time.loc now = Local -> 0 <= Time.nsec now ->
  exists monthStart monthEnd,
    Wallet.calcCurMonthBorders Local walletMonthStartDay now = Ret (monthStart, monthEnd)
    /\ Time.Before now monthStart = false
    /\ Time.Before now monthEnd = true.
Proof.
  intros Hms Hlocal Hnsec.
  eexists _, _. split; [apply calcCurMonthBorders_cycle; exact Hms|].
  destruct (cycleOf_contains walletMonthStartDay now Hms Hlocal) as [Hfrom Hto].
  split.
  - apply Before_false_sec; [apply cycleStart_nsec|exact Hnsec|exact Hfrom].
  - apply Before_true_sec; [apply cycleStart_nsec|exact Hnsec|exact Hto].
Qed.

(** X8. In a local zone of one offset the window does not depend on where
    in it the instant lies: every instant held in the local zone that is not
    before the start of a returned window and is before its end gets the
    same window. *)
Theorem calcCurMonthBorders_same_window (walletMonthStartDay : Z) (now t : Time.t)
    (monthStart monthEnd : Time.t) :
  1 <= walletMonthStartDay <= 28 -> Time.loc t = Local -> 0 <= Time.nsec t ->
  Wallet.calcCurMonthBorders Local walletMonthStartDay now = Ret (monthStart, monthEnd) ->
  Time.Before t monthStart = false -> Time.Before t monthEnd = true ->
  Wallet.calcCurMonthBorders Local walletMonthStartDay t = Ret (monthStart, monthEnd).
Proof.
  intros Hms Hlocal Hnsec Hwindow Hfrom Hto.
  rewrite (calcCurMonthBorders_cycle _ _ Hms) in Hwindow.
  injection Hwindow as <- <-.
  apply Before_false_sec in Hfrom; [|apply cycleStart_nsec|exact Hnsec].
  apply Before_true_sec in Hto; [|apply cycleStart_nsec|exact Hnsec].
  rewrite (calcCurMonthBorders_cycle _ _ Hms).
  rewrite (cycleOf_unique walletMonthStartDay (cycleOf walletMonthStartDay now) t Hms
             Hlocal) by lia.
  reflexivity.
Qed.

(** X9. In a local zone of one offset a window is 28 to 31 days long, and
    both borders are whole seconds. *)
Theorem calcCurMonthBorders_length (walletMonthStartDay : Z) (now : Time.t)
    (monthStart monthEnd : Time.t) :
  1 <= walletMonthStartDay <= 28 ->
  Wallet.calcCurMonthBorders Local walletMonthStartDay now = Ret (monthStart, monthEnd) ->
  28 * Time.secondsPerDay <= Time.sec monthEnd - Time.sec monthStart
                          <= 31 * Time.secondsPerDay
  /\ Time.nsec monthStart = 0 /\ Time.nsec monthEnd = 0.
Proof.
  intros Hms Hwindow.
  rewrite (calcCurMonthBorders_cycle _ _ Hms) in Hwindow.
  injection Hwindow as <- <-.
  split; [|split; apply cycleStart_nsec].
  apply cycleStart_step.
Qed.

(** X10. In a local zone of one offset windows follow one another without
    gap or overlap: the end of a window is the start of the window computed
    at that end, and that next window ends later. *)
Theorem calcCurMonthBorders_next_window (walletMonthStartDay : Z) (now : Time.t)
    (monthStart monthEnd : Time.t) :
  1 <= walletMonthStartDay <= 28 ->
  Wallet.calcCurMonthBorders Local walletMonthStartDay now = Ret (monthStart, monthEnd) ->
  exists nextEnd,
    Wallet.calcCurMonthBorders Local walletMonthStartDay monthEnd = Ret (monthEnd, nextEnd)
    /\ Time.Before monthEnd nextEnd = true.
Proof.
  intros Hms Hwindow.
  rewrite (calcCurMonthBorders_cycle _ _ Hms) in Hwindow.
  injection Hwindow as <- <-.
  eexists. rewrite (calcCurMonthBorders_cycle _ _ Hms).
  rewrite (cycleOf_cycleStart _ _ Hms). split; [reflexivity|].
  apply Before_true_sec; [apply cycleStart_nsec|rewrite cycleStart_nsec; lia|].
  pose proof (cycleStart_step walletMonthStartDay (cycleOf walletMonthStartDay now + 1)).
  lia.
Qed.

End BillingCycles.

Lemma calcCurMonthBorders_contains_now_witness :
  (fixedOffset (Time.FixedZone 10800) 10800 /\ 1 <= 5 <= 28
   /\ Time.loc Sample2.noon3East = Time.FixedZone 10800
   /\ 0 <= Time.nsec Sample2.noon3East)
  /\ exists monthStart monthEnd,
       Wallet.calcCurMonthBorders (Time.FixedZone 10800) 5 Sample2.noon3East
         = Ret (monthStart, monthEnd)
       /\ Time.Before Sample2.noon3East monthStart = false
       /\ Time.Before Sample2.noon3East monthEnd = true.
Proof.
  split;
    [split; [intros unix; reflexivity|split; [lia|split;
       [reflexivity|vm_compute; discriminate]]]|].
  apply (calcCurMonthBorders_contains_now (Time.FixedZone 10800) 10800
           (fun unix => eq_refl) 5 Sample2.noon3East);
    [lia|reflexivity|vm_compute; discriminate].
Defined.

Lemma calcCurMonthBorders_same_window_witness :
  Wallet.calcCurMonthBorders Time.UTC 1 Sample.noon3
  = Ret (Time.Date 2024 3 1 0 0 0 0 Time.UTC, Time.Date 2024 4 1 0 0 0 0 Time.UTC)
  /\ Wallet.calcCurMonthBorders Time.UTC 1 Sample.noon15
     = Ret (Time.Date 2024 3 1 0 0 0 0 Time.UTC, Time.Date 2024 4 1 0 0 0 0 Time.UTC).
Proof.
  split; [reflexivity|].
  apply (calcCurMonthBorders_same_window Time.UTC 0 (fun unix => eq_refl) 1
           Sample.noon3 Sample.noon15);
    [lia|reflexivity|vm_compute; discriminate|reflexivity|reflexivity|reflexivity].
Defined.

Lemma calcCurMonthBorders_length_witness :
  Wallet.calcCurMonthBorders (Time.FixedZone 10800) 5 Sample.noon3
  = Ret (Time.Date 2024 2 5 0 0 0 0 (Time.FixedZone 10800),
         Time.Date 2024 3 5 0 0 0 0 (Time.FixedZone 10800))
  /\ 28 * Time.secondsPerDay
     <= Time.sec (Time.Date 2024 3 5 0 0 0 0 (Time.FixedZone 10800))
        - Time.sec (Time.Date 2024 2 5 0 0 0 0 (Time.FixedZone 10800))
     <= 31 * Time.secondsPerDay.
Proof.
  split; [reflexivity|].
  apply (calcCurMonthBorders_length (Time.FixedZone 10800) 10800 (fun unix => eq_refl) 5
           Sample.noon3);
    [lia|reflexivity].
Defined.

Lemma calcCurMonthBorders_next_window_witness :
  Wallet.calcCurMonthBorders Time.UTC 5 Sample.noon3
  = Ret (Time.Date 2024 2 5 0 0 0 0 Time.UTC, Time.Date 2024 3 5 0 0 0 0 Time.UTC)
  /\ exists nextEnd,
       Wallet.calcCurMonthBorders Time.UTC 5 (Time.Date 2024 3 5 0 0 0 0 Time.UTC)
       = Ret (Time.Date 2024 3 5 0 0 0 0 Time.UTC, nextEnd)
       /\ Time.Before (Time.Date 2024 3 5 0 0 0 0 Time.UTC) nextEnd = true.
Proof.
  split; [reflexivity|].
  apply (calcCurMonthBorders_next_window Time.UTC 0 (fun unix => eq_refl) 5 Sample.noon3
           (Time.Date 2024 2 5 0 0 0 0 Time.UTC));
    [lia|reflexivity].
Defined.

(** ** The matcher and the balance *)

Section Matcher.

Implicit Types (matched : gmap string Z) (labeled : gmap string bool).
Implicit Types (actual_txs : list ActualTransaction.t).
Implicit Types (regular_txs : list RegularTransaction.t).

Lemma labelRegulars_panics regular_txs labeled :
  Wallet.labelRegulars regular_txs labeled = Panic "Label for regular transaction is empty"
  <-> Exists (fun r => RegularTransaction.Label r = "") regular_txs.
Proof.
  revert labeled. induction regular_txs as [|r rest IH]; intros labeled; simpl.
  - rewrite Exists_nil. split; [discriminate|tauto].
  - rewrite Exists_cons.
    destruct (String.eqb_spec (RegularTransaction.Label r) "") as [Heq|Hne].
    + tauto.
    + rewrite IH. tauto.
Qed.

Lemma labelRegulars_lookup regular_txs labeled labeled' (l : string) :
  Wallet.labelRegulars regular_txs labeled = Ret labeled' ->
  bool_decide (is_Some (labeled' !! l))
  = bool_decide (is_Some (labeled !! l)) || isPlanned regular_txs l.
Proof.
  revert labeled. induction regular_txs as [|r rest IH]; intros labeled; simpl.
  - intros [= <-]. rewrite orb_false_r. reflexivity.
  - destruct (String.eqb_spec (RegularTransaction.Label r) "") as [Heq|Hne];
      [discriminate|].
    intros Hrest. rewrite (IH _ Hrest).
    destruct (String.eqb_spec (RegularTransaction.Label r) l) as [->|Hother].
    + rewrite lookup_insert_eq. rewrite (bool_decide_eq_true_2 (is_Some (Some true)))
        by (eexists; reflexivity).
      rewrite orb_true_r. reflexivity.
    + rewrite lookup_insert_ne by exact Hother. reflexivity.
Qed.

Lemma labelRegulars_nonempty regular_txs labeled labeled' :
  Wallet.labelRegulars regular_txs labeled = Ret labeled' ->
  isPlanned regular_txs "" = false.
Proof.
  revert labeled. induction regular_txs as [|r rest IH]; intros labeled; simpl.
  - reflexivity.
  - destruct (String.eqb (RegularTransaction.Label r) ""); [discriminate|].
    intros Hrest. exact (IH _ Hrest).
Qed.

Lemma valueOf_none (p : ActualTransaction.t -> bool) actual_txs :
  existsb p actual_txs = false -> valueOf p actual_txs = 0.
Proof.
  induction actual_txs as [|tx rest IH]; simpl; [reflexivity|].
  destruct (p tx); simpl; [discriminate|]. intros H. rewrite (IH H). reflexivity.
Qed.

(** What the second loop leaves under a label: the entry it found there when
    the label is not planned or no realized transaction carries it, and
    otherwise the entry grown by the values of those that carry it. *)
Lemma accumulateActuals_entry labeled actual_txs matched (l : string) :
  Wallet.accumulateActuals labeled actual_txs matched !! l
  = if negb (String.eqb l "") && bool_decide (is_Some (labeled !! l))
       && existsb (hasLabel l) actual_txs
    then Some (Int64.wrap64 (default 0 (matched !! l) + valueOf (hasLabel l) actual_txs))
    else matched !! l.
Proof.
  revert matched. induction actual_txs as [|tx rest IH]; intros matched; simpl.
  - rewrite andb_false_r. reflexivity.
  - unfold hasLabel at 1 3.
    destruct (String.eqb_spec (ActualTransaction.Label tx) "") as [Hempty|Hfull].
    { rewrite IH. destruct (String.eqb_spec (ActualTransaction.Label tx) l) as [<-|Hne].
      - rewrite Hempty. reflexivity.
      - simpl. reflexivity. }
    destruct (labeled !! ActualTransaction.Label tx) as [b|] eqn:Hlabeled.
    + rewrite IH.
      destruct (String.eqb_spec (ActualTransaction.Label tx) l) as [<-|Hne].
      * rewrite lookup_insert_eq, Hlabeled.
        rewrite (bool_decide_eq_true_2 (is_Some (Some b))) by (eexists; reflexivity).
        destruct (String.eqb_spec (ActualTransaction.Label tx) "") as [|_];
          [contradiction|].
        simpl. unfold Int64.add.
        destruct (existsb (hasLabel (ActualTransaction.Label tx)) rest) eqn:Hrest.
        -- rewrite wrap64_add_l. do 2 f_equal. lia.
        -- rewrite (valueOf_none _ _ Hrest). do 2 f_equal. lia.
      * rewrite lookup_insert_ne by exact Hne. simpl. reflexivity.
    + rewrite IH.
      destruct (String.eqb_spec (ActualTransaction.Label tx) l) as [<-|Hne].
      * rewrite Hlabeled.
        rewrite (bool_decide_eq_false_2 (is_Some None)) by (intros [? [=]]).
        rewrite andb_false_r. reflexivity.
      * simpl. reflexivity.
Qed.

Lemma accumulateMatchedTransactions_entry regular_txs actual_txs matched (l : string) :
  Wallet.accumulateMatchedTransactions regular_txs actual_txs = Ret matched ->
  matched !! l
  = if isPlanned regular_txs l && existsb (hasLabel l) actual_txs
    then Some (Int64.wrap64 (valueOf (hasLabel l) actual_txs))
    else None.
Proof.
  unfold Wallet.accumulateMatchedTransactions.
  destruct (Wallet.labelRegulars regular_txs ∅) as [labeled|msg] eqn:Hlabeled;
    simpl; [|discriminate].
  intros [= <-]. rewrite accumulateActuals_entry.
  rewrite (labelRegulars_lookup _ _ _ l Hlabeled), lookup_empty.
  rewrite (bool_decide_eq_false_2 (is_Some None)) by (intros [? [=]]).
  rewrite orb_false_l. simpl (default 0 None). rewrite Z.add_0_l.
  destruct (String.eqb_spec l "") as [->|Hne]; simpl.
  - rewrite (labelRegulars_nonempty _ _ _ Hlabeled). reflexivity.
  - reflexivity.
Qed.

Lemma labelRegulars_cases regular_txs labeled :
  (Exists (fun r => RegularTransaction.Label r = "") regular_txs
   /\ Wallet.labelRegulars regular_txs labeled
      = Panic "Label for regular transaction is empty")
  \/ (Forall (fun r => RegularTransaction.Label r <> "") regular_txs
      /\ exists labeled', Wallet.labelRegulars regular_txs labeled = Ret labeled').
Proof.
  destruct (decide (Exists (fun r => RegularTransaction.Label r = "") regular_txs))
    as [Hsome|Hnone].
  - left. split; [exact Hsome|]. apply labelRegulars_panics. exact Hsome.
  - right. apply Forall_Exists_neg in Hnone. split; [exact Hnone|].
    apply labelRegulars_returns. exact Hnone.
Qed.

Lemma valueOf_Permutation (p : ActualTransaction.t -> bool) actual_txs actual_txs' :
  Permutation actual_txs actual_txs' -> valueOf p actual_txs = valueOf p actual_txs'.
Proof. induction 1; simpl; lia. Qed.

Lemma existsb_Permutation {A : Type} (p : A -> bool) (l l' : list A) :
  Permutation l l' -> existsb p l = existsb p l'.
Proof.
  induction 1; simpl.
  - reflexivity.
  - rewrite IHPermutation. reflexivity.
  - destruct (p x), (p y); reflexivity.
  - congruence.
Qed.

Lemma accumulateMatchedTransactions_Permutation regular_txs regular_txs'
    actual_txs actual_txs' :
  Permutation regular_txs regular_txs' -> Permutation actual_txs actual_txs' ->
  Wallet.accumulateMatchedTransactions regular_txs actual_txs
  = Wallet.accumulateMatchedTransactions regular_txs' actual_txs'.
Proof.
  intros Hregular Hactual.
  destruct (labelRegulars_cases regular_txs ∅) as [[Hsome Hpanic]|[Hnone [labeled Hret]]].
  - assert (Hsome' : Exists (fun r => RegularTransaction.Label r = "") regular_txs').
    { rewrite <- Hregular. exact Hsome. }
    apply (labelRegulars_panics _ ∅) in Hsome'.
    unfold Wallet.accumulateMatchedTransactions. rewrite Hpanic, Hsome'. reflexivity.
  - assert (Hnone' : Forall (fun r => RegularTransaction.Label r <> "") regular_txs').
    { rewrite <- Hregular. exact Hnone. }
    destruct (labelRegulars_returns regular_txs' ∅ Hnone') as [labeled' Hret'].
    assert (Hleft : Wallet.accumulateMatchedTransactions regular_txs actual_txs
                    = Ret (Wallet.accumulateActuals labeled actual_txs ∅))
      by (unfold Wallet.accumulateMatchedTransactions; rewrite Hret; reflexivity).
    assert (Hright : Wallet.accumulateMatchedTransactions regular_txs' actual_txs'
                     = Ret (Wallet.accumulateActuals labeled' actual_txs' ∅))
      by (unfold Wallet.accumulateMatchedTransactions; rewrite Hret'; reflexivity).
    rewrite Hleft, Hright. f_equal. apply map_eq. intros l.
    rewrite (accumulateMatchedTransactions_entry _ _ _ l Hleft).
    rewrite (accumulateMatchedTransactions_entry _ _ _ l Hright).
    unfold isPlanned.
    rewrite (existsb_Permutation _ _ _ Hregular), (existsb_Permutation _ _ _ Hactual),
      (valueOf_Permutation _ _ _ Hactual).
    reflexivity.
Qed.

Lemma accumulateMatchedTransactions_panics regular_txs actual_txs :
  Exists (fun r => RegularTransaction.Label r = "") regular_txs ->
  Wallet.accumulateMatchedTransactions regular_txs actual_txs
  = Panic "Label for regular transaction is empty".
Proof.
  intros Hsome. unfold Wallet.accumulateMatchedTransactions.
  rewrite (proj2 (labelRegulars_panics regular_txs ∅) Hsome). reflexivity.
Qed.

(** A step of the calculator adds an amount that does not depend on the
    running total. *)
Lemma monthlyIncomeStep_shift matched (total : Z) (tx : RegularTransaction.t) :
  Wallet.monthlyIncomeStep matched total tx
  = match Wallet.monthlyIncomeStep matched 0 tx with
    | Ret amount => Ret (Int64.add total amount)
    | Panic msg => Panic msg
    end.
Proof.
  unfold Wallet.monthlyIncomeStep.
  assert (Hadd : forall x, Int64.add total (Int64.add 0 x) = Int64.add total x).
  { intros x. unfold Int64.add. rewrite Z.add_0_l, wrap64_add_r. reflexivity. }
  destruct (matched !! RegularTransaction.Label tx) as [m|].
  - repeat match goal with |- context [if ?c then _ else _] => destruct c end;
      rewrite ?Hadd; reflexivity.
  - rewrite Hadd. reflexivity.
Qed.

Lemma monthlyIncomeStep_panic_message matched (total : Z) (tx : RegularTransaction.t)
    (msg : string) :
  Wallet.monthlyIncomeStep matched total tx = Panic msg ->
  msg = "Mismatched signs for regular and its matched actual counterpart".
Proof.
  unfold Wallet.monthlyIncomeStep.
  destruct (matched !! RegularTransaction.Label tx) as [m|]; [|discriminate].
  repeat match goal with |- context [if ?c then _ else _] => destruct c end;
    congruence.
Qed.

Lemma totalMonthlyIncomeFrom_Permutation matched regular_txs regular_txs' :
  Permutation regular_txs regular_txs' ->
  forall total,
    Wallet.totalMonthlyIncomeFrom matched total regular_txs
    = Wallet.totalMonthlyIncomeFrom matched total regular_txs'.
Proof.
  induction 1 as [|x l l' _ IH|x y l|l l' l'' _ IH1 _ IH2]; intros total; simpl.
  - reflexivity.
  - destruct (Wallet.monthlyIncomeStep matched total x); simpl; [apply IH|reflexivity].
  - rewrite (monthlyIncomeStep_shift matched total y),
      (monthlyIncomeStep_shift matched total x).
    destruct (Wallet.monthlyIncomeStep matched 0 y) as [b|msgy] eqn:Hy;
      destruct (Wallet.monthlyIncomeStep matched 0 x) as [a|msgx] eqn:Hx; simpl.
    + rewrite (monthlyIncomeStep_shift matched (Int64.add total b) x), Hx.
      rewrite (monthlyIncomeStep_shift matched (Int64.add total a) y), Hy.
      simpl. rewrite add64_swap. reflexivity.
    + rewrite (monthlyIncomeStep_shift matched (Int64.add total b) x), Hx. reflexivity.
    + rewrite (monthlyIncomeStep_shift matched (Int64.add total a) y), Hy. reflexivity.
    + rewrite (monthlyIncomeStep_panic_message _ _ _ _ Hx),
        (monthlyIncomeStep_panic_message _ _ _ _ Hy).
      reflexivity.
  - rewrite IH1. apply IH2.
Qed.

Lemma calcUnmatchedTransactionsSum_Permutation {S : Type} (w : Wallet.t S)
    actual_txs actual_txs' matched :
  Permutation actual_txs actual_txs' ->
  Wallet.calcUnmatchedTransactionsSum w actual_txs matched
  = Wallet.calcUnmatchedTransactionsSum w actual_txs' matched.
Proof.
  intros Hactual. unfold Wallet.calcUnmatchedTransactionsSum.
  rewrite !calcUnmatchedTransactionsSum_fold by reflexivity.
  rewrite (valueOf_Permutation _ _ _ Hactual). reflexivity.
Qed.

(** X11. The matcher panics, with the message of the empty label, exactly
    when some planned transaction has an empty label, whatever the realized
    transactions are; it returns a matched set exactly when every planned
    label is non-empty. *)
Theorem accumulateMatchedTransactions_panics_iff regular_txs actual_txs :
  (Wallet.accumulateMatchedTransactions regular_txs actual_txs
   = Panic "Label for regular transaction is empty"
   <-> Exists (fun r => RegularTransaction.Label r = "") regular_txs)
  /\ ((exists matched,
         Wallet.accumulateMatchedTransactions regular_txs actual_txs = Ret matched)
      <-> Forall (fun r => RegularTransaction.Label r <> "") regular_txs).
Proof.
  unfold Wallet.accumulateMatchedTransactions.
  destruct (labelRegulars_cases regular_txs ∅) as [[Hsome Hpanic]|[Hnone [labeled Hret]]].
  - rewrite Hpanic. simpl. split.
    + tauto.
    + split; [intros [matched [=]]|].
      intros Hnone. apply Forall_Exists_neg in Hnone. contradiction.
  - rewrite Hret. simpl. split.
    + split; [discriminate|].
      intros Hsome. apply Forall_Exists_neg in Hnone. contradiction.
    + split; [intros _; exact Hnone|]. intros _. eexists. reflexivity.
Qed.

(** X12. The matched set has an entry under a label exactly when a planned
    transaction and at least one realized transaction carry that label, and
    the entry is the sum of the values of the realized transactions with
    that label in Go's arithmetic; realized transactions that cancel out
    still leave an entry, of value 0. *)
Theorem accumulateMatchedTransactions_lookup regular_txs actual_txs matched (l : string) :
  Wallet.accumulateMatchedTransactions regular_txs actual_txs = Ret matched ->
  matched !! l
  = if isPlanned regular_txs l && existsb (hasLabel l) actual_txs
    then Some (Int64.wrap64 (valueOf (hasLabel l) actual_txs))
    else None.
Proof.
  intros Hmatched. apply (accumulateMatchedTransactions_entry regular_txs). exact Hmatched.
Qed.

Lemma accumulateMatchedTransactions_lookup_witness :
  Wallet.accumulateMatchedTransactions [Sample.rentPlan] [Sample.rentPaid; Sample.coffee]
  = Ret {[ "rent" := -800 ]}
  /\ ({[ "rent" := -800 ]} : gmap string Z) !! "rent"
     = if isPlanned [Sample.rentPlan] "rent"
          && existsb (hasLabel "rent") [Sample.rentPaid; Sample.coffee]
       then Some (Int64.wrap64 (valueOf (hasLabel "rent") [Sample.rentPaid; Sample.coffee]))
       else None.
Proof.
  split; [reflexivity|].
  apply (accumulateMatchedTransactions_lookup [Sample.rentPlan]
           [Sample.rentPaid; Sample.coffee]).
  reflexivity.
Defined.

End Matcher.

Section Balance.

Context {S : Type}.
Variable Local : Time.Location.
Implicit Types (w : Wallet.t S) (st : S).
Implicit Types (actual_txs : list ActualTransaction.t).
Implicit Types (regular_txs : list RegularTransaction.t).

(** The balance once both lists are loaded: the matcher, the calculator and
    the sum of the unmatched transactions, put together. *)
Lemma GetBalance_loaded w (now t1 t2 : Time.t) st st1 st2 regular_txs actual_txs :
  Storage.GetRegularTransactions (Wallet.storage w) (Wallet.ID w) st
    = (Ret (regular_txs, None), st1) ->
  Wallet.calcCurMonthBorders Local (Wallet.MonthStart w) now = Ret (t1, t2) ->
  Storage.GetActualTransactions (Wallet.storage w) (Wallet.ID w) t1 now st1
    = (Ret (actual_txs, None), st2) ->
  Wallet.GetBalance Local w now st
  = (matched <-! Wallet.accumulateMatchedTransactions regular_txs actual_txs ;;
     curAvailIncome <-! Wallet.calcMonthlyIncomeTillDate w regular_txs matched now ;;
     Ret (Int64.add curAvailIncome
            (Wallet.calcUnmatchedTransactionsSum w actual_txs matched), None),
     st2).
Proof.
  intros Hload Hwindow Hquery.
  unfold Wallet.GetBalance, Wallet.getRegularTransactions,
    Wallet.getActualTransactionsForCurrentMonthTillDate, bind, ret, lift.
  rewrite Hload, Hwindow. cbv beta iota. rewrite Hquery. cbv beta iota.
  destruct (Wallet.accumulateMatchedTransactions regular_txs actual_txs) as [matched|msg];
    simpl; [|reflexivity].
  destruct (Wallet.calcMonthlyIncomeTillDate w regular_txs matched now); reflexivity.
Qed.

(** X13. The balance does not depend on the order in which the store lists
    the planned or the realized transactions: two loads that differ by a
    permutation of either list give the same amount, or the same panic. *)
Theorem GetBalance_order_independent w (now t1 t2 : Time.t) st st1 st2 st' st1' st2'
    regular_txs regular_txs' actual_txs actual_txs' :
  Wallet.calcCurMonthBorders Local (Wallet.MonthStart w) now = Ret (t1, t2) ->
  Storage.GetRegularTransactions (Wallet.storage w) (Wallet.ID w) st
    = (Ret (regular_txs, None), st1) ->
  Storage.GetActualTransactions (Wallet.storage w) (Wallet.ID w) t1 now st1
    = (Ret (actual_txs, None), st2) ->
  Storage.GetRegularTransactions (Wallet.storage w) (Wallet.ID w) st'
    = (Ret (regular_txs', None), st1') ->
  Storage.GetActualTransactions (Wallet.storage w) (Wallet.ID w) t1 now st1'
    = (Ret (actual_txs', None), st2') ->
  Permutation regular_txs regular_txs' -> Permutation actual_txs actual_txs' ->
  fst (Wallet.GetBalance Local w now st) = fst (Wallet.GetBalance Local w now st').
Proof.
  intros Hwindow Hload Hquery Hload' Hquery' Hregular Hactual.
  rewrite (GetBalance_loaded w now t1 t2 st st1 st2 _ _ Hload Hwindow Hquery).
  rewrite (GetBalance_loaded w now t1 t2 st' st1' st2' _ _ Hload' Hwindow Hquery').
  cbn [fst].
  rewrite (accumulateMatchedTransactions_Permutation _ _ _ _ Hregular Hactual).
  destruct (Wallet.accumulateMatchedTransactions regular_txs' actual_txs')
    as [matched|msg]; simpl; [|reflexivity].
  unfold Wallet.calcMonthlyIncomeTillDate.
  rewrite (totalMonthlyIncomeFrom_Permutation matched _ _ Hregular 0).
  rewrite (calcUnmatchedTransactionsSum_Permutation w _ _ matched Hactual).
  reflexivity.
Qed.

(** X14. Once both lists are loaded the balance call panics exactly when
    some planned label is empty, or some planned transaction has realized
    transactions under its label whose sum (in Go's arithmetic) has the
    opposite strict sign of the planned value. *)
Theorem GetBalance_panics_iff w (now t1 t2 : Time.t) st st1 st2 regular_txs actual_txs :
  Storage.GetRegularTransactions (Wallet.storage w) (Wallet.ID w) st
    = (Ret (regular_txs, None), st1) ->
  Wallet.calcCurMonthBorders Local (Wallet.MonthStart w) now = Ret (t1, t2) ->
  Storage.GetActualTransactions (Wallet.storage w) (Wallet.ID w) t1 now st1
    = (Ret (actual_txs, None), st2) ->
  (exists msg, fst (Wallet.GetBalance Local w now st) = Panic msg) <->
  Exists (fun r => RegularTransaction.Label r = "") regular_txs
  \/ Exists (fun r =>
               existsb (hasLabel (RegularTransaction.Label r)) actual_txs = true
               /\ signMismatch (RegularTransaction.Value r)
                    (Int64.wrap64
                       (valueOf (hasLabel (RegularTransaction.Label r)) actual_txs)))
            regular_txs.
Proof.
  intros Hload Hwindow Hquery.
  rewrite (GetBalance_loaded w now t1 t2 st st1 st2 _ _ Hload Hwindow Hquery).
  cbn [fst].
  destruct (Wallet.accumulateMatchedTransactions regular_txs actual_txs)
    as [matched|msg] eqn:Hmatched; simpl.
  - assert (Hlabels : ~ Exists (fun r => RegularTransaction.Label r = "") regular_txs).
    { intros Hsome.
      apply (accumulateMatchedTransactions_panics regular_txs actual_txs) in Hsome.
      congruence. }
    assert (Hentry : forall r, r ∈ regular_txs ->
              matched !! RegularTransaction.Label r
              = if existsb (hasLabel (RegularTransaction.Label r)) actual_txs
                then Some (Int64.wrap64
                             (valueOf (hasLabel (RegularTransaction.Label r)) actual_txs))
                else None).
    { intros r Hin.
      rewrite (accumulateMatchedTransactions_entry _ _ _ _ Hmatched).
      replace (isPlanned regular_txs (RegularTransaction.Label r)) with true; [reflexivity|].
      symmetry. apply existsb_exists. exists r. split.
      - apply list_elem_of_In. exact Hin.
      - apply String.eqb_refl. }
    transitivity (exists msg, Wallet.totalMonthlyIncomeFrom matched 0 regular_txs = Panic msg).
    { unfold Wallet.calcMonthlyIncomeTillDate.
      destruct (Wallet.totalMonthlyIncomeFrom matched 0 regular_txs); simpl.
      - split; intros [msg H]; discriminate.
      - split; eauto. }
    rewrite totalMonthlyIncomeFrom_panics. rewrite !Exists_exists. split.
    + intros (r & Hin & m & Hm & Hsign). right. exists r. split; [exact Hin|].
      rewrite (Hentry r Hin) in Hm.
      destruct (existsb (hasLabel (RegularTransaction.Label r)) actual_txs);
        [|discriminate].
      injection Hm as <-. split; [reflexivity|exact Hsign].
    + intros [Hsome|(r & Hin & Hused & Hsign)].
      * exfalso. apply Hlabels. apply Exists_exists. exact Hsome.
      * exists r. split; [exact Hin|]. eexists. split; [|exact Hsign].
        rewrite (Hentry r Hin), Hused. reflexivity.
  - split; [|eauto]. intros _. left.
    destruct (labelRegulars_cases regular_txs ∅) as [[Hsome _]|[_ [labeled Hret]]].
    + exact Hsome.
    + unfold Wallet.accumulateMatchedTransactions in Hmatched. rewrite Hret in Hmatched.
      discriminate.
Qed.

End Balance.

Lemma GetBalance_order_independent_witness :
  fst (Wallet.GetBalance Time.UTC (Sample.wallet 1) Sample.noon15 Sample2.fullStore)
  = fst (Wallet.GetBalance Time.UTC (Sample.wallet 1) Sample.noon15 Sample2.shuffledStore).
Proof.
  apply (GetBalance_order_independent Time.UTC (Sample.wallet 1) Sample.noon15
           (Time.Date 2024 3 1 0 0 0 0 Time.UTC) (Time.Date 2024 4 1 0 0 0 0 Time.UTC)
           Sample2.fullStore Sample2.fullStore Sample2.fullStore
           Sample2.shuffledStore Sample2.shuffledStore Sample2.shuffledStore
           [Sample.rentPlan; Sample.salaryPlan] [Sample.salaryPlan; Sample.rentPlan]
           [Sample.rentPaid; Sample.coffee] [Sample.coffee; Sample.rentPaid]).
  - reflexivity.
  - reflexivity.
  - reflexivity.
  - reflexivity.
  - reflexivity.
  - apply perm_swap.
  - apply perm_swap.
Defined.

Lemma GetBalance_panics_iff_witness :
  (exists msg,
     fst (Wallet.GetBalance Time.UTC (Sample.wallet 1) Sample.noon15 Sample2.refundStore)
     = Panic msg) <->
  Exists (fun r => RegularTransaction.Label r = "") [Sample.rentPlan]
  \/ Exists (fun r =>
               existsb (hasLabel (RegularTransaction.Label r)) [Sample2.rentRefund] = true
               /\ signMismatch (RegularTransaction.Value r)
                    (Int64.wrap64
                       (valueOf (hasLabel (RegularTransaction.Label r))
                                [Sample2.rentRefund])))
            [Sample.rentPlan].
Proof.
  apply (GetBalance_panics_iff Time.UTC (Sample.wallet 1) Sample.noon15
           (Time.Date 2024 3 1 0 0 0 0 Time.UTC) (Time.Date 2024 4 1 0 0 0 0 Time.UTC)
           Sample2.refundStore Sample2.refundStore Sample2.refundStore
           [Sample.rentPlan] [Sample2.rentRefund]); reflexivity.
Defined.

Section NoPlan.

Context {S : Type}.
Variable Local : Time.Location.
Implicit Types (w : Wallet.t S) (st : S).

Lemma daysIn_range (month : Z) : 1 <= month <= 12 -> 28 <= daysIn month <= 31.
Proof.
  intros Hmonth.
  assert (Hcases : In month (seqZ 1 12)) by (apply list_elem_of_In, elem_of_seqZ; lia).
  cbv in Hcases.
  repeat (destruct Hcases as [<- | Hcases]; [vm_compute; intuition discriminate|]).
  contradiction.
Qed.

Lemma calcCurMonthBorders_returns_range (monthStart : Z) (now : Time.t)
    (window : Time.t * Time.t) :
  Wallet.calcCurMonthBorders Local monthStart now = Ret window -> 1 <= monthStart <= 28.
Proof.
  unfold Wallet.calcCurMonthBorders.
  destruct (Z.ltb_spec monthStart 1); [discriminate|].
  destruct (Z.ltb_spec 28 monthStart); [discriminate|]. lia.
Qed.

(** Nothing planned is nothing granted, on any day. *)
Lemma prorate_zero (monthStart : Z) (now : Time.t) :
  1 <= monthStart <= 28 ->
  F32.to_int (Wallet.prorate monthStart 0 now) = 0.
Proof.
  intros Hms. pose proof (Day_range now) as Hday. pose proof (Month_range now) as Hmonth.
  destruct (Z.leb_spec monthStart (Time.Day now)) as [Hle|Hlt].
  - unfold Wallet.prorate. rewrite (proj2 (Z.leb_le _ _) Hle).
    destruct (F32_of_int_days (daysIn (Time.Month now)))
      as (m & e & Hdays & _); [pose proof (daysIn_range _ Hmonth); lia|].
    assert (Hpassed : Int64.add (Int64.sub (Time.Day now) monthStart) 1
                      = Time.Day now - monthStart + 1).
    { unfold Int64.add, Int64.sub.
      rewrite (wrap64_small (Time.Day now - monthStart))
        by (unfold Int64.in_range, Int64.min_int, Int64.max_int; lia).
      apply wrap64_small. unfold Int64.in_range, Int64.min_int, Int64.max_int. lia. }
    destruct (F32_of_int_days (Time.Day now - monthStart + 1))
      as (m' & e' & Hpart & _); [lia|].
    rewrite Hpassed, Hdays, Hpart. reflexivity.
  - rewrite prorate_wrapped by lia.
    pose proof (daysInMonth_prev_range _ Hmonth) as Hprev.
    destruct (F32_of_int_days (31 - (monthStart - Time.Day now)
                               - (31 - daysIn (Wallet.prevMonthOf (Time.Month now)))))
      as (m & e & Hdays & _); [lia|].
    rewrite Hdays. reflexivity.
Qed.

(** X15. With nothing planned the balance is the sum of the realized
    transactions of the window, in Go's arithmetic: the prorated income
    is 0 on every day of the month. *)
Theorem GetBalance_without_plan w (now t1 t2 : Time.t) st st1 st2
    (actual_txs : list ActualTransaction.t) :
  Storage.GetRegularTransactions (Wallet.storage w) (Wallet.ID w) st
    = (Ret ([], None), st1) ->
  Wallet.calcCurMonthBorders Local (Wallet.MonthStart w) now = Ret (t1, t2) ->
  Storage.GetActualTransactions (Wallet.storage w) (Wallet.ID w) t1 now st1
    = (Ret (actual_txs, None), st2) ->
  Wallet.GetBalance Local w now st = (Ret (sumActuals actual_txs, None), st2).
Proof.
  intros Hload Hwindow Hquery.
  pose proof (calcCurMonthBorders_returns_range _ _ _ Hwindow) as Hms.
  rewrite (GetBalance_loaded Local w now t1 t2 st st1 st2 _ _ Hload Hwindow Hquery).
  destruct (Wallet.accumulateMatchedTransactions [] actual_txs) as [matched|msg]
    eqn:Hmatched; [|discriminate].
  simpl. unfold Wallet.calcMonthlyIncomeTillDate. simpl.
  rewrite (prorate_zero _ now Hms).
  unfold Wallet.calcUnmatchedTransactionsSum, sumActuals.
  rewrite calcUnmatchedTransactionsSum_fold, sumActuals_fold by reflexivity.
  unfold Int64.add. rewrite Z.add_0_l, wrap64_idem.
  rewrite (valueOf_ext _ (fun _ => true)); [reflexivity|].
  intros tx _. rewrite (accumulateMatchedTransactions_entry _ _ _ _ Hmatched).
  reflexivity.
Qed.

End NoPlan.

Lemma GetBalance_without_plan_witness :
  Wallet.GetBalance Time.UTC (Sample.wallet 1) Sample.noon15 Sample2.unplannedStore
  = (Ret (-803, None), Sample2.unplannedStore).
Proof.
  apply (GetBalance_without_plan Time.UTC (Sample.wallet 1) Sample.noon15
           (Time.Date 2024 3 1 0 0 0 0 Time.UTC) (Time.Date 2024 4 1 0 0 0 0 Time.UTC)
           Sample2.unplannedStore Sample2.unplannedStore Sample2.unplannedStore
           [Sample.rentPaid; Sample.coffee]).
  - reflexivity.
  - reflexivity.
  - reflexivity.
Defined.

Section CalculatorEdges.

Implicit Types (matched : gmap string Z).

Lemma F64_abs_not_below_zero (y : spec_float) :
  SFltb (SFabs y) (S754_zero false) = false.
Proof. destruct y; reflexivity. Qed.

(** X16. A matched planned expense counts with the larger magnitude of
    the planned value and the matched sum, that is the smaller of the two
    numbers, whenever neither is below -2^53. *)
Theorem monthlyIncomeStep_expense_min matched (total m : Z) (tx : RegularTransaction.t) :
  matched !! RegularTransaction.Label tx = Some m ->
  - 2 ^ 53 <= RegularTransaction.Value tx < 0 -> - 2 ^ 53 <= m <= 0 ->
  Wallet.monthlyIncomeStep matched total tx
  = Ret (Int64.add total (Z.min (RegularTransaction.Value tx) m)).
Proof.
  intros Hm Hvalue Hsum.
  rewrite (monthlyIncomeStep_expense_exact matched total m tx Hm) by lia.
  destruct (Z.ltb_spec (Z.abs m) (Z.abs (RegularTransaction.Value tx))).
  - rewrite Z.min_l by lia. reflexivity.
  - rewrite Z.min_r by lia. reflexivity.
Qed.

(** X17. A planned transaction of value 0 never panics and counts with
    the matched sum of its label, of either sign (with 0 when nothing is
    matched). *)
Theorem monthlyIncomeStep_zero_plan matched (total : Z) (tx : RegularTransaction.t) :
  RegularTransaction.Value tx = 0 ->
  Wallet.monthlyIncomeStep matched total tx
  = Ret (Int64.add total (default 0 (matched !! RegularTransaction.Label tx))).
Proof.
  intros Hvalue. unfold Wallet.monthlyIncomeStep. rewrite Hvalue.
  destruct (matched !! RegularTransaction.Label tx) as [m|]; [|reflexivity].
  rewrite Z.ltb_irrefl, !andb_false_l. cbn [orb].
  unfold F64.gtb. change (F64.Abs (F64.of_int 0)) with (S754_zero false).
  unfold F64.Abs. rewrite F64_abs_not_below_zero. reflexivity.
Qed.

End CalculatorEdges.

Lemma monthlyIncomeStep_expense_min_witness :
  Wallet.monthlyIncomeStep {[ "rent" := -500 ]} 0 Sample.rentPlan = Ret (-800)
  /\ Wallet.monthlyIncomeStep {[ "rent" := -900 ]} 0 Sample.rentPlan = Ret (-900).
Proof.
  split.
  - apply (monthlyIncomeStep_expense_min {[ "rent" := -500 ]} 0 (-500) Sample.rentPlan);
      [reflexivity|simpl; lia|lia].
  - apply (monthlyIncomeStep_expense_min {[ "rent" := -900 ]} 0 (-900) Sample.rentPlan);
      [reflexivity|simpl; lia|lia].
Defined.

Lemma monthlyIncomeStep_zero_plan_witness :
  Wallet.monthlyIncomeStep {[ "gift" := -20 ]} 100 Sample2.giftPlan = Ret 80
  /\ Wallet.monthlyIncomeStep {[ "gift" := 20 ]} 100 Sample2.giftPlan = Ret 120.
Proof.
  split.
  - etransitivity;
      [apply (monthlyIncomeStep_zero_plan {[ "gift" := -20 ]} 100 Sample2.giftPlan);
       reflexivity|reflexivity].
  - etransitivity;
      [apply (monthlyIncomeStep_zero_plan {[ "gift" := 20 ]} 100 Sample2.giftPlan);
       reflexivity|reflexivity].
Defined.

(** ** The queries of the Redis storage *)

Section Dedupe.

Implicit Types (s result : list string) (seen : gmap string bool).

Lemma filter_filter_comm {A : Type} (p q : A -> bool) (l : list A) :
  List.filter p (List.filter q l) = List.filter (fun x => q x && p x) l.
Proof.
  induction l as [|x l IH]; simpl; [reflexivity|].
  destruct (q x); simpl; [destruct (p x); simpl; rewrite IH; reflexivity|exact IH].
Qed.

Lemma unseen_insert seen (e x : string) :
  unseen (<[e := true]> seen) x = negb (String.eqb x e) && unseen seen x.
Proof.
  unfold unseen. rewrite lookup_insert.
  destruct (String.eqb_spec x e) as [->|Hne].
  - rewrite decide_True by reflexivity.
    rewrite (bool_decide_eq_true_2 (is_Some (Some true))) by (eexists; reflexivity).
    reflexivity.
  - rewrite decide_False by congruence. reflexivity.
Qed.

Lemma unseen_empty (x : string) : unseen ∅ x = true.
Proof.
  unfold unseen. rewrite lookup_empty.
  rewrite (bool_decide_eq_false_2 (is_Some None)) by (intros [? [=]]). reflexivity.
Qed.

Lemma unseen_lookup seen (x : string) :
  unseen seen x = match seen !! x with Some _ => false | None => true end.
Proof.
  unfold unseen. destruct (seen !! x) as [b|].
  - rewrite (bool_decide_eq_true_2 (is_Some (Some b))) by (eexists; reflexivity).
    reflexivity.
  - rewrite (bool_decide_eq_false_2 (is_Some None)) by (intros [? [=]]). reflexivity.
Qed.

(** The loop started with some keys seen yields what it had, followed by the
    unseen keys of the slice deduplicated on its own. *)
Lemma uniqueStringSliceFrom_unseen s result seen :
  RedisStorage.uniqueStringSliceFrom s result seen
  = result ++ List.filter (unseen seen) (RedisStorage.uniqueStringSliceFrom s [] ∅).
Proof.
  revert result seen. induction s as [|elem rest IH]; intros result seen; simpl.
  - rewrite app_nil_r. reflexivity.
  - rewrite lookup_empty. rewrite (IH [elem]). simpl.
    rewrite filter_filter_comm, (unseen_lookup seen elem).
    destruct (seen !! elem) as [b|] eqn:Hlookup.
    + rewrite (IH result seen). f_equal.
      apply filter_ext. intros x. rewrite unseen_insert, unseen_empty, andb_true_r.
      destruct (String.eqb_spec x elem) as [->|Hne]; [|reflexivity].
      rewrite (unseen_lookup seen elem), Hlookup. reflexivity.
    + rewrite (IH (result ++ [elem])). rewrite <- app_assoc. f_equal. simpl. f_equal.
      apply filter_ext. intros x. rewrite !unseen_insert, unseen_empty, andb_true_r.
      reflexivity.
Qed.

Lemma uniqueStringSlice_cons (k : string) s :
  RedisStorage.uniqueStringSlice (k :: s)
  = k :: List.filter (fun x => negb (String.eqb x k)) (RedisStorage.uniqueStringSlice s).
Proof.
  unfold RedisStorage.uniqueStringSlice. simpl. rewrite lookup_empty.
  rewrite uniqueStringSliceFrom_unseen. simpl. f_equal.
  apply filter_ext. intros x. rewrite unseen_insert, unseen_empty, andb_true_r.
  reflexivity.
Qed.

End Dedupe.

Section Query.

Variable client : RedisStorage.Client.
Variable Local : Time.Location.

(** X18. The deduplication keeps the first occurrence of every key, in
    order: the result for [k :: s] is [k] followed by the result for [s]
    without [k]; it has no duplicates and the same elements as the slice. *)
Theorem uniqueStringSlice_first_occurrences (k : string) (s : list string) :
  RedisStorage.uniqueStringSlice [] = []
  /\ RedisStorage.uniqueStringSlice (k :: s)
     = k :: List.filter (fun x => negb (String.eqb x k)) (RedisStorage.uniqueStringSlice s)
  /\ NoDup (RedisStorage.uniqueStringSlice s)
  /\ (In k (RedisStorage.uniqueStringSlice s) <-> In k s).
Proof.
  split; [reflexivity|]. split; [apply uniqueStringSlice_cons|].
  split; [apply uniqueStringSlice_NoDup|apply uniqueStringSlice_elem].
Qed.

Lemma collectTransactions_error (t1 t2 : Time.t) (allKeys : list string)
    (result txs : list ActualTransaction.t) (e : string) :
  RedisStorage.collectTransactions client Local t1 t2 allKeys result = Ret (txs, Some e) ->
  txs = [].
Proof.
  revert result. induction allKeys as [|k rest IH]; intros result; simpl.
  - discriminate.
  - destruct (Strings.Split k ":" !! 3%nat) as [part|]; [|discriminate].
    destruct (Strings.ParseInt part) as [tUnix perr].
    destruct (Time.After (Time.Unix Local tUnix 0) t1 && Time.Before (Time.Unix Local tUnix 0) t2);
      [|apply IH].
    destruct (RedisStorage.HGetAll client k) as [fields [herr|]]; [apply IH|].
    destruct (Strings.Atoi (default "" (fields !! "value"))) as [value [aerr|]];
      [|apply IH].
    intros [= <- _]. reflexivity.
Qed.

(** X19. The query of the realized transactions never returns records
    together with an error: whenever it returns an error, whether of a scan
    or of a value that is not an integer, the list is empty. *)
Theorem GetActualTransactions_error_no_records (fuel : nat) (w : WalletId)
    (t1 t2 : Time.t) (txs : list ActualTransaction.t) (e : string) :
  RedisStorage.GetActualTransactions client Local fuel w t1 t2 = Some (Ret (txs, Some e)) ->
  txs = [].
Proof.
  unfold RedisStorage.GetActualTransactions.
  destruct (Time.Before t2 t1); [discriminate|].
  destruct (RedisStorage.getAllKeys client fuel ("wallet:" +:+ w +:+ ":in:*"))
    as [[keysIn [errIn|]]|]; [intros [= <- _]; reflexivity| |discriminate].
  destruct (RedisStorage.getAllKeys client fuel ("wallet:" +:+ w +:+ ":out:*"))
    as [[keysOut [errOut|]]|]; [intros [= <- _]; reflexivity| |discriminate].
  intros [= Hcollect]. exact (collectTransactions_error _ _ _ _ _ _ Hcollect).
Qed.

(** Over keys with an instant, whose hashes hold an integer value whenever
    they can be read, the loop skips the keys whose hash cannot be read. *)
Lemma collectTransactions_readable (t1 t2 : Time.t) (allKeys : list string)
    (result : list ActualTransaction.t) :
  (forall k, In k allKeys ->
     is_Some (Strings.Split k ":"%char !! 3%nat)
     /\ (readable client k -> is_Some (storedTransaction client Local k))) ->
  RedisStorage.collectTransactions client Local t1 t2 allKeys result
    = Ret (result ++ List.filter (strictlyInside t1 t2)
                       (omap (storedTransaction client Local) allKeys), None).
Proof.
  revert result. induction allKeys as [|k rest IH]; intros result Hkeys; simpl.
  - rewrite app_nil_r. reflexivity.
  - assert (Hrest : forall k', In k' rest ->
              is_Some (Strings.Split k' ":"%char !! 3%nat)
              /\ (readable client k' -> is_Some (storedTransaction client Local k')))
      by (intros k' Hin; apply Hkeys; now right).
    destruct (Hkeys k (or_introl eq_refl)) as [[part Hpart] Hreadable].
    unfold readable, storedTransaction in *. rewrite Hpart in *.
    destruct (Strings.ParseInt part) as [tUnix perr]. cbn [fst] in *.
    destruct (RedisStorage.HGetAll client k) as [fields [herr|]]; cbn [snd] in *.
    + destruct (Time.After (Time.Unix Local tUnix 0) t1 && Time.Before (Time.Unix Local tUnix 0) t2);
        apply IH; exact Hrest.
    + destruct (Hreadable eq_refl) as [tx Htx].
      destruct (Strings.Atoi (default "" (fields !! "value"))) as [value [aerr|]];
        [discriminate|].
      simpl. unfold strictlyInside at 1.
      cbn [ActualTransaction.Time ActualTransaction.New].
      destruct (Time.After (Time.Unix Local tUnix 0) t1 && Time.Before (Time.Unix Local tUnix 0) t2).
      * rewrite IH by exact Hrest. rewrite <- app_assoc. reflexivity.
      * apply IH. exact Hrest.
Qed.

(** X20. A hash that cannot be read is skipped, it does not fail the
    query: when the window is not reversed, both scans complete, every key
    has an instant and every hash that can be read holds an integer value,
    the query returns without error the records strictly inside the window
    of the distinct keys, and the keys whose hash cannot be read give no
    record. *)
Theorem GetActualTransactions_skips_unreadable (fuel : nat) (w : WalletId)
    (t1 t2 : Time.t) (keysIn keysOut : list string) :
  Time.Before t2 t1 = false ->
  RedisStorage.getAllKeys client fuel ("wallet:" +:+ w +:+ ":in:*") = Some (keysIn, None) ->
  RedisStorage.getAllKeys client fuel ("wallet:" +:+ w +:+ ":out:*") = Some (keysOut, None) ->
  (forall k, In k (keysIn ++ keysOut) ->
     is_Some (Strings.Split k ":"%char !! 3%nat)
     /\ (readable client k -> is_Some (storedTransaction client Local k))) ->
  RedisStorage.GetActualTransactions client Local fuel w t1 t2
  = Some (Ret (List.filter (strictlyInside t1 t2)
                 (omap (storedTransaction client Local)
                       (RedisStorage.uniqueStringSlice (keysIn ++ keysOut))), None))
  /\ forall k, In k (keysIn ++ keysOut) -> ~ readable client k ->
               storedTransaction client Local k = None.
Proof.
  intros Horder Hin Hout Hkeys. split.
  - unfold RedisStorage.GetActualTransactions. rewrite Horder, Hin, Hout.
    rewrite collectTransactions_readable
      by (intros k Hk; apply Hkeys, uniqueStringSlice_elem, Hk).
    reflexivity.
  - intros k Hk Hunreadable. destruct (Hkeys k Hk) as [[part Hpart] _].
    unfold readable, storedTransaction in *. rewrite Hpart.
    destruct (RedisStorage.HGetAll client k) as [fields [herr|]]; [reflexivity|].
    contradiction Hunreadable. reflexivity.
Qed.

End Query.

Lemma GetActualTransactions_error_no_records_witness :
  RedisStorage.GetActualTransactions Sample2.garbledClient Time.UTC 1 "w1"
      (Time.Unix Time.UTC 0 0) (Time.Unix Time.UTC 90000 0)
    = Some (Ret ([], Some "invalid syntax"))
  /\ ([] : list ActualTransaction.t) = [].
Proof.
  split; [vm_compute; reflexivity|].
  apply (GetActualTransactions_error_no_records Sample2.garbledClient Time.UTC 1 "w1"
           (Time.Unix Time.UTC 0 0) (Time.Unix Time.UTC 90000 0) [] "invalid syntax").
  vm_compute. reflexivity.
Defined.

Lemma GetActualTransactions_skips_unreadable_witness :
  RedisStorage.GetActualTransactions Sample2.flakyClient Time.UTC 1 "w1"
      (Time.Unix Time.UTC 0 0) (Time.Unix Time.UTC 90000 0)
  = Some (Ret (List.filter (strictlyInside (Time.Unix Time.UTC 0 0) (Time.Unix Time.UTC 90000 0))
                 (omap (storedTransaction Sample2.flakyClient Time.UTC)
                       (RedisStorage.uniqueStringSlice
                          ([] ++ ["wallet:w1:out:86400"; "wallet:w1:out:86500";
                                  "wallet:w1:out:86400"]))), None))
  /\ forall k, In k ([] ++ ["wallet:w1:out:86400"; "wallet:w1:out:86500";
                            "wallet:w1:out:86400"]) ->
               ~ readable Sample2.flakyClient k ->
               storedTransaction Sample2.flakyClient Time.UTC k = None.
Proof.
  apply (GetActualTransactions_skips_unreadable Sample2.flakyClient Time.UTC 1 "w1"
           (Time.Unix Time.UTC 0 0) (Time.Unix Time.UTC 90000 0) []
           ["wallet:w1:out:86400"; "wallet:w1:out:86500"; "wallet:w1:out:86400"]).
  - vm_compute. reflexivity.
  - vm_compute. reflexivity.
  - vm_compute. reflexivity.
  - intros k [<- | [<- | [<- | []]]]; (split; [vm_compute; eauto|]).
    + intros _. vm_compute. eauto.
    + intros Hread. vm_compute in Hread. discriminate.
    + intros _. vm_compute. eauto.
Defined.

Section PlanQuery.

Variable client : RedisStorage.Client.
Variable scannerRegularTransactions : WalletId -> string.

Implicit Types (keys : list string) (result : list RegularTransaction.t).
Implicit Types (guard : gmap string bool).

(** The loop over two batches is the loop over the first, continued over
    the second. *)
Lemma readRegularTransactions_app keys keys' result guard :
  RedisStorage.readRegularTransactions client (keys ++ keys') result guard
  = match RedisStorage.readRegularTransactions client keys result guard with
    | Ret (inl (result', guard')) =>
        RedisStorage.readRegularTransactions client keys' result' guard'
    | other => other
    end.
Proof.
  revert result guard. induction keys as [|k rest IH]; intros result guard; simpl.
  - reflexivity.
  - destruct (guard !! k); [apply IH|].
    destruct (RedisStorage.HGetAll client k) as [fields [herr|]]; [apply IH|].
    destruct (Strings.Atoi (default "" (fields !! "value"))) as [value [aerr|]];
      [reflexivity|].
    destruct (Strings.Split k ":" !! 4%nat) as [dateStr|]; [|reflexivity].
    destruct (Strings.Atoi dateStr) as [date [derr|]]; [reflexivity|].
    apply IH.
Qed.

(** A completed scan: the method is its loop over all the keys scanned. *)
Lemma GetRegularTransactionsFrom_fused (fuel : nat) (scanMatch : string) (cursor : Z)
    (found allKeys : list string) :
  RedisStorage.getAllKeysFrom client fuel scanMatch cursor found = Some (allKeys, None) ->
  exists keys,
    allKeys = found ++ keys
    /\ forall result guard,
         RedisStorage.GetRegularTransactionsFrom client fuel scanMatch cursor result guard
         = Some (finishRegularTransactions
                   (RedisStorage.readRegularTransactions client keys result guard)).
Proof.
  revert cursor found. induction fuel as [|fuel IH]; intros cursor found; simpl.
  - discriminate.
  - destruct (RedisStorage.Scan client cursor scanMatch 10) as [[batch newcursor] [err|]].
    + discriminate.
    + destruct (Z.eqb_spec newcursor 0) as [Hend|Hmore].
      * intros [= <-]. exists batch. split; [reflexivity|]. intros result guard.
        destruct (RedisStorage.readRegularTransactions client batch result guard)
          as [[[result' guard']|err]|msg]; reflexivity.
      * intros Hscan. destruct (IH _ _ Hscan) as (keys & -> & Hloop).
        exists (batch ++ keys). split; [rewrite app_assoc; reflexivity|].
        intros result guard. rewrite readRegularTransactions_app.
        destruct (RedisStorage.readRegularTransactions client batch result guard)
          as [[[result' guard']|err]|msg]; [apply Hloop|reflexivity|reflexivity].
Qed.

Lemma filter_all {A : Type} (l : list A) : List.filter (fun _ => true) l = l.
Proof. induction l as [|x l IH]; simpl; [reflexivity|rewrite IH; reflexivity]. Qed.

Lemma omap_filter_unread {A : Type} (f : string -> option A) (q : string -> bool)
    (k : string) (l : list string) :
  f k = None ->
  omap f (List.filter (fun x => negb (String.eqb x k) && q x) l)
  = omap f (List.filter q l).
Proof.
  intros Hk. induction l as [|x l IH]; simpl; [reflexivity|].
  destruct (String.eqb_spec x k) as [->|Hne]; simpl.
  - destruct (q k); simpl; [rewrite Hk|]; exact IH.
  - destruct (q x); simpl; [destruct (f x); [f_equal|]; exact IH|exact IH].
Qed.

(** Over keys whose hashes hold a planned transaction whenever they can be
    read, the loop appends the record of every key it has not read yet,
    once, and skips the keys whose hash cannot be read. *)
Lemma readRegularTransactions_readable keys result guard :
  (forall k, In k keys -> readable client k -> is_Some (storedRegular client k)) ->
  exists guard',
    RedisStorage.readRegularTransactions client keys result guard
    = Ret (inl (result ++ omap (storedRegular client)
                            (List.filter (unseen guard)
                                         (RedisStorage.uniqueStringSlice keys)),
                guard')).
Proof.
  revert result guard. induction keys as [|k rest IH]; intros result guard Hkeys.
  - exists guard. simpl. rewrite app_nil_r. reflexivity.
  - assert (Hrest : forall k', In k' rest -> readable client k' ->
                               is_Some (storedRegular client k'))
      by (intros k' Hin; apply Hkeys; now right).
    pose proof (Hkeys k (or_introl eq_refl)) as Hk.
    rewrite uniqueStringSlice_cons. cbn [RedisStorage.readRegularTransactions List.filter].
    rewrite filter_filter_comm, (unseen_lookup guard k).
    destruct (guard !! k) as [b|] eqn:Hguard.
    + destruct (IH result guard Hrest) as [guard' ->]. exists guard'.
      rewrite (filter_ext (fun x => negb (String.eqb x k) && unseen guard x)
                          (unseen guard)); [reflexivity|].
      intros x. destruct (String.eqb_spec x k) as [->|Hne]; [|reflexivity].
      rewrite (unseen_lookup guard k), Hguard. reflexivity.
    + cbn [omap list_omap].
      destruct (RedisStorage.HGetAll client k) as [fields [herr|]] eqn:Hhash.
      * assert (Hnone : storedRegular client k = None)
          by (unfold storedRegular; rewrite Hhash; reflexivity).
        rewrite Hnone.
        destruct (IH result guard Hrest) as [guard' ->]. exists guard'.
        rewrite (omap_filter_unread (storedRegular client) (unseen guard) k _ Hnone).
        reflexivity.
      * destruct Hk as [tx Htx]; [unfold readable; rewrite Hhash; reflexivity|].
        rewrite Htx. unfold storedRegular in Htx. rewrite Hhash in Htx.
        destruct (Strings.Atoi (default "" (fields !! "value"))) as [value [aerr|]];
          [discriminate|].
        destruct (Strings.Split k ":" !! 4%nat) as [dateStr|]; [|discriminate].
        destruct (Strings.Atoi dateStr) as [date [derr|]]; [discriminate|].
        injection Htx as <-.
        destruct (IH (result ++ [RegularTransaction.New value date
                                   (default "" (fields !! "label"))])
                     (<[k := true]> guard) Hrest) as [guard' ->].
        exists guard'. rewrite <- app_assoc.
        rewrite (filter_ext (unseen (<[k := true]> guard))
                            (fun x => negb (String.eqb x k) && unseen guard x));
          [reflexivity|].
        intros x. apply unseen_insert.
Qed.

(** X21. The query of the planned transactions of the Redis storage: when
    the scan completes and every hash that can be read holds a planned
    transaction, the query returns without error one record for every
    distinct key whose hash can be read, in the order of the scan; keys the
    scan repeats are read once and hashes that cannot be read are
    skipped. *)
Theorem GetRegularTransactions_distinct_readable_keys (fuel : nat) (w : WalletId)
    (keys : list string) :
  RedisStorage.getAllKeys client fuel (scannerRegularTransactions w) = Some (keys, None) ->
  (forall k, In k keys -> readable client k -> is_Some (storedRegular client k)) ->
  RedisStorage.GetRegularTransactions client scannerRegularTransactions fuel w
  = Some (Ret (omap (storedRegular client) (RedisStorage.uniqueStringSlice keys), None)).
Proof.
  intros Hscan Hkeys. unfold RedisStorage.GetRegularTransactions.
  destruct (GetRegularTransactionsFrom_fused _ _ _ _ _ Hscan) as (keys' & Heq & ->).
  simpl in Heq. subst keys'.
  destruct (readRegularTransactions_readable keys [] ∅ Hkeys) as [guard' ->].
  rewrite (filter_ext (unseen ∅) (fun _ => true)) by (intros x; apply unseen_empty).
  rewrite filter_all. reflexivity.
Qed.

End PlanQuery.

Lemma GetRegularTransactions_distinct_readable_keys_witness :
  RedisStorage.GetRegularTransactions Sample2.planClient
    (fun w => "wallet:" +:+ w +:+ ":regular:*") 2 "w1"
  = Some (Ret ([RegularTransaction.mk (-800) 1 "rent"], None)).
Proof.
  apply (GetRegularTransactions_distinct_readable_keys Sample2.planClient
           (fun w => "wallet:" +:+ w +:+ ":regular:*") 2 "w1"
           ["wallet:w1:regular:out:1:1700000000"; "wallet:w1:regular:out:1:1700000000"]).
  - vm_compute. reflexivity.
  - intros k [<- | [<- | []]] _; vm_compute; eauto.
Defined.

(** ** Proration from the month start on *)

Section ForwardProration.

(** The quotient of an amount by a number of days is zero or a finite
    number below 2^66. *)
Lemma F32_div_days_shape (total days : Z) :
  - 2 ^ 64 < total < 2 ^ 64 -> 1 <= days <= 31 ->
  (exists s, F32.div (F32.of_int total) (F32.of_int days) = S754_zero s)
  \/ exists s m e, F32.div (F32.of_int total) (F32.of_int days) = S754_finite s m e
                   /\ Z.pos m < 2 ^ 24 /\ e <= 42.
Proof.
  intros Htotal Hdays.
  destruct (F32_of_int_days days Hdays) as (my & ey & -> & Hmy & Hey).
  destruct (F32_of_int_shape total Htotal) as [[s ->] | (mx & ex & -> & Hmx & Hex)];
    [left; eexists; reflexivity|].
  clear Htotal Hdays. unfold F32.div, SFdiv, SFdiv_core_binary.
  set (sx := total <? 0). clearbody sx. clear total.
  pose proof (Zdigits2_nonneg (Z.pos mx)) as Hd1nn.
  assert (Hd1 : Zdigits2 (Z.pos mx) <= 24) by (apply Zdigits2_le; lia).
  assert (Hd2 : Zdigits2 (Z.pos my) = 24).
  { apply Z.le_antisymm; [apply Zdigits2_le; lia|].
    pose proof (Zdigits2_upper (Z.pos my) ltac:(lia)) as Hup.
    destruct (Z.le_gt_cases 24 (Zdigits2 (Z.pos my))) as [|Hlt]; [assumption|].
    assert (2 ^ Zdigits2 (Z.pos my) <= 2 ^ 23)
      by (apply Z.pow_le_mono_r; [lia | pose proof (Zdigits2_nonneg (Z.pos my)); lia]).
    lia. }
  set (d1 := Zdigits2 (Z.pos mx)) in *. rewrite Hd2.
  set (e' := Z.min (fexp F32.prec F32.emax (d1 + ex - (24 + ey))) (ex - ey)).
  assert (He' : e' <= ex - ey) by (unfold e'; lia).
  assert (Hs : 24 - d1 + 24 <= ex - ey - e' \/ e' <= -149 + 0).
  { unfold e', fexp, emin, F32.prec, F32.emax. lia. }
  set (sh := ex - ey - e') in *.
  set (m' := match sh with Z.pos _ => Z.shiftl (Z.pos mx) sh | 0 => Z.pos mx | Z.neg _ => 0 end).
  assert (Hm' : 0 <= m' < 2 ^ (d1 + sh)).
  { unfold m'. pose proof (Zdigits2_upper (Z.pos mx) ltac:(lia)) as Hup. fold d1 in Hup.
    destruct sh as [|n|n] eqn:Hsh; [rewrite Z.add_0_r; lia | | lia].
    rewrite Z.shiftl_mul_pow2, Z.pow_add_r by lia.
    assert (0 < 2 ^ Z.pos n) by (apply Z.pow_pos_nonneg; lia). nia. }
  clearbody m'.
  assert (Hq : Z.div_eucl m' (Z.pos my) = (m' / Z.pos my, m' mod Z.pos my))
    by (unfold Z.div, Z.modulo; destruct (Z.div_eucl m' (Z.pos my)); reflexivity).
  rewrite Hq.
  set (q := m' / Z.pos my).
  assert (Hq0 : 0 <= q) by (apply Z.div_pos; lia).
  assert (Hqd : Zdigits2 q <= Z.max (d1 + sh - 23) 0).
  { apply Zdigits2_le; [|lia]. split; [exact Hq0|].
    apply Z.div_lt_upper_bound; [lia|].
    eapply Z.lt_le_trans; [apply Hm'|].
    eapply Z.le_trans; [|apply Z.mul_le_mono_nonneg_r; [apply Z.pow_nonneg; lia | apply Hmy]].
    rewrite <- Z.pow_add_r by lia. apply pow2_le_mono; lia. }
  pose proof (Zdigits2_nonneg q) as Hqnn.
  destruct (binary_round_aux_finite F32.prec F32.emax (xorb sx false) q e'
              (new_location (Z.pos my) (m' mod Z.pos my)))
    as [-> | (m & e & -> & Hm & He)].
  - lia.
  - unfold F32.prec. lia.
  - unfold fexp, emin, F32.prec, F32.emax. lia.
  - left. eexists. reflexivity.
  - right. exists (xorb sx false), m, e. split; [reflexivity|]. split; [exact Hm|].
    revert He. unfold fexp, emin, F32.prec, F32.emax. lia.
Qed.

(** The product of such a quotient with a number of days is finite. *)
Lemma F32_mul_days_finite (x : spec_float) (days : Z) :
  (exists s, x = S754_zero s)
  \/ (exists s m e, x = S754_finite s m e /\ Z.pos m < 2 ^ 24 /\ e <= 42) ->
  1 <= days <= 31 ->
  F32.is_finite (F32.mul x (F32.of_int days)) = true.
Proof.
  intros Hx Hdays.
  destruct (F32_of_int_days days Hdays) as (my & ey & -> & Hmy & Hey).
  destruct Hx as [[s ->] | (s & mx & ex & -> & Hmx & Hex)]; [reflexivity|].
  unfold F32.mul, SFmul.
  assert (Hdigits : Zdigits2 (Z.pos (mx * my)) <= 48).
  { apply Zdigits2_le; [|lia]. rewrite Pos2Z.inj_mul.
    change (2 ^ 48) with (2 ^ 24 * 2 ^ 24). nia. }
  pose proof (Zdigits2_nonneg (Z.pos (mx * my))) as Hnn.
  destruct (binary_round_aux_finite F32.prec F32.emax (xorb s false) (Z.pos (mx * my))
              (ex + ey) loc_Exact)
    as [-> | (m & e & -> & _)]; try reflexivity.
  - lia.
  - unfold fexp, emin, F32.prec, F32.emax. lia.
Qed.

(** X22. With a month start in [1,28] and a reference day not before it,
    the days of the current month are read from the fixed table (28 to 31),
    the days passed [curDay - monthStart + 1] lie between 1 and 31, the
    float32 product of the daily share with the days passed is a finite
    number, and the calculation returns that product converted to [int]. *)
Theorem forward_proration_well_defined {S : Type} (w : Wallet.t S)
    (regular_txs : list RegularTransaction.t) (matched : gmap string Z)
    (now : Time.t) (total : Z) :
  1 <= Wallet.MonthStart w <= 28 ->
  Wallet.MonthStart w <= Time.Day now ->
  Wallet.totalMonthlyIncomeFrom matched 0 regular_txs = Ret total ->
  let daysInCurMonth := daysIn (Time.Month now) in
  let passed := Time.Day now - Wallet.MonthStart w + 1 in
  28 <= daysInCurMonth <= 31
  /\ 1 <= passed <= 31
  /\ F32.is_finite (F32.mul (F32.div (F32.of_int total) (F32.of_int daysInCurMonth))
                            (F32.of_int passed)) = true
  /\ Wallet.calcMonthlyIncomeTillDate w regular_txs matched now
     = Ret (F32.to_int (F32.mul (F32.div (F32.of_int total) (F32.of_int daysInCurMonth))
                                (F32.of_int passed))).
Proof.
  intros Hms Hday Htotal daysInCurMonth passed.
  pose proof (Day_range now) as Hcur. pose proof (Month_range now) as Hmonth.
  pose proof (daysIn_range _ Hmonth) as Hdays. fold daysInCurMonth in Hdays.
  assert (Hpassed : 1 <= passed <= 31) by (unfold passed; lia).
  assert (Hrange : Int64.in_range total).
  { apply (totalMonthlyIncomeFrom_in_range matched 0 total regular_txs); [|exact Htotal].
    unfold Int64.in_range, Int64.min_int, Int64.max_int. lia. }
  assert (Hsmall : - 2 ^ 64 < total < 2 ^ 64)
    by (unfold Int64.in_range, Int64.min_int, Int64.max_int in Hrange; lia).
  split; [exact Hdays|]. split; [exact Hpassed|]. split.
  - apply F32_mul_days_finite; [|exact Hpassed].
    destruct (F32_div_days_shape total daysInCurMonth Hsmall) as [Hzero|Hfinite];
      [lia|left; exact Hzero|right; exact Hfinite].
  - unfold Wallet.calcMonthlyIncomeTillDate. rewrite Htotal. simpl.
    unfold Wallet.prorate. rewrite (proj2 (Z.leb_le _ _) Hday).
    fold daysInCurMonth.
    replace (Int64.add (Int64.sub (Time.Day now) (Wallet.MonthStart w)) 1) with passed;
      [reflexivity|].
    unfold Int64.add, Int64.sub, passed.
    rewrite (wrap64_small (Time.Day now - Wallet.MonthStart w))
      by (unfold Int64.in_range, Int64.min_int, Int64.max_int; lia).
    symmetry. apply wrap64_small.
    unfold Int64.in_range, Int64.min_int, Int64.max_int. lia.
Qed.

End ForwardProration.

Lemma forward_proration_well_defined_witness :
  28 <= daysIn (Time.Month Sample.noon15) <= 31
  /\ 1 <= Time.Day Sample.noon15 - 1 + 1 <= 31
  /\ F32.is_finite
       (F32.mul (F32.div (F32.of_int (-800)) (F32.of_int (daysIn (Time.Month Sample.noon15))))
                (F32.of_int (Time.Day Sample.noon15 - 1 + 1))) = true
  /\ Wallet.calcMonthlyIncomeTillDate (Sample.wallet 1) [Sample.rentPlan]
       {[ "rent" := -800 ]} Sample.noon15
     = Ret (F32.to_int
              (F32.mul (F32.div (F32.of_int (-800))
                                (F32.of_int (daysIn (Time.Month Sample.noon15))))
                       (F32.of_int (Time.Day Sample.noon15 - 1 + 1)))).
Proof.
  apply (forward_proration_well_defined (Sample.wallet 1) [Sample.rentPlan]
           {[ "rent" := -800 ]} Sample.noon15 (-800)).
  - simpl. lia.
  - vm_compute. discriminate.
  - vm_compute. reflexivity.
Defined.
